(** * Verification of the contact-registry pipeline (csvtojson.py) and of the
      file obfuscation utility (crypt.py)

    The development is a shallow embedding: every Python function that a
    stated property talks about is transcribed as a Rocq function of the same
    name, with Python's [str] as a list of Unicode code points, [dict] as an
    insertion-ordered association list, and the file system as an explicit
    argument. *)

From Stdlib Require Import Strings.Byte Strings.String Strings.Ascii.
From Stdlib Require Import List NArith ZArith QArith Bool Lia Permutation Floats.
Import ListNotations.
Close Scope Q_scope.

Set Implicit Arguments.

(** ** Python strings *)

Module Py.

(** A [str] is a sequence of code points; [len] counts code points. *)
Definition char := N.
Definition str := list char.

(** ASCII literals. Non-ASCII characters are written as explicit code points. *)
Definition lit (s : String.string) : str :=
  map Ascii.N_of_ascii (String.list_ascii_of_string s).
Arguments lit s%_string.

Fixpoint eqb (a b : str) : bool :=
  match a, b with
  | [], [] => true
  | x :: a', y :: b' => (x =? y)%N && eqb a' b'
  | _, _ => false
  end.

Definition str_eq_dec : forall a b : str, {a = b} + {a <> b} := list_eq_dec N.eq_dec.

Definition in_range (c : char) (r : char * char) : bool :=
  (fst r <=? c)%N && (c <=? snd r)%N.

Fixpoint assoc {V} (c : char) (tbl : list (char * V)) (default : V) : V :=
  match tbl with
  | [] => default
  | (k, v) :: tbl' => if (k =? c)%N then v else assoc c tbl' default
  end.

(** *** Unicode data

    The character tables are those of Unicode 14 (CPython 3.11) for the
    repertoire U+0000..U+017F (Basic Latin, Latin-1 Supplement, Latin
    Extended-A) and U+0300..U+036F (combining diacritical marks); the
    white-space table is complete.  A code point outside the repertoire is
    taken to be caseless, without canonical decomposition, of combining class
    0 and not a word character. *)

Definition lower_table : list (char * str) :=
  [
    (0x41, [0x61]); (0x42, [0x62]); (0x43, [0x63]); (0x44, [0x64]); (0x45, [0x65]);
    (0x46, [0x66]); (0x47, [0x67]); (0x48, [0x68]); (0x49, [0x69]); (0x4A, [0x6A]);
    (0x4B, [0x6B]); (0x4C, [0x6C]); (0x4D, [0x6D]); (0x4E, [0x6E]); (0x4F, [0x6F]);
    (0x50, [0x70]); (0x51, [0x71]); (0x52, [0x72]); (0x53, [0x73]); (0x54, [0x74]);
    (0x55, [0x75]); (0x56, [0x76]); (0x57, [0x77]); (0x58, [0x78]); (0x59, [0x79]);
    (0x5A, [0x7A]); (0xC0, [0xE0]); (0xC1, [0xE1]); (0xC2, [0xE2]); (0xC3, [0xE3]);
    (0xC4, [0xE4]); (0xC5, [0xE5]); (0xC6, [0xE6]); (0xC7, [0xE7]); (0xC8, [0xE8]);
    (0xC9, [0xE9]); (0xCA, [0xEA]); (0xCB, [0xEB]); (0xCC, [0xEC]); (0xCD, [0xED]);
    (0xCE, [0xEE]); (0xCF, [0xEF]); (0xD0, [0xF0]); (0xD1, [0xF1]); (0xD2, [0xF2]);
    (0xD3, [0xF3]); (0xD4, [0xF4]); (0xD5, [0xF5]); (0xD6, [0xF6]); (0xD8, [0xF8]);
    (0xD9, [0xF9]); (0xDA, [0xFA]); (0xDB, [0xFB]); (0xDC, [0xFC]); (0xDD, [0xFD]);
    (0xDE, [0xFE]); (0x100, [0x101]); (0x102, [0x103]); (0x104, [0x105]); (0x106, [0x107]);
    (0x108, [0x109]); (0x10A, [0x10B]); (0x10C, [0x10D]); (0x10E, [0x10F]);
    (0x110, [0x111]); (0x112, [0x113]); (0x114, [0x115]); (0x116, [0x117]);
    (0x118, [0x119]); (0x11A, [0x11B]); (0x11C, [0x11D]); (0x11E, [0x11F]);
    (0x120, [0x121]); (0x122, [0x123]); (0x124, [0x125]); (0x126, [0x127]);
    (0x128, [0x129]); (0x12A, [0x12B]); (0x12C, [0x12D]); (0x12E, [0x12F]);
    (0x130, [0x69; 0x307]); (0x132, [0x133]); (0x134, [0x135]); (0x136, [0x137]);
    (0x139, [0x13A]); (0x13B, [0x13C]); (0x13D, [0x13E]); (0x13F, [0x140]);
    (0x141, [0x142]); (0x143, [0x144]); (0x145, [0x146]); (0x147, [0x148]);
    (0x14A, [0x14B]); (0x14C, [0x14D]); (0x14E, [0x14F]); (0x150, [0x151]);
    (0x152, [0x153]); (0x154, [0x155]); (0x156, [0x157]); (0x158, [0x159]);
    (0x15A, [0x15B]); (0x15C, [0x15D]); (0x15E, [0x15F]); (0x160, [0x161]);
    (0x162, [0x163]); (0x164, [0x165]); (0x166, [0x167]); (0x168, [0x169]);
    (0x16A, [0x16B]); (0x16C, [0x16D]); (0x16E, [0x16F]); (0x170, [0x171]);
    (0x172, [0x173]); (0x174, [0x175]); (0x176, [0x177]); (0x178, [0xFF]);
    (0x179, [0x17A]); (0x17B, [0x17C]); (0x17D, [0x17E])
  ]%N.

Definition decomposition_table : list (char * str) :=
  [
    (0xC0, [0x41; 0x300]); (0xC1, [0x41; 0x301]); (0xC2, [0x41; 0x302]);
    (0xC3, [0x41; 0x303]); (0xC4, [0x41; 0x308]); (0xC5, [0x41; 0x30A]);
    (0xC7, [0x43; 0x327]); (0xC8, [0x45; 0x300]); (0xC9, [0x45; 0x301]);
    (0xCA, [0x45; 0x302]); (0xCB, [0x45; 0x308]); (0xCC, [0x49; 0x300]);
    (0xCD, [0x49; 0x301]); (0xCE, [0x49; 0x302]); (0xCF, [0x49; 0x308]);
    (0xD1, [0x4E; 0x303]); (0xD2, [0x4F; 0x300]); (0xD3, [0x4F; 0x301]);
    (0xD4, [0x4F; 0x302]); (0xD5, [0x4F; 0x303]); (0xD6, [0x4F; 0x308]);
    (0xD9, [0x55; 0x300]); (0xDA, [0x55; 0x301]); (0xDB, [0x55; 0x302]);
    (0xDC, [0x55; 0x308]); (0xDD, [0x59; 0x301]); (0xE0, [0x61; 0x300]);
    (0xE1, [0x61; 0x301]); (0xE2, [0x61; 0x302]); (0xE3, [0x61; 0x303]);
    (0xE4, [0x61; 0x308]); (0xE5, [0x61; 0x30A]); (0xE7, [0x63; 0x327]);
    (0xE8, [0x65; 0x300]); (0xE9, [0x65; 0x301]); (0xEA, [0x65; 0x302]);
    (0xEB, [0x65; 0x308]); (0xEC, [0x69; 0x300]); (0xED, [0x69; 0x301]);
    (0xEE, [0x69; 0x302]); (0xEF, [0x69; 0x308]); (0xF1, [0x6E; 0x303]);
    (0xF2, [0x6F; 0x300]); (0xF3, [0x6F; 0x301]); (0xF4, [0x6F; 0x302]);
    (0xF5, [0x6F; 0x303]); (0xF6, [0x6F; 0x308]); (0xF9, [0x75; 0x300]);
    (0xFA, [0x75; 0x301]); (0xFB, [0x75; 0x302]); (0xFC, [0x75; 0x308]);
    (0xFD, [0x79; 0x301]); (0xFF, [0x79; 0x308]); (0x100, [0x41; 0x304]);
    (0x101, [0x61; 0x304]); (0x102, [0x41; 0x306]); (0x103, [0x61; 0x306]);
    (0x104, [0x41; 0x328]); (0x105, [0x61; 0x328]); (0x106, [0x43; 0x301]);
    (0x107, [0x63; 0x301]); (0x108, [0x43; 0x302]); (0x109, [0x63; 0x302]);
    (0x10A, [0x43; 0x307]); (0x10B, [0x63; 0x307]); (0x10C, [0x43; 0x30C]);
    (0x10D, [0x63; 0x30C]); (0x10E, [0x44; 0x30C]); (0x10F, [0x64; 0x30C]);
    (0x112, [0x45; 0x304]); (0x113, [0x65; 0x304]); (0x114, [0x45; 0x306]);
    (0x115, [0x65; 0x306]); (0x116, [0x45; 0x307]); (0x117, [0x65; 0x307]);
    (0x118, [0x45; 0x328]); (0x119, [0x65; 0x328]); (0x11A, [0x45; 0x30C]);
    (0x11B, [0x65; 0x30C]); (0x11C, [0x47; 0x302]); (0x11D, [0x67; 0x302]);
    (0x11E, [0x47; 0x306]); (0x11F, [0x67; 0x306]); (0x120, [0x47; 0x307]);
    (0x121, [0x67; 0x307]); (0x122, [0x47; 0x327]); (0x123, [0x67; 0x327]);
    (0x124, [0x48; 0x302]); (0x125, [0x68; 0x302]); (0x128, [0x49; 0x303]);
    (0x129, [0x69; 0x303]); (0x12A, [0x49; 0x304]); (0x12B, [0x69; 0x304]);
    (0x12C, [0x49; 0x306]); (0x12D, [0x69; 0x306]); (0x12E, [0x49; 0x328]);
    (0x12F, [0x69; 0x328]); (0x130, [0x49; 0x307]); (0x134, [0x4A; 0x302]);
    (0x135, [0x6A; 0x302]); (0x136, [0x4B; 0x327]); (0x137, [0x6B; 0x327]);
    (0x139, [0x4C; 0x301]); (0x13A, [0x6C; 0x301]); (0x13B, [0x4C; 0x327]);
    (0x13C, [0x6C; 0x327]); (0x13D, [0x4C; 0x30C]); (0x13E, [0x6C; 0x30C]);
    (0x143, [0x4E; 0x301]); (0x144, [0x6E; 0x301]); (0x145, [0x4E; 0x327]);
    (0x146, [0x6E; 0x327]); (0x147, [0x4E; 0x30C]); (0x148, [0x6E; 0x30C]);
    (0x14C, [0x4F; 0x304]); (0x14D, [0x6F; 0x304]); (0x14E, [0x4F; 0x306]);
    (0x14F, [0x6F; 0x306]); (0x150, [0x4F; 0x30B]); (0x151, [0x6F; 0x30B]);
    (0x154, [0x52; 0x301]); (0x155, [0x72; 0x301]); (0x156, [0x52; 0x327]);
    (0x157, [0x72; 0x327]); (0x158, [0x52; 0x30C]); (0x159, [0x72; 0x30C]);
    (0x15A, [0x53; 0x301]); (0x15B, [0x73; 0x301]); (0x15C, [0x53; 0x302]);
    (0x15D, [0x73; 0x302]); (0x15E, [0x53; 0x327]); (0x15F, [0x73; 0x327]);
    (0x160, [0x53; 0x30C]); (0x161, [0x73; 0x30C]); (0x162, [0x54; 0x327]);
    (0x163, [0x74; 0x327]); (0x164, [0x54; 0x30C]); (0x165, [0x74; 0x30C]);
    (0x168, [0x55; 0x303]); (0x169, [0x75; 0x303]); (0x16A, [0x55; 0x304]);
    (0x16B, [0x75; 0x304]); (0x16C, [0x55; 0x306]); (0x16D, [0x75; 0x306]);
    (0x16E, [0x55; 0x30A]); (0x16F, [0x75; 0x30A]); (0x170, [0x55; 0x30B]);
    (0x171, [0x75; 0x30B]); (0x172, [0x55; 0x328]); (0x173, [0x75; 0x328]);
    (0x174, [0x57; 0x302]); (0x175, [0x77; 0x302]); (0x176, [0x59; 0x302]);
    (0x177, [0x79; 0x302]); (0x178, [0x59; 0x308]); (0x179, [0x5A; 0x301]);
    (0x17A, [0x7A; 0x301]); (0x17B, [0x5A; 0x307]); (0x17C, [0x7A; 0x307]);
    (0x17D, [0x5A; 0x30C]); (0x17E, [0x7A; 0x30C]); (0x340, [0x300]); (0x341, [0x301]);
    (0x343, [0x313]); (0x344, [0x308; 0x301])
  ]%N.

Definition combining_table : list (char * char * N) :=
  [
    (0x300, 0x314, 230); (0x315, 0x315, 232); (0x316, 0x319, 220); (0x31A, 0x31A, 232);
    (0x31B, 0x31B, 216); (0x31C, 0x320, 220); (0x321, 0x322, 202); (0x323, 0x326, 220);
    (0x327, 0x328, 202); (0x329, 0x333, 220); (0x334, 0x338, 1); (0x339, 0x33C, 220);
    (0x33D, 0x344, 230); (0x345, 0x345, 240); (0x346, 0x346, 230); (0x347, 0x349, 220);
    (0x34A, 0x34C, 230); (0x34D, 0x34E, 220); (0x350, 0x352, 230); (0x353, 0x356, 220);
    (0x357, 0x357, 230); (0x358, 0x358, 232); (0x359, 0x35A, 220); (0x35B, 0x35B, 230);
    (0x35C, 0x35C, 233); (0x35D, 0x35E, 234); (0x35F, 0x35F, 233); (0x360, 0x361, 234);
    (0x362, 0x362, 233); (0x363, 0x36F, 230)
  ]%N.

Definition word_table : list (char * char) :=
  [
    (0x30, 0x39); (0x41, 0x5A); (0x5F, 0x5F); (0x61, 0x7A); (0xAA, 0xAA); (0xB2, 0xB3);
    (0xB5, 0xB5); (0xB9, 0xBA); (0xBC, 0xBE); (0xC0, 0xD6); (0xD8, 0xF6); (0xF8, 0x17F)
  ]%N.

Definition space_table : list (char * char) :=
  [
    (0x9, 0xD); (0x1C, 0x20); (0x85, 0x85); (0xA0, 0xA0); (0x1680, 0x1680);
    (0x2000, 0x200A); (0x2028, 0x2029); (0x202F, 0x202F); (0x205F, 0x205F); (0x3000, 0x3000)
  ]%N.

Definition isspace (c : char) : bool := existsb (in_range c) space_table.

(** [str.lower()], character by character. *)
Definition lower_char (c : char) : str := assoc c lower_table [c].
Definition lower (s : str) : str := flat_map lower_char s.

(** [unicodedata.combining(c)]: the canonical combining class. *)
Fixpoint combining_in (c : char) (tbl : list (char * char * N)) : N :=
  match tbl with
  | [] => 0%N
  | (lo, hi, k) :: tbl' => if in_range c (lo, hi) then k else combining_in c tbl'
  end.
Definition combining (c : char) : N := combining_in c combining_table.

(** Full canonical decomposition of one character. *)
Definition decomposition (c : char) : str := assoc c decomposition_table [c].

(** Canonical ordering: a mark moves left past every neighbouring mark of
    strictly greater class, which sorts each run of marks stably by class. *)
Fixpoint insert_mark (c : char) (l : str) : str :=
  match l with
  | d :: l' =>
      if (0 <? combining d)%N && (combining d <? combining c)%N
      then d :: insert_mark c l'
      else c :: l
  | [] => [c]
  end.

Definition canonical_order (s : str) : str := fold_right insert_mark [] s.

(** [unicodedata.normalize('NFD', s)]. *)
Definition normalize_NFD (s : str) : str := canonical_order (flat_map decomposition s).

(** [\w] of the [re] module on [str] patterns. *)
Definition isword (c : char) : bool := existsb (in_range c) word_table.

(** *** String methods *)

Fixpoint lstrip (s : str) : str :=
  match s with
  | c :: s' => if isspace c then lstrip s' else s
  | [] => []
  end.

Fixpoint rstrip (s : str) : str :=
  match s with
  | [] => []
  | c :: s' =>
      match rstrip s' with
      | [] => if isspace c then [] else [c]
      | r => c :: r
      end
  end.

(** [s.strip()] *)
Definition strip (s : str) : str := rstrip (lstrip s).

Fixpoint startswith (s prefix : str) : bool :=
  match prefix, s with
  | [], _ => true
  | p :: prefix', c :: s' => (p =? c)%N && startswith s' prefix'
  | _ :: _, [] => false
  end.

(** [s.endswith(suffix)] *)
Definition endswith (s suffix : str) : bool := startswith (rev s) (rev suffix).

(** [sub in s] *)
Fixpoint contains (s sub : str) : bool :=
  startswith s sub ||
  match s with
  | [] => false
  | _ :: s' => contains s' sub
  end.

(** [s.replace(old, new)] for a non-empty [old]: occurrences are replaced from
    left to right without overlap; [skip] counts the characters of the
    occurrence just replaced that are still to be dropped. *)
Fixpoint replace_from (old new s : str) (skip : nat) : str :=
  match s with
  | [] => []
  | c :: s' =>
      match skip with
      | S k => replace_from old new s' k
      | O =>
          if startswith s old
          then new ++ replace_from old new s' (length old - 1)
          else c :: replace_from old new s' 0
      end
  end.

Definition replace (s old new : str) : str :=
  match old with
  | [] => new ++ flat_map (fun c => c :: new) s
  | _ => replace_from old new s 0
  end.

(** [s.split()]: the maximal runs of non-white-space characters. [cur] is the
    run being read, reversed. *)
Fixpoint split_from (s cur : str) : list str :=
  match s with
  | [] => match cur with [] => [] | _ => [rev cur] end
  | c :: s' =>
      if isspace c
      then match cur with [] => split_from s' [] | _ => rev cur :: split_from s' [] end
      else split_from s' (c :: cur)
  end.

Definition split (s : str) : list str := split_from s [].

(** [s.split(sep)] for a one-character separator: empty pieces are kept. *)
Fixpoint split_on_from (sep : char) (s cur : str) : list str :=
  match s with
  | [] => [rev cur]
  | c :: s' =>
      if (c =? sep)%N then rev cur :: split_on_from sep s' []
      else split_on_from sep s' (c :: cur)
  end.

Definition split_on (sep : char) (s : str) : list str := split_on_from sep s [].

(** [sep.join(parts)] *)
Fixpoint join (sep : str) (parts : list str) : str :=
  match parts with
  | [] => []
  | [p] => p
  | p :: parts' => p ++ sep ++ join sep parts'
  end.

End Py.


(** ** The name normaliser *)

(** [normalize_spanish_name]: decompose, drop the combining marks, lower-case,
    trim. *)
Definition normalize_spanish_name (name : Py.str) : Py.str :=
  let normalized := Py.normalize_NFD name in
  let ascii_name := filter (fun c => (Py.combining c =? 0)%N) normalized in
  Py.strip (Py.lower ascii_name).

(** ** Python dictionaries

    A [dict] keeps its keys in insertion order; assigning to a key that is
    already present replaces the value in place. *)

Module Dict.

Section WithKey.
Variables (K V : Type) (key_eqb : K -> K -> bool).

Definition dict := list (K * V).

Fixpoint get (d : dict) (k : K) : option V :=
  match d with
  | [] => None
  | (k', v) :: d' => if key_eqb k' k then Some v else get d' k
  end.

Definition mem (d : dict) (k : K) : bool :=
  match get d k with Some _ => true | None => false end.

(** [d[k] = v] *)
Fixpoint set (d : dict) (k : K) (v : V) : dict :=
  match d with
  | [] => [(k, v)]
  | (k', v') :: d' => if key_eqb k' k then (k', v) :: d' else (k', v') :: set d' k v
  end.

Definition keys (d : dict) : list K := map fst d.
Definition values (d : dict) : list V := map snd d.

End WithKey.

End Dict.

(** ** The slug of a free-text question *)

Definition emojis : list Py.str :=
  [ [0xF0; 0x178; 0x2018; 0xA4];
    [0xE2; 0x153; 0x2030; 0xEF; 0xB8];
    [0xF0; 0x178; 0x201C; 0xB2];
    [0xF0; 0x178; 0x17D; 0x201C];
    [0xF0; 0x178; 0x2018; 0x2039];
    [0xF0; 0x178; 0xA4; 0x201D];
    [0xF0; 0x178; 0x2018; 0xA9; 0xE2; 0x20AC; 0xF0; 0x178; 0x2019; 0xBB];
    [0xF0; 0x178; 0x2019; 0xAC];
    [0xF0; 0x178; 0x201C];
    [0xF0; 0x178; 0xA4; 0x2013];
    [0xF0; 0x178; 0x2122; 0x152] ]%N.

(** The truncation loop: words are taken while the running length stays
    within 25; the first word that does not fit ends the loop. *)
Fixpoint shorten (words : list Py.str) (total_length : nat) : list Py.str :=
  match words with
  | [] => []
  | word :: words' =>
      if total_length + length word <=? 25
      then word :: shorten words' (total_length + length word + 1)
      else []
  end.

(** [re.sub(r'[^\w\s]', '', question)] *)
Definition remove_special (question : Py.str) : Py.str :=
  filter (fun c => Py.isword c || Py.isspace c) question.

(** [re.sub(r'\s+', '_', question)]; [in_run] tells that the previous
    character was white space. *)
Fixpoint underscore_spaces (question : Py.str) (in_run : bool) : Py.str :=
  match question with
  | [] => []
  | c :: question' =>
      if Py.isspace c
      then if in_run then underscore_spaces question' true
           else 0x5F%N :: underscore_spaces question' true
      else c :: underscore_spaces question' false
  end.

Definition simplify_question (question : Py.str) : Py.str :=
  let question := fold_left (fun q emoji => Py.replace q emoji []) emojis question in
  let question := Py.strip question in
  let question :=
    if 30 <? length question then
      let words := Py.split question in
      let shortened := shorten words 0 in
      let question := Py.join (Py.lit " ") shortened in
      if length shortened <? length words then question ++ Py.lit "..." else question
    else question in
  let question := remove_special question in
  let question := underscore_spaces question false in
  Py.lower question.

(** ** Extraction of the records of one CSV file *)

(** The five contact categories, in the order of [contact_patterns]. *)
Inductive field := Nombre | Correo | Telegram | Carrera | Generacion.

Definition field_eqb (a b : field) : bool :=
  match a, b with
  | Nombre, Nombre | Correo, Correo | Telegram, Telegram
  | Carrera, Carrera | Generacion, Generacion => true
  | _, _ => false
  end.

(** What [csv.DictReader] hands over: the header and one dict per data row,
    from column name to cell ([None] for a cell the row is too short for). *)
Record csv_table := {
  fieldnames : list Py.str;
  rows : list (Dict.dict Py.str (option Py.str))
}.

(** One extracted row.  [contact] holds the keys "nombre", "correo", ... that
    the file has a column for; "form", "essay_responses" and "source" are set
    on every record, so the defaults of the later [.get] calls on them are
    never used. *)
Record raw_record := {
  contact : Dict.dict field Py.str;
  person_nombre_normalized : option Py.str;
  form : Py.str;
  essay_responses : Dict.dict Py.str Py.str;
  source : Py.str
}.

(** [person.get(field, "")] *)
Definition get_contact (p : raw_record) (f : field) : Py.str :=
  match Dict.get field_eqb (contact p) f with Some v => v | None => [] end.

(** Truth value of a string. *)
Definition nonempty (s : Py.str) : bool :=
  match s with [] => false | _ => true end.

Definition contact_patterns : list (field * list Py.str) :=
  [ (Nombre, [Py.lit "Nombre"; [0xF0; 0x178; 0x2018; 0xA4]%N;
              Py.lit "Nombre Completo"; Py.lit "Nombre completo"]);
    (Correo, [Py.lit "Correo"; [0xE2; 0x153; 0x2030; 0xEF; 0xB8]%N; Py.lit "Correo UC";
              Py.lit "Direcci" ++ [0xC3; 0xB3]%N ++ Py.lit "n de correo electr"
                ++ [0xC3; 0xB3]%N ++ Py.lit "nico"]);
    (Telegram, [Py.lit "Telegram"; [0xF0; 0x178; 0x201C; 0xB2]%N]);
    (Carrera, [Py.lit "Carrera"; Py.lit "Grado"; [0xF0; 0x178; 0x17D; 0x201C]%N;
               Py.lit "Carrera/Grado"]);
    (Generacion, [Py.lit "Generaci" ++ [0xC3; 0xB3]%N ++ Py.lit "n"; Py.lit "Generacion";
                  [0xF0; 0x178; 0x2018; 0x2039]%N]) ].

Definition admin_patterns : list Py.str :=
  [ Py.lit "marca temporal"; Py.lit "estado"; Py.lit "prioridad";
    Py.lit "puntuaci" ++ [0xC3; 0xB3]%N ++ Py.lit "n";
    Py.lit "observaciones"; Py.lit "salvageable"; Py.lit "razones"; Py.lit "promedio";
    Py.lit "notas"; Py.lit "preferencia";
    Py.lit "direcci" ++ [0xC3; 0xB3]%N ++ Py.lit "n de correo electr"
      ++ [0xC3; 0xB3]%N ++ Py.lit "nico" ].

(** The first column, in header order, that contains one of the patterns. *)
Definition contact_mapping (fieldnames : list Py.str) : Dict.dict field Py.str :=
  flat_map
    (fun '(category, patterns) =>
       match find (fun col => existsb (fun pattern => Py.contains col pattern) patterns)
                  fieldnames with
       | Some col => [(category, col)]
       | None => []
       end)
    contact_patterns.

Definition admin_columns (fieldnames : list Py.str) : list Py.str :=
  filter (fun col => existsb (fun pattern => Py.contains (Py.lower col) pattern) admin_patterns)
         fieldnames.

(** [os.path.basename] *)
Definition basename (path : Py.str) : Py.str := last (Py.split_on 0x2F%N path) [].

(** The value stored for one contact category of one row. *)
Definition contact_value (category : field) (row : Dict.dict Py.str (option Py.str))
    (col : Py.str) : Py.str :=
  match Dict.get Py.eqb row col with
  | Some cell =>
      let value := match cell with
                   | Some s => if nonempty s then Py.strip s else []
                   | None => []
                   end in
      if field_eqb category Telegram && nonempty value then
        let no_telegram_indicators :=
          [Py.lit "no tengo"; Py.lit "no"; Py.lit "none"; Py.lit "0"; Py.lit "n/a"; Py.lit "-"] in
        if existsb (fun indicator => Py.eqb (Py.strip (Py.lower value)) indicator)
                   no_telegram_indicators
        then []
        else
          let value := Py.replace value (Py.lit " ") [] in
          if Py.startswith value (Py.lit "@") then value else Py.lit "@" ++ value
      else value
  | None => []
  end.

Definition essay_responses_of (fieldnames contact_columns admin_columns : list Py.str)
    (row : Dict.dict Py.str (option Py.str)) : Dict.dict Py.str Py.str :=
  fold_left
    (fun essay_responses col =>
       if existsb (Py.eqb col) contact_columns || existsb (Py.eqb col) admin_columns
       then essay_responses
       else
         let short_question := simplify_question col in
         match Dict.get Py.eqb row col with
         | Some (Some cell) =>
             if nonempty cell
             then Dict.set Py.eqb essay_responses short_question (Py.strip cell)
             else essay_responses
         | _ => essay_responses
         end)
    fieldnames [].

(** The body of [read_csv_file] once the file is parsed. *)
Definition extract_rows (filename : Py.str) (table : csv_table) : list raw_record :=
  let mapping := contact_mapping (fieldnames table) in
  let contact_columns := map snd mapping in
  let admin := admin_columns (fieldnames table) in
  let base_filename := basename filename in
  map (fun row =>
         {| contact := map (fun '(category, col) => (category, contact_value category row col))
                           mapping;
            person_nombre_normalized := None;
            form := base_filename;
            essay_responses := essay_responses_of (fieldnames table) contact_columns admin row;
            source := filename |})
      (rows table).

(** The CSV files on disk: [None] stands for a file whose reading raises; the
    exception is caught and the file contributes no record. *)
Definition csv_files := Py.str -> option csv_table.

Definition read_csv_file (fs : csv_files) (filename : Py.str) : list raw_record :=
  match fs filename with
  | Some table => extract_rows filename table
  | None => []
  end.

(** ** Grouping and merging *)

(** The first loop of [process_csv_files]: a record with no e-mail, no name
    and no Telegram handle is dropped; a kept record with a name gets its
    "nombre_normalized" key. *)
Fixpoint filter_people (all_people : list raw_record) : list raw_record :=
  match all_people with
  | [] => []
  | person :: all_people' =>
      let email := Py.strip (get_contact person Correo) in
      let nombre := Py.strip (get_contact person Nombre) in
      let telegram := Py.strip (get_contact person Telegram) in
      if nonempty email || nonempty nombre || nonempty telegram then
        (if nonempty nombre
         then {| contact := contact person;
                 person_nombre_normalized := Some (normalize_spanish_name nombre);
                 form := form person;
                 essay_responses := essay_responses person;
                 source := source person |}
         else person) :: filter_people all_people'
      else filter_people all_people'
  end.

(** The key under which a record is grouped. *)
Definition group_key (person : raw_record) : Py.str :=
  let email := Py.lower (Py.strip (get_contact person Correo)) in
  if nonempty email then email
  else
    let name :=
      Py.lower (Py.strip (match person_nombre_normalized person with
                          | Some n => n
                          | None => get_contact person Nombre
                          end)) in
    let telegram := Py.lower (Py.strip (get_contact person Telegram)) in
    Py.lit "no_email_" ++ name ++ Py.lit "_" ++ telegram.

(** [if key not in email_groups: email_groups[key] = []] followed by
    [email_groups[key].append(person)]. *)
Definition group_append (email_groups : Dict.dict Py.str (list raw_record)) (key : Py.str)
    (person : raw_record) : Dict.dict Py.str (list raw_record) :=
  match Dict.get Py.eqb email_groups key with
  | Some group => Dict.set Py.eqb email_groups key (group ++ [person])
  | None => Dict.set Py.eqb email_groups key [person]
  end.

Definition group_people (filtered_people : list raw_record) : Dict.dict Py.str (list raw_record) :=
  fold_left (fun email_groups person => group_append email_groups (group_key person) person)
            filtered_people [].

(** One submission: a dict that starts as [{"form": ...}]. *)
Definition postulacion := Dict.dict Py.str Py.str.

(** One session table entry of a person (built by [parse_markdown_table]). *)
Inductive number := Int (n : Z) | Float (x : float).

Record stats := {
  total_sessions : nat;
  attended : nat;
  justified : nat;
  attendance_rate : number
}.

Record attendance_record := {
  course : Py.str;
  sessions : Dict.dict Py.str Py.str;
  attendance_stats : stats
}.

(** The merged record of one group.  "attendance" is absent until an
    attendance table is attached. *)
Record merged := {
  nombre : Py.str;
  nombre_normalized : Py.str;
  correo : Py.str;
  telegram : Py.str;
  carrera : Py.str;
  generacion : Py.str;
  postulaciones : list postulacion;
  sources : list Py.str;
  attendance : option (list attendance_record)
}.

Definition get_field (m : merged) (f : field) : Py.str :=
  match f with
  | Nombre => nombre m
  | Correo => correo m
  | Telegram => telegram m
  | Carrera => carrera m
  | Generacion => generacion m
  end.

Definition set_field (m : merged) (f : field) (v : Py.str) : merged :=
  {| nombre := match f with Nombre => v | _ => nombre m end;
     nombre_normalized := nombre_normalized m;
     correo := match f with Correo => v | _ => correo m end;
     telegram := match f with Telegram => v | _ => telegram m end;
     carrera := match f with Carrera => v | _ => carrera m end;
     generacion := match f with Generacion => v | _ => generacion m end;
     postulaciones := postulaciones m;
     sources := sources m;
     attendance := attendance m |}.

(** The value a record offers for a field during the merge: the stored value,
    with the Telegram rules applied once more. *)
Definition offered_value (f : field) (person : raw_record) : Py.str :=
  let new_value := get_contact person f in
  if field_eqb f Telegram && nonempty new_value then
    let no_telegram_indicators :=
      [Py.lit "no tengo"; Py.lit "no"; Py.lit "none"; Py.lit "0"; Py.lit "n/a"; Py.lit "-"] in
    if existsb (fun indicator => Py.eqb (Py.strip (Py.lower new_value)) indicator)
               no_telegram_indicators
    then []
    else
      let new_value := Py.replace new_value (Py.lit " ") [] in
      if Py.startswith new_value (Py.lit "@") then new_value else Py.lit "@" ++ new_value
  else new_value.

(** The body of the loop over the fields for one record. *)
Definition merge_field (person : raw_record) (m : merged) (f : field) : merged :=
  let current := get_field m f in
  let new_value := offered_value f person in
  if negb (nonempty current) && nonempty new_value then set_field m f new_value
  else if nonempty current && nonempty new_value && (length current <? length new_value)
  then set_field m f new_value
  else m.

Definition merge_contact (m : merged) (person : raw_record) : merged :=
  fold_left (merge_field person) [Nombre; Correo; Telegram; Carrera; Generacion] m.

Definition postulacion_of (person : raw_record) : postulacion :=
  fold_left (fun postulacion '(question, answer) => Dict.set Py.eqb postulacion question answer)
            (essay_responses person)
            [(Py.lit "form", basename (source person))].

Definition add_postulacion (m : merged) (person : raw_record) : merged :=
  let postulacion := postulacion_of person in
  {| nombre := nombre m;
     nombre_normalized := nombre_normalized m;
     correo := correo m;
     telegram := telegram m;
     carrera := carrera m;
     generacion := generacion m;
     postulaciones := if 1 <? length postulacion
                      then postulaciones m ++ [postulacion]
                      else postulaciones m;
     sources := sources m ++ [source person];
     attendance := attendance m |}.

(** [list(set(sources))]: the distinct sources.  Python fixes no order for
    them; the model lists them by first occurrence, and no statement below
    depends on the order. *)
Definition distinct (l : list Py.str) : list Py.str := rev (nodup Py.str_eq_dec (rev l)).

(** The merge of one group; [group[0]] raises on an empty group. *)
Definition merge_group (group : list raw_record) : option merged :=
  match group with
  | [] => None
  | first :: _ =>
      let m :=
        {| nombre := get_contact first Nombre;
           nombre_normalized :=
             match person_nombre_normalized first with
             | Some n => n
             | None => normalize_spanish_name (get_contact first Nombre)
             end;
           correo := get_contact first Correo;
           telegram := get_contact first Telegram;
           carrera := get_contact first Carrera;
           generacion := get_contact first Generacion;
           postulaciones := [];
           sources := [];
           attendance := None |} in
      let m := fold_left merge_contact group m in
      let m := fold_left add_postulacion group m in
      Some {| nombre := nombre m;
              nombre_normalized := nombre_normalized m;
              correo := correo m;
              telegram := telegram m;
              carrera := carrera m;
              generacion := generacion m;
              postulaciones := postulaciones m;
              sources := distinct (sources m);
              attendance := attendance m |}
  end.

(** [traverse]: the first failure aborts the loop. *)
Fixpoint merge_groups (groups : list (list raw_record)) : option (list merged) :=
  match groups with
  | [] => Some []
  | group :: groups' =>
      match merge_group group with
      | Some m =>
          match merge_groups groups' with
          | Some result => Some (m :: result)
          | None => None
          end
      | None => None
      end
  end.

Definition identity_groups (fs : csv_files) (filenames : list Py.str)
    : Dict.dict Py.str (list raw_record) :=
  let all_people := flat_map (read_csv_file fs) filenames in
  group_people (filter_people all_people).

Definition process_csv_files (fs : csv_files) (filenames : list Py.str)
    : option (list merged) :=
  merge_groups (Dict.values (identity_groups fs filenames)).

(** ** Attendance tables *)

(** [[cell.strip() for cell in line.split('|') if cell.strip()]] *)
Definition table_cells (line : Py.str) : list Py.str :=
  filter nonempty (map Py.strip (Py.split_on 0x7C%N line)).

(** The index of the first line with a '|', or 0 when there is none; [i] is
    the index of the head of [lines]. *)
Fixpoint table_start_from (lines : list Py.str) (i : nat) : nat :=
  match lines with
  | [] => 0
  | line :: lines' =>
      if Py.contains line (Py.lit "|") then i else table_start_from lines' (S i)
  end.

(** The loop over [j] from 1: the cell at position [j] is recorded under the
    header name at position [j]. *)
Fixpoint record_cells (header cells : list Py.str) (j : nat)
    (session : Dict.dict Py.str Py.str) : Dict.dict Py.str Py.str :=
  match cells with
  | [] => session
  | attendance :: cells' =>
      let session :=
        match nth_error header j with
        | Some person_name =>
            if nonempty attendance
            then Dict.set Py.eqb session person_name attendance
            else session
        | None => session
        end in
      record_cells header cells' (S j) session
  end.

(** The loop over the lines from index 2 on. *)
Definition parse_sessions (header : list Py.str) (session_lines : list Py.str)
    : Dict.dict Py.str (Dict.dict Py.str Py.str) :=
  fold_left
    (fun sessions raw_line =>
       let line := Py.strip raw_line in
       if negb (nonempty line) || negb (Py.contains line (Py.lit "|")) then sessions
       else
         match table_cells line with
         | [] => sessions
         | session_name :: cells' =>
             Dict.set Py.eqb sessions session_name (record_cells header cells' 1 [])
         end)
    session_lines [].

(** Python floats are IEEE 754 binary64 numbers, as Rocq's primitive floats. *)
Definition float_of_Z (z : Z) : float :=
  if (z <? 0)%Z then PrimFloat.opp (PrimFloat.of_uint63 (Uint63.of_Z (- z)))
  else PrimFloat.of_uint63 (Uint63.of_Z z).

(** [a / b] on two non-negative [int]s below 2^53. *)
Definition truediv (a b : nat) : float :=
  PrimFloat.div (float_of_Z (Z.of_nat a)) (float_of_Z (Z.of_nat b)).

(** The integer nearest to [p / 2^k], ties to even. *)
Definition round_half_even (p : Z) (k : Z) : Z :=
  let q := (2 ^ k)%Z in
  let d := (p / q)%Z in
  let r := (p mod q)%Z in
  if (2 * r <? q)%Z then d
  else if (q <? 2 * r)%Z then (d + 1)%Z
  else if Z.even d then d else (d + 1)%Z.

(** [round(x, 2)]: the exact value of [x] is rounded to hundredths, ties to
    even, and the float nearest to that decimal is returned.  An integral [x],
    an infinity and a NaN are returned as they are. *)
Definition round2 (x : float) : float :=
  match Prim2SF x with
  | S754_finite s m e =>
      if (0 <=? e)%Z then x
      else
        let h := round_half_even (Zpos m * 100) (- e) in
        PrimFloat.div (float_of_Z (if s then (- h)%Z else h)) (float_of_Z 100)
  | _ => x
  end.

Definition compute_stats (sessions : Dict.dict Py.str (Dict.dict Py.str Py.str))
    (person_sessions : Dict.dict Py.str Py.str) : stats :=
  let total_sessions := length sessions in
  let attended :=
    length (filter (fun s => Py.eqb s (Py.lit "A") || Py.eqb s (Py.lit "X"))
                   (Dict.values person_sessions)) in
  let justified :=
    length (filter (fun s => Py.eqb s (Py.lit "J")) (Dict.values person_sessions)) in
  {| total_sessions := total_sessions;
     attended := attended;
     justified := justified;
     attendance_rate :=
       match total_sessions with
       | O => Int 0
       | _ => Float (round2 (PrimFloat.mul (truediv attended total_sessions) (float_of_Z 100)))
       end |}.

(** The sessions of one person: those whose row recorded a status for the name. *)
Definition sessions_of (sessions : Dict.dict Py.str (Dict.dict Py.str Py.str))
    (person_name : Py.str) : Dict.dict Py.str Py.str :=
  fold_left
    (fun person_sessions '(session_name, session_data) =>
       match Dict.get Py.eqb session_data person_name with
       | Some status => Dict.set Py.eqb person_sessions session_name status
       | None => person_sessions
       end)
    sessions [].

Definition restructure (course_name : Py.str) (header : list Py.str)
    (sessions : Dict.dict Py.str (Dict.dict Py.str Py.str))
    : Dict.dict Py.str attendance_record :=
  fold_left
    (fun attendance_by_person person_name =>
       let person_sessions := sessions_of sessions person_name in
       Dict.set Py.eqb attendance_by_person person_name
         {| course := course_name;
            sessions := person_sessions;
            attendance_stats := compute_stats sessions person_sessions |})
    (tl header) [].

(** [parse_markdown_table], on the lines read from the file; [lines[0]]
    raises when the file is empty. *)
Definition parse_markdown_table (file_path : Py.str) (lines : list Py.str)
    : option (Dict.dict Py.str attendance_record) :=
  let lines := skipn (table_start_from lines 0) lines in
  match lines with
  | [] => None
  | first_line :: _ =>
      let header := table_cells first_line in
      let sessions := parse_sessions header (skipn 2 lines) in
      let course_name := Py.replace (basename file_path) (Py.lit ".md") [] in
      Some (restructure course_name header sessions)
  end.

(** ** Matching an attendance name with the registry *)

(** [set(words)]: the distinct words; only sizes and membership are used. *)
Definition to_set (words : list Py.str) : list Py.str := nodup Py.str_eq_dec words.

Definition common_words : list Py.str :=
  [ Py.lit "de"; Py.lit "del"; Py.lit "la"; Py.lit "las"; Py.lit "los"; Py.lit "y";
    Py.lit "e"; Py.lit "don"; Py.lit "do" ++ [0xC3; 0xB1]%N ++ Py.lit "a"; Py.lit "dr";
    Py.lit "dra" ].

(** The word set of a normalised name: the stop words are dropped unless
    nothing else is left. *)
Definition significant_words (normalized : Py.str) : list Py.str :=
  let words := to_set (Py.split normalized) in
  let filtered_words := filter (fun word => negb (existsb (Py.eqb word) common_words)) words in
  match filtered_words with
  | [] => words
  | _ => filtered_words
  end.

Definition intersection (a b : list Py.str) : list Py.str :=
  filter (fun w => existsb (Py.eqb w) b) a.

Definition union (a b : list Py.str) : list Py.str := to_set (a ++ b).

(** The score is a Python float, the correctly rounded quotient of two word
    counts.  Rounding is monotone, 0 and 0.5 are floats, and two different
    quotients of naturals below 2^26 round to different floats, so every
    comparison the function makes has the outcome of the comparison of the
    exact quotients, which the model uses. *)
Definition jaccard (a b : list Py.str) : Q :=
  (Z.of_nat (length (intersection a b)) # Pos.of_nat (length (union a b)))%Q.

Definition exact_match (name person_name : Py.str) : bool :=
  Py.eqb (Py.strip (Py.lower name)) (Py.strip (Py.lower person_name))
  || Py.eqb (normalize_spanish_name name) (normalize_spanish_name person_name).

(** The loop over the registry and the threshold test after it. *)
Fixpoint match_from (name : Py.str) (name_words : list Py.str) (people_data : list merged)
    (idx : nat) (best_match : option nat) (best_match_score : Q) : option nat :=
  match people_data with
  | [] =>
      if Qle_bool (1 # 2)%Q best_match_score
         || (negb (Qle_bool best_match_score 0%Q) && (length name_words <=? 2))
      then best_match
      else None
  | person :: people_data' =>
      let person_words := significant_words (normalize_spanish_name (nombre person)) in
      if exact_match name (nombre person) then Some idx
      else
        let intersection := length (intersection name_words person_words) in
        let union := length (union name_words person_words) in
        if (0 <? union) && (0 <? intersection)
           && negb (Qle_bool (jaccard name_words person_words) best_match_score)
        then match_from name name_words people_data' (S idx) (Some idx)
                        (jaccard name_words person_words)
        else match_from name name_words people_data' (S idx) best_match best_match_score
  end.

Definition match_person_name (name : Py.str) (people_data : list merged) : option nat :=
  match_from name (significant_words (normalize_spanish_name name)) people_data 0 None 0%Q.

(** ** Attaching the attendance tables *)

(** [people_data[idx] = f(people_data[idx])] *)
Fixpoint update_at (people_data : list merged) (idx : nat) (f : merged -> merged)
    : list merged :=
  match people_data, idx with
  | [], _ => []
  | person :: people_data', O => f person :: people_data'
  | person :: people_data', S idx' => person :: update_at people_data' idx' f
  end.

Definition append_attendance (a : attendance_record) (m : merged) : merged :=
  {| nombre := nombre m;
     nombre_normalized := nombre_normalized m;
     correo := correo m;
     telegram := telegram m;
     carrera := carrera m;
     generacion := generacion m;
     postulaciones := postulaciones m;
     sources := sources m;
     attendance := Some (match attendance m with Some l => l | None => [] end ++ [a]) |}.

Definition add_source (file_path : Py.str) (m : merged) : merged :=
  {| nombre := nombre m;
     nombre_normalized := nombre_normalized m;
     correo := correo m;
     telegram := telegram m;
     carrera := carrera m;
     generacion := generacion m;
     postulaciones := postulaciones m;
     sources := if existsb (Py.eqb file_path) (sources m) then sources m
                else sources m ++ [file_path];
     attendance := attendance m |}.

(** An attendance record has no "source" key, so the branch that would copy
    it to the person's sources is never taken. *)
Definition update_json_with_attendance (people_data : list merged)
    (attendance_data : Dict.dict Py.str attendance_record) : list merged :=
  fold_left
    (fun people_data '(name, attendance) =>
       match match_person_name name people_data with
       | Some person_idx => update_at people_data person_idx (append_attendance attendance)
       | None => people_data
       end)
    attendance_data people_data.

(** What the attendance step sees of the disk. [None] stands for a call that
    raises. *)
Record attendance_fs := {
  path_exists : Py.str -> bool;
  listdir : Py.str -> option (list Py.str);
  readlines : Py.str -> option (list Py.str)
}.

(** [os.path.join(a, b)] *)
Definition path_join (a b : Py.str) : Py.str :=
  if Py.startswith b (Py.lit "/") then b
  else if negb (nonempty a) || Py.endswith a (Py.lit "/") then a ++ b
  else a ++ Py.lit "/" ++ b.

Definition add_file_sources (file_path : Py.str) (people_data : list merged)
    (attendance_data : Dict.dict Py.str attendance_record) : list merged :=
  fold_left
    (fun people_data '(name, _) =>
       match match_person_name name people_data with
       | Some person_idx => update_at people_data person_idx (add_source file_path)
       | None => people_data
       end)
    attendance_data people_data.

Fixpoint process_files (fs : attendance_fs) (attendance_dir : Py.str)
    (filenames : list Py.str) (people_data : list merged) : option (list merged) :=
  match filenames with
  | [] => Some people_data
  | filename :: filenames' =>
      if Py.endswith filename (Py.lit ".md") then
        let file_path := path_join attendance_dir filename in
        match readlines fs file_path with
        | None => None
        | Some lines =>
            match parse_markdown_table file_path lines with
            | None => None
            | Some attendance_data =>
                let people_data := update_json_with_attendance people_data attendance_data in
                let people_data := add_file_sources file_path people_data attendance_data in
                process_files fs attendance_dir filenames' people_data
            end
        end
      else process_files fs attendance_dir filenames' people_data
  end.

Definition process_attendance_files (fs : attendance_fs) (people_data : list merged)
    (attendance_dir : Py.str) : option (list merged) :=
  if negb (path_exists fs attendance_dir) then Some people_data
  else
    match listdir fs attendance_dir with
    | None => None
    | Some filenames => process_files fs attendance_dir filenames people_data
    end.

(** ** The file obfuscation utility (crypt.py) *)

Module Crypt.

Definition bytes := list byte.

(** Binary files by path. Writing a file replaces its content. *)
Definition filesystem := Py.str -> option bytes.

Definition write (fs : filesystem) (path : Py.str) (content : bytes) : filesystem :=
  fun p => if Py.eqb p path then Some content else fs p.

Definition byte_of_N (n : N) : byte :=
  match Byte.of_N n with Some b => b | None => x00 end.

(** [p ^ k] on two bytes *)
Definition xor (p k : byte) : byte := byte_of_N (N.lxor (Byte.to_N p) (Byte.to_N k)).

(** [bytes(p ^ k for p, k in zip(data, keystream))] *)
Definition xor_bytes (data keystream : bytes) : bytes :=
  map (fun '(p, k) => xor p k) (combine data keystream).

Fixpoint little_endian (length : nat) (n : N) : bytes :=
  match length with
  | O => []
  | S length' => byte_of_N (n mod 256) :: little_endian length' (n / 256)
  end.

(** [n.to_bytes(length, byteorder='big')]; raises when [n] does not fit. *)
Definition to_bytes (n : N) (length : nat) : option bytes :=
  if (n <? 256 ^ N.of_nat length)%N then Some (rev (little_endian length n)) else None.

(** [int.from_bytes(b, byteorder='big')] *)
Definition from_bytes (b : bytes) : N :=
  fold_left (fun acc x => (acc * 256 + Byte.to_N x)%N) b 0%N.

Notation "'let?' x ':=' a 'in' b" :=
  (match a with Some x => b | None => None end)
  (at level 10, x name, a at level 100, b at level 200, only parsing).

Section Primitives.

(** [hashlib.sha256(data).digest()], [hashlib.pbkdf2_hmac('sha256', password,
    salt, iterations)] and the UTF-8 codec ([None] when [encode] or [decode]
    raises) are library functions. *)
Variable sha256 : bytes -> bytes.
Variable pbkdf2_hmac_sha256 : bytes -> bytes -> N -> bytes.
Variable encode : Py.str -> option bytes.
Variable decode : bytes -> option Py.str.

Definition derive_key_from_passphrase (passphrase : Py.str) : option bytes :=
  let? salt := encode (Py.lit "crmsaltissaltyyes") in
  let? password := encode passphrase in
  Some (pbkdf2_hmac_sha256 password salt 100000%N).

(** The [while] loop that extends the keystream by one digest per round.
    [fuel] bounds the number of rounds; [None] means the bound was reached
    with the keystream still too short. *)
Fixpoint extend_keystream (fuel : nat) (key : bytes) (size : nat) (keystream temp : bytes)
    : option bytes :=
  if length keystream <? size then
    match fuel with
    | O => None
    | S fuel' =>
        let temp := sha256 (key ++ temp) in
        extend_keystream fuel' key size (keystream ++ temp) temp
    end
  else Some keystream.

(** The keystream for [size] bytes of data; one round per byte is always
    enough when digests are not empty. *)
Definition make_keystream (key file_nonce : bytes) (size : nat) : option bytes :=
  let? keystream := extend_keystream size key size [] file_nonce in
  Some (firstn size keystream).

Definition file_nonce_of (original_filename : Py.str) : option bytes :=
  let? name := encode (original_filename ++ Py.lit "nonce") in
  Some (firstn 16 (sha256 name)).

Definition encrypt_file (fs : filesystem) (input_file output_file passphrase : Py.str)
    : option filesystem :=
  let? plaintext := fs input_file in
  let? key := derive_key_from_passphrase passphrase in
  let original_filename := basename input_file in
  let? file_nonce := file_nonce_of original_filename in
  let? keystream := make_keystream key file_nonce (length plaintext) in
  let encrypted := xor_bytes plaintext keystream in
  let? filename_bytes := encode original_filename in
  let? filename_length := to_bytes (N.of_nat (length filename_bytes)) 16 in
  Some (write fs output_file (filename_length ++ filename_bytes ++ encrypted)).

Definition decrypt_file (fs : filesystem) (input_file output_file passphrase : Py.str)
    : option filesystem :=
  let? content := fs input_file in
  let filename_length_bytes := firstn 16 content in
  let filename_length := N.to_nat (from_bytes filename_length_bytes) in
  let original_filename_bytes := firstn filename_length (skipn 16 content) in
  let? original_filename := decode original_filename_bytes in
  let encrypted := skipn filename_length (skipn 16 content) in
  let? key := derive_key_from_passphrase passphrase in
  let? file_nonce := file_nonce_of original_filename in
  let? keystream := make_keystream key file_nonce (length encrypted) in
  let decrypted := xor_bytes encrypted keystream in
  Some (write fs output_file decrypted).

End Primitives.

End Crypt.

(** ** The statements of the specification *)

(** Field resolution as the specification words it: the first non-empty
    value seeds the field, a later non-empty value replaces it only when it
    is strictly longer. *)
Definition resolve_step (current value : Py.str) : Py.str :=
  match value, current with
  | [], _ => current
  | _, [] => value
  | _, _ => if length current <? length value then value else current
  end.

Definition resolve (values : list Py.str) : Py.str := fold_left resolve_step values [].

(** Handle normalisation as the specification words it. *)
Definition no_handle_tokens : list Py.str :=
  [Py.lit "no tengo"; Py.lit "no"; Py.lit "none"; Py.lit "0"; Py.lit "n/a"; Py.lit "-"].

Definition starts_with_at (value : Py.str) : bool :=
  match value with
  | c :: _ => (c =? 0x40)%N
  | [] => false
  end.

Definition normalized_handle (value : Py.str) : Py.str :=
  if existsb (Py.eqb (Py.strip (Py.lower value))) no_handle_tokens then []
  else
    let without_spaces := filter (fun c => negb (c =? 0x20)%N) value in
    if starts_with_at without_spaces then without_spaces else 0x40%N :: without_spaces.

(** The record as it leaves the filter: with its normalised name when it has
    a name. *)
Definition with_normalized_name (p : raw_record) : raw_record :=
  let nombre := Py.strip (get_contact p Nombre) in
  if nonempty nombre
  then {| contact := contact p;
          person_nombre_normalized := Some (normalize_spanish_name nombre);
          form := form p;
          essay_responses := essay_responses p;
          source := source p |}
  else p.

(** A record with something to link it by. *)
Definition linkable (p : raw_record) : bool :=
  nonempty (Py.strip (get_contact p Correo))
  || nonempty (Py.strip (get_contact p Nombre))
  || nonempty (Py.strip (get_contact p Telegram)).

(** The merged record of every group, under the key of the group. *)
Definition merged_by_key (all_people : list raw_record) : list (Py.str * option merged) :=
  map (fun '(key, group) => (key, merge_group group)) (group_people (filter_people all_people)).

(** Two states of the disk that hold the same tables up to the order of the
    rows. *)
Definition same_rows (fs1 fs2 : csv_files) : Prop :=
  forall filename,
    match fs1 filename, fs2 filename with
    | Some t1, Some t2 => fieldnames t1 = fieldnames t2 /\ Permutation (rows t1) (rows t2)
    | None, None => True
    | _, _ => False
    end.

(** The word set after dropping the stop words, with no fallback. *)
Definition filtered_words (normalized : Py.str) : list Py.str :=
  filter (fun word => negb (existsb (Py.eqb word) common_words)) (to_set (Py.split normalized)).

Definition Qmax (a b : Q) : Q := if Qle_bool a b then b else a.

(** The best Jaccard score over the candidates that share a word with the
    query, 0 when there is none; [words] gives the word set of a name. *)
Definition best_score (words : Py.str -> list Py.str) (name : Py.str)
    (people_data : list merged) : Q :=
  fold_right
    (fun person best =>
       if 0 <? length (intersection (words name) (words (nombre person)))
       then Qmax (jaccard (words name) (words (nombre person))) best
       else best)
    0%Q people_data.

(** The acceptance rule of the specification. *)
Definition accepts (words : Py.str -> list Py.str) (name : Py.str)
    (people_data : list merged) : bool :=
  existsb (fun person => exact_match name (nombre person)) people_data
  || Qle_bool (1 # 2)%Q (best_score words name people_data)
  || (negb (Qle_bool (best_score words name people_data) 0%Q)
      && (length (words name) <=? 2)).

(** ** Auxiliary notions of the proofs *)

(** A string that does not start with white space. *)
Definition left_trimmed (s : Py.str) : Prop :=
  match s with [] => True | c :: _ => Py.isspace c = false end.

Definition stable (c : Py.char) : bool :=
  (Py.combining c =? 0)%N && Py.eqb (Py.decomposition c) [c] && Py.eqb (Py.lower_char c) [c].

(** What decomposing, dropping the marks and lower-casing leaves of a character
    is made of stable characters. *)
Definition settles (c : Py.char) : bool :=
  forallb (fun d => negb (Py.combining d =? 0)%N || forallb stable (Py.lower_char d))
          (Py.decomposition c).

Definition repertoire_bound : N := 0x370.

(** Lower-casing a word character yields no full stop. *)
Definition dotless (c : Py.char) : bool :=
  negb (Py.isword c) || forallb (fun d => negb (d =? 0x2E)%N) (Py.lower_char c).

(** One line of a text file, with its line feed. *)
Definition text_line (s : string) : Py.str := Py.lit s ++ [0x0A%N].
Arguments text_line s%_string.

(** A two-person attendance table in which the first person has a blank
    cell. *)
Definition blank_cell_table : list Py.str :=
  [ text_line "| Sesion | Ana | Luis |";
    text_line "|--------|-----|------|";
    text_line "| S1     |     | A    |";
    text_line "| S2     | X   | J    |" ].

(** A one-person table of ten sessions: seven "A", one "X", two blank. *)
Definition ten_session_table : list Py.str :=
  [ text_line "| Sesion | Ana |";
    text_line "|--------|-----|";
    text_line "| S1 | A |"; text_line "| S2 | A |"; text_line "| S3 | A |";
    text_line "| S4 |   |"; text_line "| S5 | A |"; text_line "| S6 | X |";
    text_line "| S7 | A |"; text_line "| S8 |   |"; text_line "| S9 | A |";
    text_line "| S10 | A |" ].

(** What a test reads off a parsed table: per person, the recorded sessions
    and the statistics. *)
Definition summary (parsed : option (Dict.dict Py.str attendance_record))
    : option (list (Py.str * Dict.dict Py.str Py.str * stats)) :=
  option_map (map (fun '(name, r) => (name, sessions r, attendance_stats r))) parsed.

(** The records of a list that are grouped under a key. *)
Definition group_of (people : list raw_record) (key : Py.str) : list raw_record :=
  filter (fun person => Py.eqb (group_key person) key) people.

(** [groups] is the grouping of [people]: no key twice, under every key the
    records of that key in their order, and nothing but those records. *)
Definition grouped (groups : Dict.dict Py.str (list raw_record)) (people : list raw_record)
    : Prop :=
  NoDup (Dict.keys groups)
  /\ (forall key, Dict.get Py.eqb groups key
                  = match group_of people key with [] => None | group => Some group end)
  /\ Permutation (concat (Dict.values groups)) people.

(** The shape of a stored Telegram handle: empty, or "@" followed by
    characters none of which is a space. *)
Definition handle_shaped (value : Py.str) : bool :=
  match value with
  | [] => true
  | _ => starts_with_at value && forallb (fun c => negb (c =? 0x20)%N) value
  end.

(** Three records of one person, as the first file of the pipeline. *)
Definition ana_table : csv_table :=
  {| fieldnames := [Py.lit "Nombre completo"; Py.lit "Correo UC"];
     rows :=
       [ [(Py.lit "Nombre completo", Some (Py.lit "Ana"));
          (Py.lit "Correo UC", Some (Py.lit "ana@uc.cl"))];
         [(Py.lit "Nombre completo", Some (Py.lit "Ana Mar" ++ [0xED%N] ++ Py.lit "a"));
          (Py.lit "Correo UC", Some (Py.lit "Ana@uc.cl"))];
         [(Py.lit "Nombre completo", Some (Py.lit "An"));
          (Py.lit "Correo UC", Some (Py.lit "ana@uc.cl "))] ] |}.

Definition ana_files : csv_files :=
  fun filename => if Py.eqb filename (Py.lit "./sources/2023-1.csv") then Some ana_table else None.

(** A record that carries a name only. *)
Definition named (name : Py.str) : raw_record :=
  {| contact := [(Nombre, name)];
     person_nombre_normalized := Some (normalize_spanish_name name);
     form := Py.lit "2023-1.csv";
     essay_responses := [];
     source := Py.lit "./sources/2023-1.csv" |}.

(** What one record contributes to "postulaciones": its submission, unless
    it holds nothing but the "form" entry. *)
Definition submission (person : raw_record) : list postulacion :=
  if 1 <? length (postulacion_of person) then [postulacion_of person] else [].

(** The word set the matcher uses for a name, and the word set with the stop
    words dropped unconditionally. *)
Definition name_words (name : Py.str) : list Py.str :=
  significant_words (normalize_spanish_name name).

Definition stop_filtered_words (name : Py.str) : list Py.str :=
  filtered_words (normalize_spanish_name name).

(** A registry entry with a name only. *)
Definition registered (name : Py.str) : merged :=
  {| nombre := name; nombre_normalized := normalize_spanish_name name;
     correo := []; telegram := []; carrera := []; generacion := [];
     postulaciones := []; sources := []; attendance := None |}.

(** Some candidate shares a word with the query [query_words]; some such
    candidate scores at least one half. *)
Definition some_overlap (query_words : list Py.str) (people_data : list merged) : Prop :=
  exists person,
    In person people_data
    /\ 0 < length (intersection query_words (name_words (nombre person))).

Definition half_overlap (query_words : list Py.str) (people_data : list merged) : Prop :=
  exists person,
    In person people_data
    /\ 0 < length (intersection query_words (name_words (nombre person)))
    /\ (1 # 2 <= jaccard query_words (name_words (nombre person)))%Q.

(** The 256 byte values. *)
Definition byte_values : list N := map N.of_nat (seq 0 256).

(** Stand-ins for the library functions, for closed examples: a codec for
    ASCII text, and a digest that is constant. *)
Definition ascii_encode (s : Py.str) : option Crypt.bytes :=
  if forallb (fun c => (c <? 128)%N) s then Some (map Crypt.byte_of_N s) else None.

Definition ascii_decode (b : Crypt.bytes) : option Py.str := Some (map Byte.to_N b).

Definition constant_digest (data : Crypt.bytes) : Crypt.bytes := repeat x2a 32.

Definition constant_key (password salt : Crypt.bytes) (iterations : N) : Crypt.bytes :=
  repeat x17 32.

Definition notes_disk : Crypt.filesystem :=
  fun path => if Py.eqb path (Py.lit "data/notes.txt")
              then Some [x68; x6f; x6c; x61; x0a]
              else None.

(** Two survey files, and the same files with the rows of the first one in
    another order. *)
Definition survey_row (name email answer : Py.str) : Dict.dict Py.str (option Py.str) :=
  [ (Py.lit "Nombre completo", Some name);
    (Py.lit "Correo UC", Some email);
    (Py.lit "Why do you want to join?", Some answer) ].

Definition survey_header : list Py.str :=
  [Py.lit "Nombre completo"; Py.lit "Correo UC"; Py.lit "Why do you want to join?"].

Definition survey_disk (first_file second_file : list (Dict.dict Py.str (option Py.str)))
    : csv_files :=
  fun filename =>
    if Py.eqb filename (Py.lit "./sources/2023-1.csv")
    then Some {| fieldnames := survey_header; rows := first_file |}
    else if Py.eqb filename (Py.lit "./sources/2023-2.csv")
    then Some {| fieldnames := survey_header; rows := second_file |}
    else None.

Definition ana_row := survey_row (Py.lit "Ana") (Py.lit "ana@uc.cl") (Py.lit "To learn").
Definition luis_row := survey_row (Py.lit "Luis") (Py.lit "luis@uc.cl") (Py.lit "For fun").
Definition ana_again_row :=
  survey_row (Py.lit "Ana Maria") (Py.lit "ANA@uc.cl") (Py.lit "To teach").

(** Two files with one row each for the same e-mail. *)
Definition two_file_disk : csv_files := survey_disk [ana_row] [ana_again_row].

(** ** Notions of the further properties *)

(** The overlap and the score of a registry entry for a query word set. *)
Definition overlap (query_words : list Py.str) (person : merged) : nat :=
  length (intersection query_words (name_words (nombre person))).

Definition score (query_words : list Py.str) (person : merged) : Q :=
  jaccard query_words (name_words (nombre person)).

(** The entry at [idx] is the best candidate of [people_data]: it shares a
    word with the query, no entry that shares a word scores higher, and every
    earlier one that shares a word scores strictly lower. *)
Definition best_candidate (query_words : list Py.str) (people_data : list merged) (idx : nat)
    : Prop :=
  exists person,
    nth_error people_data idx = Some person
    /\ 0 < overlap query_words person
    /\ (forall j other,
           nth_error people_data j = Some other -> 0 < overlap query_words other ->
           (score query_words other <= score query_words person)%Q)
    /\ (forall j other,
           j < idx -> nth_error people_data j = Some other -> 0 < overlap query_words other ->
           (score query_words other < score query_words person)%Q).

(** The state of the matching loop after the entries [seen]. *)
Definition loop_state (query_words : list Py.str) (seen : list merged)
    (best_match : option nat) (best_match_score : Q) : Prop :=
  match best_match with
  | None =>
      best_match_score = 0%Q
      /\ forall person, In person seen -> overlap query_words person = 0
  | Some idx =>
      best_candidate query_words seen idx
      /\ exists person, nth_error seen idx = Some person
                        /\ best_match_score = score query_words person
  end.

(** The attendance records of a person ("attendance" may be absent). *)
Definition attendance_list (m : merged) : list attendance_record :=
  match attendance m with Some l => l | None => [] end.

(** [b] is [a] with sources and attendance records appended, and nothing
    else changed. *)
Definition extends (a b : merged) : Prop :=
  nombre b = nombre a /\ nombre_normalized b = nombre_normalized a
  /\ correo b = correo a /\ telegram b = telegram a
  /\ carrera b = carrera a /\ generacion b = generacion a
  /\ postulaciones b = postulaciones a
  /\ (exists added, sources b = sources a ++ added)
  /\ (exists added, attendance_list b = attendance_list a ++ added).

Definition attendance_total (people_data : list merged) : nat :=
  list_sum (map (fun m => length (attendance_list m)) people_data).

(** The names of an attendance table that match an entry of the registry. *)
Definition matched_names (people_data : list merged)
    (attendance_data : Dict.dict Py.str attendance_record) : list Py.str :=
  filter (fun name => match match_person_name name people_data with
                      | Some _ => true
                      | None => false
                      end)
         (Dict.keys attendance_data).

(** A disk with one attendance directory that holds the given files. *)
Definition attendance_disk (files : list (Py.str * list Py.str)) : attendance_fs :=
  {| path_exists := fun path => Py.eqb path (Py.lit "./sources/attendance");
     listdir := fun path => if Py.eqb path (Py.lit "./sources/attendance")
                            then Some (map fst files) else None;
     readlines := fun path =>
       match find (fun file => Py.eqb path (Py.lit "./sources/attendance/" ++ fst file)) files with
       | Some file => Some (snd file)
       | None => None
       end |}.

(** The header cells of an attendance file: the cells of the first line that
    has a '|' (of the first line when none has). *)
Definition header_of (lines : list Py.str) : list Py.str :=
  match skipn (table_start_from lines 0) lines with
  | first_line :: _ => table_cells first_line
  | [] => []
  end.

(** Lower-casing a word character gives characters that are not white space
    and that lower-casing leaves alone. *)
Definition lowers_to_slug (c : Py.char) : bool :=
  negb (Py.isword c)
  || forallb (fun d => negb (Py.isspace d) && Py.eqb (Py.lower_char d) [d]) (Py.lower_char c).

(** The first step of [simplify_question]: every emoji of the list is
    removed. *)
Definition without_emojis (question : Py.str) : Py.str :=
  fold_left (fun q emoji => Py.replace q emoji []) emojis question.

Unset Implicit Arguments.

(** * Proofs *)

(** ** Strings *)

Lemma eqb_eq (a b : Py.str) : Py.eqb a b = true <-> a = b.
Proof.
  revert b; induction a as [|x a IH]; intros [|y b]; simpl; split; try congruence; try easy.
  - rewrite andb_true_iff, N.eqb_eq, IH. intros [-> ->]. reflexivity.
  - intros H. injection H as -> ->. rewrite N.eqb_refl. simpl. apply IH. reflexivity.
Qed.

Lemma eqb_refl (a : Py.str) : Py.eqb a a = true.
Proof. apply eqb_eq. reflexivity. Qed.

Lemma eqb_neq (a b : Py.str) : Py.eqb a b = false <-> a <> b.
Proof.
  rewrite <- eqb_eq. destruct (Py.eqb a b); split; congruence.
Qed.

Lemma lstrip_Forall (P : Py.char -> Prop) (s : Py.str) : Forall P s -> Forall P (Py.lstrip s).
Proof.
  induction 1 as [|c s Hc Hs IH]; simpl; [constructor|].
  destruct (Py.isspace c); [exact IH | constructor; assumption].
Qed.

Lemma rstrip_Forall (P : Py.char -> Prop) (s : Py.str) : Forall P s -> Forall P (Py.rstrip s).
Proof.
  induction 1 as [|c s Hc Hs IH]; simpl; [constructor|].
  destruct (Py.rstrip s) as [|r rs].
  - destruct (Py.isspace c); constructor; [assumption | constructor].
  - constructor; assumption.
Qed.

Lemma strip_Forall (P : Py.char -> Prop) (s : Py.str) : Forall P s -> Forall P (Py.strip s).
Proof. intros H. apply rstrip_Forall, lstrip_Forall, H. Qed.

Lemma rstrip_idempotent (s : Py.str) : Py.rstrip (Py.rstrip s) = Py.rstrip s.
Proof.
  induction s as [|c s IH]; simpl; [reflexivity|].
  destruct (Py.rstrip s) as [|r rs] eqn:E.
  - destruct (Py.isspace c) eqn:Ec; simpl; [reflexivity | rewrite Ec; reflexivity].
  - change (Py.rstrip (c :: r :: rs)) with
      (match Py.rstrip (r :: rs) with
       | [] => if Py.isspace c then [] else [c]
       | x :: xs => c :: x :: xs
       end).
    rewrite IH. reflexivity.
Qed.

Lemma lstrip_left_trimmed (s : Py.str) : left_trimmed (Py.lstrip s).
Proof.
  induction s as [|c s IH]; simpl; [exact I|].
  destruct (Py.isspace c) eqn:E; [exact IH | exact E].
Qed.

Lemma lstrip_fixed (s : Py.str) : left_trimmed s -> Py.lstrip s = s.
Proof. destruct s as [|c s]; simpl; [reflexivity|]. intros ->. reflexivity. Qed.

Lemma rstrip_left_trimmed (s : Py.str) : left_trimmed s -> left_trimmed (Py.rstrip s).
Proof.
  destruct s as [|c s]; simpl; [easy|]. intros E.
  destruct (Py.rstrip s); [rewrite E|]; exact E.
Qed.

Lemma strip_idempotent (s : Py.str) : Py.strip (Py.strip s) = Py.strip s.
Proof.
  unfold Py.strip.
  rewrite lstrip_fixed by apply rstrip_left_trimmed, lstrip_left_trimmed.
  apply rstrip_idempotent.
Qed.

(** ** Normalisation of names *)

Lemma assoc_beyond (V : Type) (tbl : list (Py.char * V)) (bound c : N) (default : V) :
  forallb (fun kv => (fst kv <? bound)%N) tbl = true ->
  (bound <= c)%N -> Py.assoc c tbl default = default.
Proof.
  induction tbl as [|[k v] tbl IH]; simpl; [reflexivity|].
  rewrite andb_true_iff, N.ltb_lt. intros [Hk Ht] Hc.
  destruct (N.eqb_spec k c); [lia | apply IH; assumption].
Qed.

Lemma combining_in_beyond (tbl : list (Py.char * Py.char * N)) (bound c : N) :
  forallb (fun r => (snd (fst r) <? bound)%N) tbl = true ->
  (bound <= c)%N -> Py.combining_in c tbl = 0%N.
Proof.
  induction tbl as [|[[lo hi] k] tbl IH]; simpl; [reflexivity|].
  rewrite andb_true_iff, N.ltb_lt. intros [Hk Ht] Hc.
  unfold Py.in_range; simpl.
  destruct (N.leb_spec c hi); [lia|]. rewrite andb_false_r. apply IH; assumption.
Qed.

Lemma stable_beyond (c : N) : (repertoire_bound <= c)%N -> stable c = true.
Proof.
  intros Hc. unfold stable, Py.combining, Py.decomposition, Py.lower_char.
  rewrite (combining_in_beyond Py.combining_table repertoire_bound c) by (reflexivity || exact Hc).
  rewrite (assoc_beyond _ Py.decomposition_table repertoire_bound c) by (reflexivity || exact Hc).
  rewrite (assoc_beyond _ Py.lower_table repertoire_bound c) by (reflexivity || exact Hc).
  rewrite eqb_refl. reflexivity.
Qed.

Lemma below_bound_listed (c : N) :
  (c < repertoire_bound)%N -> In c (map N.of_nat (seq 0 (N.to_nat repertoire_bound))).
Proof.
  intros Hc. apply in_map_iff. exists (N.to_nat c). split; [apply N2Nat.id|].
  apply in_seq. lia.
Qed.

Lemma settles_all (c : Py.char) : settles c = true.
Proof.
  destruct (N.ltb_spec c repertoire_bound) as [Hc|Hc].
  - assert (H : forallb settles (map N.of_nat (seq 0 (N.to_nat repertoire_bound))) = true)
      by (vm_compute; reflexivity).
    rewrite forallb_forall in H. apply H, below_bound_listed, Hc.
  - unfold settles, Py.decomposition.
    rewrite (assoc_beyond _ Py.decomposition_table repertoire_bound c) by (reflexivity || exact Hc).
    simpl. unfold Py.lower_char at 1.
    rewrite (assoc_beyond _ Py.lower_table repertoire_bound c) by (reflexivity || exact Hc).
    simpl. rewrite (stable_beyond c Hc). rewrite orb_true_r. reflexivity.
Qed.

Lemma insert_mark_Forall (P : Py.char -> Prop) (c : Py.char) (l : Py.str) :
  P c -> Forall P l -> Forall P (Py.insert_mark c l).
Proof.
  intros Hc. induction 1 as [|d l Hd Hl IH]; simpl; [repeat constructor; exact Hc|].
  destruct (_ && _); repeat constructor; assumption.
Qed.

Lemma canonical_order_Forall (P : Py.char -> Prop) (s : Py.str) :
  Forall P s -> Forall P (Py.canonical_order s).
Proof.
  induction 1 as [|c s Hc Hs IH]; simpl; [constructor|].
  apply insert_mark_Forall; assumption.
Qed.

(** Ordering the marks does not touch the characters that are not marks, so
    after the marks are dropped the order of the marks is immaterial. *)
Lemma insert_mark_starters (c : Py.char) (l : Py.str) :
  filter (fun x => (Py.combining x =? 0)%N) (Py.insert_mark c l)
  = filter (fun x => (Py.combining x =? 0)%N) (c :: l).
Proof.
  induction l as [|d l IH]; [reflexivity|].
  simpl Py.insert_mark.
  destruct ((0 <? Py.combining d)%N && (Py.combining d <? Py.combining c)%N) eqn:E;
    [|reflexivity].
  apply andb_true_iff in E as [Hd _]. apply N.ltb_lt in Hd.
  assert (Ed : (Py.combining d =? 0)%N = false) by (apply N.eqb_neq; lia).
  simpl filter at 1. rewrite Ed, IH. simpl. rewrite Ed. reflexivity.
Qed.

Lemma canonical_order_starters (s : Py.str) :
  filter (fun x => (Py.combining x =? 0)%N) (Py.canonical_order s)
  = filter (fun x => (Py.combining x =? 0)%N) s.
Proof.
  induction s as [|c s IH]; [reflexivity|].
  simpl Py.canonical_order. rewrite insert_mark_starters. simpl. rewrite IH. reflexivity.
Qed.

Lemma normalize_spanish_name_unfold (name : Py.str) :
  normalize_spanish_name name
  = Py.strip (Py.lower (filter (fun x => (Py.combining x =? 0)%N)
                               (flat_map Py.decomposition name))).
Proof.
  unfold normalize_spanish_name, Py.normalize_NFD.
  rewrite canonical_order_starters. reflexivity.
Qed.

Lemma settled_stable (name : Py.str) :
  Forall (fun c => stable c = true)
         (Py.lower (filter (fun x => (Py.combining x =? 0)%N) (flat_map Py.decomposition name))).
Proof.
  induction name as [|c name IH]; simpl; [constructor|].
  rewrite filter_app. unfold Py.lower in *. rewrite flat_map_app.
  apply Forall_app. split; [|exact IH].
  pose proof (settles_all c) as H. unfold settles in H.
  rewrite forallb_forall in H.
  induction (Py.decomposition c) as [|d ds IHd]; simpl; [constructor|].
  destruct (Py.combining d =? 0)%N eqn:Ed.
  - simpl. apply Forall_app. split.
    + specialize (H d (or_introl eq_refl)). rewrite Ed in H. simpl in H.
      apply Forall_forall. rewrite forallb_forall in H. exact H.
    + apply IHd. intros x Hx. apply H. right. exact Hx.
  - apply IHd. intros x Hx. apply H. right. exact Hx.
Qed.




(** ** Telegram handles *)

Lemma startswith_nil (s : Py.str) : Py.startswith s [] = true.
Proof. destruct s; reflexivity. Qed.

Lemma replace_space (value : Py.str) :
  Py.replace value (Py.lit " ") [] = filter (fun c => negb (c =? 0x20)%N) value.
Proof.
  change (Py.replace value (Py.lit " ") []) with (Py.replace_from [0x20%N] [] value 0).
  induction value as [|c value IH]; [reflexivity|].
  change (Py.replace_from [0x20%N] [] (c :: value) 0)
    with (if (0x20 =? c)%N && Py.startswith value []
          then [] ++ Py.replace_from [0x20%N] [] value 0
          else c :: Py.replace_from [0x20%N] [] value 0).
  change (filter (fun c => negb (c =? 0x20)%N) (c :: value))
    with (if negb (c =? 0x20)%N
          then c :: filter (fun c => negb (c =? 0x20)%N) value
          else filter (fun c => negb (c =? 0x20)%N) value).
  rewrite IH, startswith_nil, andb_true_r, (N.eqb_sym 0x20 c).
  destruct (c =? 0x20)%N; reflexivity.
Qed.

Lemma startswith_at (value : Py.str) : Py.startswith value (Py.lit "@") = starts_with_at value.
Proof.
  destruct value as [|c value]; [reflexivity|].
  change (Py.startswith (c :: value) (Py.lit "@")) with ((0x40 =? c)%N && Py.startswith value []).
  rewrite startswith_nil, andb_true_r. apply N.eqb_sym.
Qed.

(** The rules applied at merge time are those of the specification. *)
Lemma offered_value_telegram (person : raw_record) :
  get_contact person Telegram <> [] ->
  offered_value Telegram person = normalized_handle (get_contact person Telegram).
Proof.
  intros Hv. unfold offered_value, normalized_handle.
  destruct (get_contact person Telegram) as [|c value] eqn:E; [congruence|].
  cbn [field_eqb nonempty andb].
  replace (existsb (fun indicator => Py.eqb (Py.strip (Py.lower (c :: value))) indicator)
                   [Py.lit "no tengo"; Py.lit "no"; Py.lit "none"; Py.lit "0"; Py.lit "n/a";
                    Py.lit "-"])
    with (existsb (Py.eqb (Py.strip (Py.lower (c :: value)))) no_handle_tokens) by reflexivity.
  destruct (existsb _ no_handle_tokens); [reflexivity|].
  rewrite startswith_at, replace_space. reflexivity.
Qed.

(** So are the rules applied when a row is extracted. *)
Lemma contact_value_telegram (row : Dict.dict Py.str (option Py.str)) (col cell : Py.str) :
  Dict.get Py.eqb row col = Some (Some cell) ->
  Py.strip cell <> [] ->
  contact_value Telegram row col = normalized_handle (Py.strip cell).
Proof.
  intros Hrow Hv. unfold contact_value, normalized_handle. rewrite Hrow.
  assert (Hc : nonempty cell = true).
  { destruct cell; [exfalso; apply Hv; reflexivity | reflexivity]. }
  rewrite Hc.
  destruct (Py.strip cell) as [|c value] eqn:E; [congruence|].
  cbn [field_eqb nonempty andb].
  replace (existsb (fun indicator => Py.eqb (Py.strip (Py.lower (c :: value))) indicator)
                   [Py.lit "no tengo"; Py.lit "no"; Py.lit "none"; Py.lit "0"; Py.lit "n/a";
                    Py.lit "-"])
    with (existsb (Py.eqb (Py.strip (Py.lower (c :: value)))) no_handle_tokens) by reflexivity.
  destruct (existsb _ no_handle_tokens); [reflexivity|].
  rewrite startswith_at, replace_space. reflexivity.
Qed.

(** C6: on a non-empty value, normalisation of a Telegram handle gives the
    empty string when the lower-cased, trimmed value is one of the no-handle
    tokens, and otherwise the value without its spaces, with "@" in front
    unless it is there already; this is what happens at extraction time and
    again at merge time. *)
Theorem telegram_handle_normalization (value : Py.str) :
  value <> [] ->
  (forall row col cell,
      Dict.get Py.eqb row col = Some (Some cell) -> Py.strip cell = value ->
      contact_value Telegram row col = normalized_handle value)
  /\ (forall person,
         get_contact person Telegram = value ->
         offered_value Telegram person = normalized_handle value).
Proof.
  intros Hv. split.
  - intros row col cell Hrow <-. apply contact_value_telegram; assumption.
  - intros person <-. apply offered_value_telegram; assumption.
Qed.

(** The three examples of the specification, at extraction time (a row with
    one Telegram cell) and at merge time (a record with that handle). *)
Lemma telegram_handle_normalization_examples :
  let cell_of value := [(Py.lit "Telegram", Some value)] in
  let record_of value :=
    {| contact := [(Telegram, value)]; person_nombre_normalized := None; form := [];
       essay_responses := []; source := [] |} in
  (contact_value Telegram (cell_of (Py.lit "no tengo")) (Py.lit "Telegram") = []
   /\ offered_value Telegram (record_of (Py.lit "no tengo")) = [])
  /\ (contact_value Telegram (cell_of (Py.lit "juanperez")) (Py.lit "Telegram")
      = Py.lit "@juanperez"
      /\ offered_value Telegram (record_of (Py.lit "juanperez")) = Py.lit "@juanperez")
  /\ (contact_value Telegram (cell_of (Py.lit "@juanperez")) (Py.lit "Telegram")
      = Py.lit "@juanperez"
      /\ offered_value Telegram (record_of (Py.lit "@juanperez")) = Py.lit "@juanperez").
Proof.
  intros cell_of record_of.
  assert (H : forall value, value <> [] -> Py.strip value = value ->
              contact_value Telegram (cell_of value) (Py.lit "Telegram") = normalized_handle value
              /\ offered_value Telegram (record_of value) = normalized_handle value).
  { intros value Hv Hs.
    destruct (telegram_handle_normalization value Hv) as [Hextract Hmerge]. split.
    - apply (Hextract (cell_of value) (Py.lit "Telegram") value); [reflexivity | exact Hs].
    - apply Hmerge. reflexivity. }
  repeat split; apply H; solve [discriminate | reflexivity].
Defined.

(** ** Slugs *)

Lemma in_range_beyond (tbl : list (Py.char * Py.char)) (bound c : N) :
  forallb (fun r => (snd r <? bound)%N) tbl = true ->
  (bound <= c)%N -> existsb (Py.in_range c) tbl = false.
Proof.
  induction tbl as [|[lo hi] tbl IH]; simpl; [reflexivity|].
  rewrite andb_true_iff, N.ltb_lt. intros [Hk Ht] Hc.
  unfold Py.in_range at 1; simpl.
  destruct (N.leb_spec c hi); [lia|]. rewrite andb_false_r. apply IH; assumption.
Qed.

Lemma dotless_all (c : Py.char) : dotless c = true.
Proof.
  destruct (N.ltb_spec c repertoire_bound) as [Hc|Hc].
  - assert (H : forallb dotless (map N.of_nat (seq 0 (N.to_nat repertoire_bound))) = true)
      by (vm_compute; reflexivity).
    rewrite forallb_forall in H. apply H, below_bound_listed, Hc.
  - unfold dotless, Py.isword.
    rewrite (in_range_beyond Py.word_table repertoire_bound c) by (reflexivity || exact Hc).
    reflexivity.
Qed.

Lemma underscore_spaces_words (question : Py.str) (in_run : bool) :
  Forall (fun c => Py.isword c || Py.isspace c = true) question ->
  Forall (fun c => Py.isword c = true) (underscore_spaces question in_run).
Proof.
  intros H. revert in_run. induction H as [|c question Hc Hq IH]; intros in_run; simpl;
    [constructor|].
  destruct (Py.isspace c) eqn:Es.
  - destruct in_run; [apply IH|]. constructor; [reflexivity | apply IH].
  - rewrite orb_false_r in Hc. constructor; [exact Hc | apply IH].
Qed.

Lemma lower_words_dotless (s : Py.str) :
  Forall (fun c => Py.isword c = true) s -> ~ In 0x2E%N (Py.lower s).
Proof.
  intros H Hin. unfold Py.lower in Hin. apply in_flat_map in Hin as [c [Hc Hdot]].
  rewrite Forall_forall in H. specialize (H c Hc).
  pose proof (dotless_all c) as Hd. unfold dotless in Hd. rewrite H in Hd. simpl in Hd.
  rewrite forallb_forall in Hd. specialize (Hd _ Hdot). discriminate.
Qed.

Lemma join_length (parts : list Py.str) (word : Py.str) :
  parts <> [] ->
  length (Py.join (Py.lit " ") (word :: parts))
  = length word + 1 + length (Py.join (Py.lit " ") parts).
Proof.
  destruct parts as [|p parts]; [contradiction|]. intros _.
  cbn [Py.join]. rewrite !length_app. simpl. lia.
Qed.

Lemma shorten_from (words : list Py.str) :
  forall total_length,
    (exists rest, words = shorten words total_length ++ rest)
    /\ (shorten words total_length <> [] ->
        total_length + length (Py.join (Py.lit " ") (shorten words total_length)) <= 25).
Proof.
  induction words as [|word words IH]; intros total_length.
  - split; [exists []; reflexivity | intros H; contradiction].
  - cbn [shorten]. destruct (Nat.leb_spec (total_length + length word) 25) as [Hfit|Hfit].
    + destruct (IH (total_length + length word + 1)) as [[rest Hrest] Hlen]. split.
      * exists rest. simpl. rewrite <- Hrest. reflexivity.
      * intros _.
        destruct (shorten words (total_length + length word + 1)) as [|w ws] eqn:E.
        -- simpl. lia.
        -- rewrite join_length by discriminate.
           specialize (Hlen ltac:(discriminate)). lia.
    + split; [exists (word :: words); reflexivity | intros H; contradiction].
Qed.

(** X1: The truncation keeps a prefix of the words of the question, and the kept
    words, joined by single spaces, take at most 25 characters. *)
Theorem shorten_keeps_a_prefix (words : list Py.str) :
  (exists rest, words = shorten words 0 ++ rest)
  /\ length (Py.join (Py.lit " ") (shorten words 0)) <= 25.
Proof.
  destruct (shorten_from words 0) as [Hprefix Hlen]. split; [exact Hprefix|].
  destruct (shorten words 0) as [|w ws] eqn:E; [simpl; lia|].
  apply (Hlen ltac:(discriminate)).
Qed.

(** C5: a truncated question gets "..." appended, but the punctuation filter
    that follows removes it again: the slug of a long question carries no
    ellipsis, and no slug contains a full stop at all. *)
Theorem simplify_question_loses_ellipsis :
  simplify_question (Py.lit "What is your favourite programming language?")
  = Py.lit "what_is_your_favourite"
  /\ forall question, ~ In 0x2E%N (simplify_question question).
Proof.
  split; [vm_compute; reflexivity|].
  intros question. unfold simplify_question.
  apply lower_words_dotless, underscore_spaces_words.
  unfold remove_special. apply Forall_forall. intros c Hc.
  apply filter_In in Hc. apply Hc.
Qed.

(** ** Dictionaries *)

Section DictFacts.

Variables (K V : Type) (key_eqb : K -> K -> bool).
Hypothesis key_eqb_eq : forall a b, key_eqb a b = true <-> a = b.

Lemma key_eqb_refl (k : K) : key_eqb k k = true.
Proof. apply key_eqb_eq. reflexivity. Qed.

Lemma key_eqb_neq (a b : K) : a <> b -> key_eqb a b = false.
Proof.
  intros H. destruct (key_eqb a b) eqn:E; [|reflexivity].
  apply key_eqb_eq in E. contradiction.
Qed.

Lemma get_set_same (d : Dict.dict K V) (k : K) (v : V) :
  Dict.get key_eqb (Dict.set key_eqb d k v) k = Some v.
Proof.
  induction d as [|[k' v'] d IH]; simpl.
  - rewrite key_eqb_refl. reflexivity.
  - destruct (key_eqb k' k) eqn:E; simpl; rewrite E; [reflexivity | exact IH].
Qed.

Lemma get_set_other (d : Dict.dict K V) (k k' : K) (v : V) :
  k <> k' -> Dict.get key_eqb (Dict.set key_eqb d k v) k' = Dict.get key_eqb d k'.
Proof.
  intros Hk. induction d as [|[k0 v0] d IH]; simpl.
  - rewrite (key_eqb_neq k k' Hk). reflexivity.
  - destruct (key_eqb k0 k) eqn:E; simpl.
    + apply key_eqb_eq in E. subst k0. rewrite (key_eqb_neq k k' Hk). reflexivity.
    + rewrite IH. reflexivity.
Qed.

Lemma get_None_keys (d : Dict.dict K V) (k : K) :
  Dict.get key_eqb d k = None <-> ~ In k (Dict.keys d).
Proof.
  induction d as [|[k' v'] d IH]; simpl; [tauto|].
  destruct (key_eqb k' k) eqn:E.
  - apply key_eqb_eq in E. split; [discriminate | intros H; exfalso; apply H; left; exact E].
  - rewrite IH. split; [|tauto].
    intros H [Hk|Hk]; [|contradiction].
    subst k'. rewrite key_eqb_refl in E. discriminate.
Qed.

Lemma set_present (d : Dict.dict K V) (k : K) (v v' : V) :
  Dict.get key_eqb d k = Some v' -> Dict.keys (Dict.set key_eqb d k v) = Dict.keys d.
Proof.
  induction d as [|[k0 v0] d IH]; simpl; [discriminate|].
  destruct (key_eqb k0 k) eqn:E; simpl; [reflexivity|].
  intros H. rewrite (IH H). reflexivity.
Qed.

Lemma set_absent (d : Dict.dict K V) (k : K) (v : V) :
  Dict.get key_eqb d k = None -> Dict.set key_eqb d k v = d ++ [(k, v)].
Proof.
  induction d as [|[k0 v0] d IH]; simpl; [reflexivity|].
  destruct (key_eqb k0 k) eqn:E; [discriminate|].
  intros H. rewrite (IH H). reflexivity.
Qed.

Lemma in_get (d : Dict.dict K V) (k : K) (v : V) :
  NoDup (Dict.keys d) -> In (k, v) d <-> Dict.get key_eqb d k = Some v.
Proof.
  induction d as [|[k0 v0] d IH]; simpl; intros Hnd.
  - split; [contradiction | discriminate].
  - inversion Hnd as [|? ? Hnotin Hnd']; subst.
    destruct (key_eqb k0 k) eqn:E.
    + apply key_eqb_eq in E. subst k0. split.
      * intros [H|H]; [congruence|].
        exfalso. apply Hnotin. apply in_map_iff. exists (k, v). split; [reflexivity | exact H].
      * intros H. left. congruence.
    + rewrite <- (IH Hnd'). split; [|tauto].
      intros [H|H]; [|exact H].
      injection H as -> ->. rewrite key_eqb_refl in E. discriminate.
Qed.

End DictFacts.

(** ** Grouping *)

Lemma filter_people_spec (all_people : list raw_record) :
  filter_people all_people = map with_normalized_name (filter linkable all_people).
Proof.
  induction all_people as [|person all_people IH]; [reflexivity|].
  change (filter_people (person :: all_people))
    with (if linkable person
          then with_normalized_name person :: filter_people all_people
          else filter_people all_people).
  cbn [filter]. rewrite IH. destruct (linkable person); reflexivity.
Qed.

Lemma group_of_app (people : list raw_record) (person : raw_record) (key : Py.str) :
  group_of (people ++ [person]) key
  = group_of people key ++ (if Py.eqb (group_key person) key then [person] else []).
Proof. unfold group_of. rewrite filter_app. reflexivity. Qed.

Lemma concat_values_append (groups : Dict.dict Py.str (list raw_record)) (key : Py.str)
    (group : list raw_record) (person : raw_record) :
  Dict.get Py.eqb groups key = Some group ->
  Permutation (concat (Dict.values (Dict.set Py.eqb groups key (group ++ [person]))))
              (concat (Dict.values groups) ++ [person]).
Proof.
  induction groups as [|[k g] groups IH]; simpl; [discriminate|].
  destruct (Py.eqb k key) eqn:E; simpl.
  - intros H. injection H as ->. rewrite <- !app_assoc.
    apply Permutation_app_head, Permutation_app_comm.
  - intros H. rewrite <- app_assoc. apply Permutation_app_head, IH, H.
Qed.

Lemma group_append_grouped (groups : Dict.dict Py.str (list raw_record))
    (people : list raw_record) (person : raw_record) :
  grouped groups people ->
  grouped (group_append groups (group_key person) person) (people ++ [person]).
Proof.
  intros (Hnd & Hget & Hperm). unfold group_append.
  pose proof (Hget (group_key person)) as Hk.
  destruct (Dict.get Py.eqb groups (group_key person)) as [group|] eqn:E.
  - assert (Hg : group_of people (group_key person) = group).
    { destruct (group_of people (group_key person)); congruence. }
    repeat split.
    + rewrite (set_present _ _ _ groups _ _ group E). exact Hnd.
    + intros key. rewrite group_of_app.
      destruct (Py.eqb (group_key person) key) eqn:Ek.
      * apply eqb_eq in Ek. subst key.
        rewrite (get_set_same _ _ _ eqb_eq). rewrite Hg.
        destruct group; reflexivity.
      * rewrite (get_set_other _ _ _ eqb_eq) by (apply eqb_neq; exact Ek).
        rewrite app_nil_r. apply Hget.
    + rewrite (concat_values_append groups _ group person E).
      apply Permutation_app_tail, Hperm.
  - assert (Hg : group_of people (group_key person) = []).
    { destruct (group_of people (group_key person)); congruence. }
    rewrite (set_absent _ _ _ groups _ _ E).
    repeat split.
    + unfold Dict.keys. rewrite map_app. simpl.
      apply NoDup_app_remove_l with (l := []).
      simpl. apply Permutation_NoDup with (l := group_key person :: map fst groups).
      * apply Permutation_cons_append.
      * constructor; [|exact Hnd]. apply (get_None_keys _ _ _ eqb_eq). exact E.
    + intros key. rewrite group_of_app. rewrite <- (set_absent _ _ _ groups _ [person] E).
      destruct (Py.eqb (group_key person) key) eqn:Ek.
      * apply eqb_eq in Ek. subst key.
        rewrite (get_set_same _ _ _ eqb_eq). rewrite Hg. reflexivity.
      * rewrite (get_set_other _ _ _ eqb_eq) by (apply eqb_neq; exact Ek).
        rewrite app_nil_r. apply Hget.
    + unfold Dict.values. rewrite map_app, concat_app. simpl.
      apply Permutation_app_tail, Hperm.
Qed.

Lemma group_people_from (people : list raw_record) :
  forall groups seen,
    grouped groups seen ->
    grouped (fold_left (fun email_groups person =>
                          group_append email_groups (group_key person) person)
                       people groups)
            (seen ++ people).
Proof.
  induction people as [|person people IH]; intros groups seen H; simpl.
  - rewrite app_nil_r. exact H.
  - replace (seen ++ person :: people) with ((seen ++ [person]) ++ people)
      by (rewrite <- app_assoc; reflexivity).
    apply IH, group_append_grouped, H.
Qed.

Lemma group_people_grouped (people : list raw_record) : grouped (group_people people) people.
Proof.
  apply (group_people_from people [] []).
  repeat split; [apply NoDup_nil | apply Permutation_refl].
Qed.

Lemma in_groups (people : list raw_record) (key : Py.str) (group : list raw_record) :
  In (key, group) (group_people people) <-> group <> [] /\ group = group_of people key.
Proof.
  destruct (group_people_grouped people) as (Hnd & Hget & _).
  rewrite (in_get _ _ _ eqb_eq _ _ _ Hnd), Hget.
  destruct (group_of people key) eqn:E; split.
  - discriminate.
  - intros [H ->]. contradiction.
  - intros H. injection H as <-. split; [discriminate | reflexivity].
  - intros [_ ->]. reflexivity.
Qed.


(** ** Merging the contact fields *)

Lemma field_eqb_eq (a b : field) : field_eqb a b = true <-> a = b.
Proof. destruct a, b; simpl; split; congruence. Qed.

Lemma get_set_field (m : merged) (f g : field) (v : Py.str) :
  get_field (set_field m f v) g = if field_eqb f g then v else get_field m g.
Proof. destruct f, g; reflexivity. Qed.

Lemma merge_field_get (person : raw_record) (m : merged) (f' f : field) :
  get_field (merge_field person m f') f
  = if field_eqb f' f
    then resolve_step (get_field m f) (offered_value f person)
    else get_field m f.
Proof.
  unfold merge_field.
  destruct (field_eqb f' f) eqn:E.
  - apply field_eqb_eq in E. subst f'.
    destruct (get_field m f) as [|a current] eqn:Ec;
      destruct (offered_value f person) as [|b new_value] eqn:En; cbn [nonempty negb andb].
    + exact Ec.
    + rewrite get_set_field, (proj2 (field_eqb_eq f f) eq_refl). reflexivity.
    + exact Ec.
    + cbn [resolve_step].
      destruct (length (a :: current) <? length (b :: new_value)).
      * rewrite get_set_field, (proj2 (field_eqb_eq f f) eq_refl). reflexivity.
      * exact Ec.
  - repeat match goal with
           | |- context [if ?b then _ else _] => destruct b
           end; try reflexivity; rewrite get_set_field, E; reflexivity.
Qed.

Lemma merge_contact_get (m : merged) (person : raw_record) (f : field) :
  get_field (merge_contact m person) f
  = resolve_step (get_field m f) (offered_value f person).
Proof.
  unfold merge_contact. cbn [fold_left].
  rewrite !merge_field_get. destruct f; reflexivity.
Qed.

Lemma merge_contact_fold (group : list raw_record) (m : merged) (f : field) :
  get_field (fold_left merge_contact group m) f
  = fold_left resolve_step (map (offered_value f) group) (get_field m f).
Proof.
  revert m. induction group as [|person group IH]; intros m; [reflexivity|].
  cbn [fold_left map]. rewrite IH, merge_contact_get. reflexivity.
Qed.

Lemma add_postulacion_fold_get (group : list raw_record) (m : merged) (f : field) :
  get_field (fold_left add_postulacion group m) f = get_field m f.
Proof.
  revert m. induction group as [|person group IH]; intros m; [reflexivity|].
  cbn [fold_left]. rewrite IH. destruct f; reflexivity.
Qed.

Lemma resolve_step_same (v : Py.str) : resolve_step v v = v.
Proof.
  destruct v as [|c v]; [reflexivity|]. cbn [resolve_step].
  rewrite Nat.ltb_irrefl. reflexivity.
Qed.

Lemma resolve_step_seed (v : Py.str) : resolve_step [] v = v.
Proof. destruct v; reflexivity. Qed.

(** The merge of a group whose first record is [first]: every contact field
    is the fold of the offered values, started from the stored value of the
    first record. *)
Lemma merge_group_fields (first : raw_record) (rest : list raw_record) :
  exists m,
    merge_group (first :: rest) = Some m
    /\ forall f, get_field m f
                 = fold_left resolve_step (map (offered_value f) (first :: rest))
                             (get_contact first f).
Proof.
  eexists. split; [reflexivity|]. intros f.
  transitivity
    (get_field
       (fold_left add_postulacion (first :: rest)
          (fold_left merge_contact (first :: rest)
             {| nombre := get_contact first Nombre;
                nombre_normalized :=
                  match person_nombre_normalized first with
                  | Some n => n
                  | None => normalize_spanish_name (get_contact first Nombre)
                  end;
                correo := get_contact first Correo;
                telegram := get_contact first Telegram;
                carrera := get_contact first Carrera;
                generacion := get_contact first Generacion;
                postulaciones := [];
                sources := [];
                attendance := None |})) f).
  - destruct f; reflexivity.
  - rewrite add_postulacion_fold_get, merge_contact_fold. destruct f; reflexivity.
Qed.

Lemma offered_value_other (f : field) (person : raw_record) :
  f <> Telegram -> offered_value f person = get_contact person f.
Proof. intros H. destruct f; try reflexivity. contradiction. Qed.

Lemma filter_all (A : Type) (p : A -> bool) (l : list A) :
  forallb p l = true -> filter p l = l.
Proof.
  induction l as [|x l IH]; simpl; [reflexivity|].
  rewrite andb_true_iff. intros [-> H]. rewrite IH by exact H. reflexivity.
Qed.

Lemma strip_at (s : Py.str) : exists r, Py.strip (0x40%N :: s) = 0x40%N :: r.
Proof.
  unfold Py.strip. change (Py.lstrip (0x40%N :: s)) with (0x40%N :: s).
  cbn [Py.rstrip]. destruct (Py.rstrip s) as [|x r]; eexists; reflexivity.
Qed.

(** A stored handle of the right shape is offered unchanged. *)
Lemma handle_shaped_offered (person : raw_record) :
  handle_shaped (get_contact person Telegram) = true ->
  offered_value Telegram person = get_contact person Telegram.
Proof.
  intros H.
  destruct (get_contact person Telegram) as [|c value] eqn:E.
  - unfold offered_value. rewrite E. reflexivity.
  - rewrite offered_value_telegram by (rewrite E; discriminate).
    rewrite E. unfold handle_shaped in H.
    apply andb_true_iff in H as [Hat Hsp].
    cbn [starts_with_at] in Hat. apply N.eqb_eq in Hat. subst c.
    unfold normalized_handle.
    destruct (strip_at (Py.lower value)) as [r Hr].
    change (Py.lower (0x40%N :: value)) with (0x40%N :: Py.lower value).
    rewrite Hr. cbn [existsb no_handle_tokens].
    replace (Py.eqb (0x40%N :: r) (Py.lit "no tengo")) with false by reflexivity.
    replace (Py.eqb (0x40%N :: r) (Py.lit "no")) with false by reflexivity.
    replace (Py.eqb (0x40%N :: r) (Py.lit "none")) with false by reflexivity.
    replace (Py.eqb (0x40%N :: r) (Py.lit "0")) with false by reflexivity.
    replace (Py.eqb (0x40%N :: r) (Py.lit "n/a")) with false by reflexivity.
    replace (Py.eqb (0x40%N :: r) (Py.lit "-")) with false by reflexivity.
    cbn [orb]. rewrite (filter_all _ _ _ Hsp). reflexivity.
Qed.

(** What extraction stores under "telegram" has that shape. *)
Lemma contact_value_shaped (row : Dict.dict Py.str (option Py.str)) (col : Py.str) :
  handle_shaped (contact_value Telegram row col) = true.
Proof.
  unfold contact_value.
  destruct (Dict.get Py.eqb row col) as [cell|]; [|reflexivity].
  set (value := match cell with
                | Some s => if nonempty s then Py.strip s else []
                | None => []
                end).
  destruct value as [|c value]; [reflexivity|].
  cbn [field_eqb nonempty andb].
  destruct (existsb _ _); [reflexivity|].
  rewrite startswith_at, replace_space.
  set (without_spaces := filter (fun c => negb (c =? 0x20)%N) (c :: value)).
  assert (Hsp : forallb (fun c => negb (c =? 0x20)%N) without_spaces = true).
  { apply forallb_forall. intros x Hx. apply filter_In in Hx. apply Hx. }
  destruct (starts_with_at without_spaces) eqn:Hat.
  - unfold handle_shaped. rewrite Hat, Hsp. destruct without_spaces; reflexivity.
  - change (Py.lit "@" ++ without_spaces) with (0x40%N :: without_spaces).
    unfold handle_shaped. cbn [starts_with_at forallb]. rewrite Hsp. reflexivity.
Qed.

Lemma get_mapped (V W : Type) (g : field -> V -> W) (mapping : Dict.dict field V) (f : field) :
  Dict.get field_eqb (map (fun '(category, col) => (category, g category col)) mapping) f
  = option_map (g f) (Dict.get field_eqb mapping f).
Proof.
  induction mapping as [|[category col] mapping IH]; [reflexivity|].
  simpl. destruct (field_eqb category f) eqn:E; [|exact IH].
  apply field_eqb_eq in E. subst. reflexivity.
Qed.

Lemma extracted_shaped (filename : Py.str) (table : csv_table) (person : raw_record) :
  In person (extract_rows filename table) ->
  handle_shaped (get_contact person Telegram) = true.
Proof.
  unfold extract_rows. intros H. apply in_map_iff in H as [row [<- _]].
  unfold get_contact. cbn [contact]. rewrite get_mapped.
  destruct (Dict.get field_eqb (contact_mapping (fieldnames table)) Telegram) as [col|];
    [apply contact_value_shaped | reflexivity].
Qed.

Lemma with_normalized_name_contact (person : raw_record) (f : field) :
  get_contact (with_normalized_name person) f = get_contact person f.
Proof.
  unfold with_normalized_name. destruct (nonempty _); reflexivity.
Qed.

Lemma identity_group_members (fs : csv_files) (filenames : list Py.str) (key : Py.str)
    (group : list raw_record) (person : raw_record) :
  In (key, group) (identity_groups fs filenames) -> In person group ->
  handle_shaped (get_contact person Telegram) = true.
Proof.
  unfold identity_groups. intros Hg Hp.
  apply in_groups in Hg as [_ ->]. apply filter_In in Hp as [Hp _].
  rewrite filter_people_spec in Hp. apply in_map_iff in Hp as [raw [<- Hraw]].
  rewrite with_normalized_name_contact.
  apply filter_In in Hraw as [Hraw _].
  apply in_flat_map in Hraw as [filename [_ Hraw]].
  unfold read_csv_file in Hraw. destruct (fs filename) as [table|]; [|contradiction].
  apply (extracted_shaped filename table raw Hraw).
Qed.

Lemma offered_values (group : list raw_record) (f : field) :
  (forall person, In person group -> handle_shaped (get_contact person Telegram) = true) ->
  map (offered_value f) group = map (fun person => get_contact person f) group.
Proof.
  intros H. apply map_ext_in. intros person Hp.
  destruct f; try reflexivity. apply handle_shaped_offered, H, Hp.
Qed.

(** C1: in every group that the pipeline forms, the merged value of each
    contact field is what the resolution rule gives on the values of the
    group in their order: the first non-empty value seeds the field and a
    later one replaces it only when strictly longer.  The names "Ana", "Ana
    María", "An" resolve to "Ana María". *)
Theorem merge_resolves_contact_fields :
  (forall fs filenames key group,
      In (key, group) (identity_groups fs filenames) ->
      group <> []
      /\ exists m,
           merge_group group = Some m
           /\ forall f, get_field m f = resolve (map (fun person => get_contact person f) group))
  /\ option_map nombre
       (merge_group [named (Py.lit "Ana"); named (Py.lit "Ana Mar" ++ [0xED%N] ++ Py.lit "a");
                     named (Py.lit "An")])
     = Some (Py.lit "Ana Mar" ++ [0xED%N] ++ Py.lit "a").
Proof.
  split; [|vm_compute; reflexivity].
  intros fs filenames key group Hin.
  pose proof (identity_group_members fs filenames key group) as Hshape.
  specialize (fun person => Hshape person Hin).
  unfold identity_groups in Hin. apply in_groups in Hin as [Hne _].
  split; [exact Hne|].
  destruct group as [|first rest]; [contradiction|].
  destruct (merge_group_fields first rest) as [m [Hm Hf]].
  exists m. split; [exact Hm|]. intros f.
  rewrite Hf, (offered_values (first :: rest) f Hshape).
  unfold resolve. cbn [map fold_left].
  rewrite resolve_step_same, resolve_step_seed. reflexivity.
Qed.

Lemma merge_resolves_contact_fields_example :
  let group :=
    [ {| contact := [(Nombre, Py.lit "Ana"); (Correo, Py.lit "ana@uc.cl")];
         person_nombre_normalized := Some (Py.lit "ana");
         form := Py.lit "2023-1.csv"; essay_responses := [];
         source := Py.lit "./sources/2023-1.csv" |};
      {| contact := [(Nombre, Py.lit "Ana Mar" ++ [0xED%N] ++ Py.lit "a");
                     (Correo, Py.lit "Ana@uc.cl")];
         person_nombre_normalized := Some (Py.lit "ana maria");
         form := Py.lit "2023-1.csv"; essay_responses := [];
         source := Py.lit "./sources/2023-1.csv" |};
      {| contact := [(Nombre, Py.lit "An"); (Correo, Py.lit "ana@uc.cl")];
         person_nombre_normalized := Some (Py.lit "an");
         form := Py.lit "2023-1.csv"; essay_responses := [];
         source := Py.lit "./sources/2023-1.csv" |} ] in
  In (Py.lit "ana@uc.cl", group) (identity_groups ana_files [Py.lit "./sources/2023-1.csv"])
  /\ exists m,
       merge_group group = Some m
       /\ forall f, get_field m f = resolve (map (fun person => get_contact person f) group).
Proof.
  intros group.
  assert (Hin : In (Py.lit "ana@uc.cl", group)
                   (identity_groups ana_files [Py.lit "./sources/2023-1.csv"]))
    by (vm_compute; left; reflexivity).
  split; [exact Hin|].
  exact (proj2 (proj1 merge_resolves_contact_fields ana_files [Py.lit "./sources/2023-1.csv"]
                  (Py.lit "ana@uc.cl") group Hin)).
Defined.

(** ** Order of the input *)

Lemma filter_Permutation (A : Type) (p : A -> bool) (l1 l2 : list A) :
  Permutation l1 l2 -> Permutation (filter p l1) (filter p l2).
Proof.
  induction 1 as [|x l1 l2 H IH|x y l|l1 l2 l3 H1 IH1 H2 IH2]; simpl.
  - constructor.
  - destruct (p x); [constructor|]; exact IH.
  - destruct (p x), (p y); try apply Permutation_refl. constructor.
  - eapply Permutation_trans; eassumption.
Qed.

Lemma set_field_lists (m : merged) (f : field) (v : Py.str) :
  postulaciones (set_field m f v) = postulaciones m /\ sources (set_field m f v) = sources m.
Proof. split; reflexivity. Qed.

Lemma merge_field_lists (person : raw_record) (m : merged) (f : field) :
  postulaciones (merge_field person m f) = postulaciones m
  /\ sources (merge_field person m f) = sources m.
Proof.
  unfold merge_field.
  repeat match goal with
         | |- context [if ?b then _ else _] => destruct b
         end; split; reflexivity.
Qed.

Lemma merge_contact_lists (m : merged) (person : raw_record) :
  postulaciones (merge_contact m person) = postulaciones m
  /\ sources (merge_contact m person) = sources m.
Proof.
  unfold merge_contact.
  generalize [Nombre; Correo; Telegram; Carrera; Generacion]. intros fields.
  revert m. induction fields as [|f fields IH]; intros m; [split; reflexivity|].
  cbn [fold_left]. destruct (IH (merge_field person m f)) as [-> ->].
  apply merge_field_lists.
Qed.

Lemma merge_contact_fold_lists (group : list raw_record) (m : merged) :
  postulaciones (fold_left merge_contact group m) = postulaciones m
  /\ sources (fold_left merge_contact group m) = sources m.
Proof.
  revert m. induction group as [|person group IH]; intros m; [split; reflexivity|].
  cbn [fold_left]. destruct (IH (merge_contact m person)) as [-> ->].
  apply merge_contact_lists.
Qed.

Lemma add_postulacion_fold_lists (group : list raw_record) (m : merged) :
  postulaciones (fold_left add_postulacion group m)
  = postulaciones m ++ flat_map submission group
  /\ sources (fold_left add_postulacion group m) = sources m ++ map source group.
Proof.
  revert m. induction group as [|person group IH]; intros m.
  - simpl. rewrite !app_nil_r. split; reflexivity.
  - cbn [fold_left flat_map map]. destruct (IH (add_postulacion m person)) as [-> ->].
    unfold add_postulacion, submission; cbn [postulaciones sources].
    destruct (1 <? length (postulacion_of person)); rewrite <- !app_assoc; split; reflexivity.
Qed.

(** The two lists of the merged record of a group. *)
Lemma merge_group_lists (group : list raw_record) (m : merged) :
  merge_group group = Some m ->
  postulaciones m = flat_map submission group
  /\ sources m = distinct (map source group).
Proof.
  destruct group as [|first rest]; [discriminate|].
  unfold merge_group. intros H. injection H as <-. cbn [postulaciones sources].
  match goal with
  | |- context [fold_left add_postulacion rest (add_postulacion ?a first)] =>
      change (fold_left add_postulacion rest (add_postulacion a first))
        with (fold_left add_postulacion (first :: rest) a);
      destruct (add_postulacion_fold_lists (first :: rest) a) as [-> ->]
  end.
  match goal with
  | |- context [fold_left merge_contact rest (merge_contact ?a first)] =>
      change (fold_left merge_contact rest (merge_contact a first))
        with (fold_left merge_contact (first :: rest) a);
      destruct (merge_contact_fold_lists (first :: rest) a) as [-> ->]
  end.
  split; reflexivity.
Qed.

Lemma in_distinct (l : list Py.str) (x : Py.str) : In x (distinct l) <-> In x l.
Proof.
  unfold distinct. rewrite <- in_rev, nodup_In, <- in_rev. reflexivity.
Qed.

Lemma merge_group_some (group : list raw_record) :
  group <> [] -> exists m, merge_group group = Some m.
Proof.
  destruct group as [|first rest]; [contradiction|]. intros _.
  eexists. reflexivity.
Qed.

(** The merged records of two orders of the same records. *)
Lemma merged_by_key_Permutation (all1 all2 : list raw_record) (key : Py.str) (m1 : merged) :
  Permutation all1 all2 ->
  In (key, Some m1) (merged_by_key all1) ->
  exists m2,
    In (key, Some m2) (merged_by_key all2)
    /\ (forall s, In s (sources m1) <-> In s (sources m2))
    /\ Permutation (postulaciones m1) (postulaciones m2).
Proof.
  intros Hperm Hin. unfold merged_by_key in *.
  apply in_map_iff in Hin as [[k group1] [Heq Hin]].
  injection Heq as -> Hm1.
  apply in_groups in Hin as [Hne1 Hg1].
  assert (Hfiltered : Permutation (filter_people all1) (filter_people all2)).
  { rewrite !filter_people_spec. apply Permutation_map, filter_Permutation, Hperm. }
  set (group2 := group_of (filter_people all2) key).
  assert (Hgroups : Permutation group1 group2).
  { rewrite Hg1. apply filter_Permutation, Hfiltered. }
  assert (Hne2 : group2 <> []).
  { intros E. rewrite E in Hgroups. apply Permutation_sym, Permutation_nil in Hgroups.
    contradiction. }
  destruct (merge_group_some group2 Hne2) as [m2 Hm2].
  exists m2. split.
  - apply in_map_iff. exists (key, group2). split; [rewrite Hm2; reflexivity|].
    apply in_groups. split; [exact Hne2 | reflexivity].
  - destruct (merge_group_lists group1 m1 Hm1) as [-> ->].
    destruct (merge_group_lists group2 m2 Hm2) as [-> ->].
    split.
    + intros s. rewrite !in_distinct.
      split; apply Permutation_in, Permutation_map;
        [exact Hgroups | apply Permutation_sym, Hgroups].
    + apply Permutation_flat_map, Hgroups.
Qed.

Lemma flat_map_Permutation_pointwise (A B : Type) (f g : A -> list B) (l : list A) :
  (forall x, Permutation (f x) (g x)) -> Permutation (flat_map f l) (flat_map g l).
Proof.
  intros H. induction l as [|x l IH]; simpl; [constructor|].
  apply Permutation_app; [apply H | exact IH].
Qed.

Lemma read_csv_file_same_rows (fs1 fs2 : csv_files) (filename : Py.str) :
  same_rows fs1 fs2 ->
  Permutation (read_csv_file fs1 filename) (read_csv_file fs2 filename).
Proof.
  intros H. specialize (H filename). unfold read_csv_file.
  destruct (fs1 filename) as [t1|], (fs2 filename) as [t2|]; try contradiction;
    [|constructor].
  destruct H as [Hnames Hrows]. unfold extract_rows. rewrite Hnames.
  apply Permutation_map, Hrows.
Qed.

Lemma same_rows_sym (fs1 fs2 : csv_files) : same_rows fs1 fs2 -> same_rows fs2 fs1.
Proof.
  intros H filename. specialize (H filename).
  destruct (fs1 filename), (fs2 filename); try exact H.
  destruct H as [Hn Hr]. split; [symmetry; exact Hn | apply Permutation_sym, Hr].
Qed.

Lemma all_people_Permutation (fs1 fs2 : csv_files) (filenames1 filenames2 : list Py.str) :
  same_rows fs1 fs2 -> Permutation filenames1 filenames2 ->
  Permutation (flat_map (read_csv_file fs1) filenames1)
              (flat_map (read_csv_file fs2) filenames2).
Proof.
  intros Hrows Hfiles.
  apply Permutation_trans with (flat_map (read_csv_file fs1) filenames2).
  - apply Permutation_flat_map, Hfiles.
  - apply flat_map_Permutation_pointwise. intros filename.
    apply read_csv_file_same_rows, Hrows.
Qed.

Lemma merged_by_key_keys (all_people : list raw_record) :
  NoDup (map fst (merged_by_key all_people)).
Proof.
  unfold merged_by_key. rewrite map_map.
  destruct (group_people_grouped (filter_people all_people)) as (Hnd & _).
  unfold Dict.keys in Hnd.
  erewrite map_ext; [exact Hnd|]. intros [key group]. reflexivity.
Qed.

(** C8: when two runs read the same files in two orders, with the rows of
    each file in two orders, every group key has one merged record in each
    run, and the two have the same set of sources and the same submissions
    up to order. *)
Theorem merge_is_order_insensitive
    (fs1 fs2 : csv_files) (filenames1 filenames2 : list Py.str) :
  same_rows fs1 fs2 ->
  Permutation filenames1 filenames2 ->
  let run1 := merged_by_key (flat_map (read_csv_file fs1) filenames1) in
  let run2 := merged_by_key (flat_map (read_csv_file fs2) filenames2) in
  NoDup (map fst run1) /\ NoDup (map fst run2)
  /\ (forall key m1,
         In (key, Some m1) run1 ->
         exists m2,
           In (key, Some m2) run2
           /\ (forall s, In s (sources m1) <-> In s (sources m2))
           /\ Permutation (postulaciones m1) (postulaciones m2))
  /\ (forall key m2,
         In (key, Some m2) run2 ->
         exists m1,
           In (key, Some m1) run1
           /\ (forall s, In s (sources m1) <-> In s (sources m2))
           /\ Permutation (postulaciones m1) (postulaciones m2)).
Proof.
  intros Hrows Hfiles run1 run2.
  pose proof (all_people_Permutation fs1 fs2 filenames1 filenames2 Hrows Hfiles) as Hall.
  split; [apply merged_by_key_keys|]. split; [apply merged_by_key_keys|]. split.
  - intros key m1 Hin. apply (merged_by_key_Permutation _ _ key m1 Hall Hin).
  - intros key m2 Hin.
    destruct (merged_by_key_Permutation _ _ key m2 (Permutation_sym Hall) Hin)
      as [m1 [Hin1 [Hs Hp]]].
    exists m1. split; [exact Hin1|]. split.
    + intros s. symmetry. apply Hs.
    + apply Permutation_sym, Hp.
Qed.

Lemma merge_is_order_insensitive_example :
  let disk1 := survey_disk [ana_row; luis_row] [ana_again_row] in
  let disk2 := survey_disk [luis_row; ana_row] [ana_again_row] in
  let files1 := [Py.lit "./sources/2023-1.csv"; Py.lit "./sources/2023-2.csv"] in
  let files2 := [Py.lit "./sources/2023-2.csv"; Py.lit "./sources/2023-1.csv"] in
  exists m1 m2,
    In (Py.lit "ana@uc.cl", Some m1) (merged_by_key (flat_map (read_csv_file disk1) files1))
    /\ In (Py.lit "ana@uc.cl", Some m2) (merged_by_key (flat_map (read_csv_file disk2) files2))
    /\ length (postulaciones m1) = 2
    /\ (forall s, In s (sources m1) <-> In s (sources m2))
    /\ Permutation (postulaciones m1) (postulaciones m2).
Proof.
  intros disk1 disk2 files1 files2.
  assert (Hrows : same_rows disk1 disk2).
  { intros filename. unfold disk1, disk2, survey_disk.
    destruct (Py.eqb filename (Py.lit "./sources/2023-1.csv"));
      [split; [reflexivity | apply perm_swap]|].
    destruct (Py.eqb filename (Py.lit "./sources/2023-2.csv"));
      [split; [reflexivity | apply Permutation_refl] | exact I]. }
  assert (Hfiles : Permutation files1 files2) by apply perm_swap.
  assert (H1 : exists m1,
             In (Py.lit "ana@uc.cl", Some m1)
                (merged_by_key (flat_map (read_csv_file disk1) files1))
             /\ length (postulaciones m1) = 2).
  { eexists. split; [vm_compute; left; reflexivity | reflexivity]. }
  destruct H1 as [m1 [H1 Hn]].
  destruct (merge_is_order_insensitive disk1 disk2 files1 files2 Hrows Hfiles)
    as (_ & _ & Hforward & _).
  destruct (Hforward (Py.lit "ana@uc.cl") m1 H1) as [m2 [H2 [Hs Hp]]].
  exists m1, m2. repeat split; try assumption; apply Hs.
Defined.

(** X2: [process_csv_files] returns the merged records of the groups, in the
    order of their keys. *)
Lemma process_csv_files_by_key (fs : csv_files) (filenames : list Py.str) :
  exists result,
    process_csv_files fs filenames = Some result
    /\ map snd (merged_by_key (flat_map (read_csv_file fs) filenames)) = map Some result.
Proof.
  unfold process_csv_files, merged_by_key, identity_groups.
  set (people := filter_people (flat_map (read_csv_file fs) filenames)).
  assert (H : forall key group, In (key, group) (group_people people) -> group <> []).
  { intros key group Hin. apply in_groups in Hin. apply Hin. }
  induction (group_people people) as [|[key group] groups IH].
  - exists []. split; reflexivity.
  - destruct IH as [result [Hr Hm]]; [intros k g Hin; apply (H k g); right; exact Hin|].
    destruct (merge_group_some group (H key group (or_introl eq_refl))) as [m Hg].
    exists (m :: result). unfold Dict.values in *. cbn [map merge_groups snd].
    rewrite Hg, Hr, Hm. split; reflexivity.
Qed.

(** X3: Merging a group of one record changes nothing: the contact fields are
    those of the record, its submission is kept when it has an answer, and
    its source is the only source. *)
Theorem merge_single_record (fs : csv_files) (filenames : list Py.str) (key : Py.str)
    (person : raw_record) :
  In (key, [person]) (identity_groups fs filenames) ->
  exists m,
    merge_group [person] = Some m
    /\ (forall f, get_field m f = get_contact person f)
    /\ postulaciones m = submission person
    /\ sources m = [source person].
Proof.
  intros Hin.
  pose proof (identity_group_members fs filenames key [person]) as Hshape.
  specialize (fun p => Hshape p Hin).
  destruct (merge_group_fields person []) as [m [Hm Hf]].
  exists m. split; [exact Hm|]. split.
  - intros f. rewrite Hf, (offered_values [person] f Hshape).
    cbn [map fold_left]. apply resolve_step_same.
  - destruct (merge_group_lists [person] m Hm) as [-> ->]. split.
    + simpl. apply app_nil_r.
    + reflexivity.
Qed.

Lemma merge_single_record_example :
  exists person m,
    In (Py.lit "luis@uc.cl", [person])
       (identity_groups (survey_disk [ana_row; luis_row] [ana_again_row])
                        [Py.lit "./sources/2023-1.csv"; Py.lit "./sources/2023-2.csv"])
    /\ merge_group [person] = Some m
    /\ nombre m = Py.lit "Luis"
    /\ length (postulaciones m) = 1
    /\ sources m = [Py.lit "./sources/2023-1.csv"].
Proof.
  assert (H : exists person,
             In (Py.lit "luis@uc.cl", [person])
                (identity_groups (survey_disk [ana_row; luis_row] [ana_again_row])
                   [Py.lit "./sources/2023-1.csv"; Py.lit "./sources/2023-2.csv"])
             /\ get_contact person Nombre = Py.lit "Luis"
             /\ length (submission person) = 1
             /\ source person = Py.lit "./sources/2023-1.csv").
  { eexists. split; [vm_compute; right; left; reflexivity|].
    repeat split; vm_compute; reflexivity. }
  destruct H as [person (Hin & Hname & Hsub & Hsrc)].
  destruct (merge_single_record _ _ _ _ Hin) as [m (Hm & Hf & Hp & Hs)].
  exists person, m. split; [exact Hin|]. split; [exact Hm|].
  split; [rewrite <- Hname; apply (Hf Nombre)|].
  split; [rewrite Hp; exact Hsub | rewrite Hs, Hsrc; reflexivity].
Defined.

(** The end-to-end scenario of the specification: two files with one row
    each for the same e-mail give one person with two submissions and two
    sources. *)
Lemma same_email_in_two_files :
  option_map
    (map (fun m => (correo m, length (postulaciones m), length (sources m))))
    (process_csv_files two_file_disk
       [Py.lit "./sources/2023-1.csv"; Py.lit "./sources/2023-2.csv"])
  = Some [(Py.lit "ana@uc.cl", 2, 2)].
Proof. vm_compute. reflexivity. Qed.

(** ** Attendance tables *)

(** C4: the statistics are computed from the statuses recorded for a person,
    and a blank cell shifts the statuses of the row to the left: in the
    two-person table, Luis's "A" of session S1 is recorded for Ana, who then
    counts 2 attended sessions out of 2 and a rate of 100.0, and Luis counts
    none. *)
Theorem parse_markdown_table_shifts_blank_cells :
  summary (parse_markdown_table (Py.lit "./sources/attendance/curso.md") blank_cell_table)
  = Some [ (Py.lit "Ana",
            [(Py.lit "S1", Py.lit "A"); (Py.lit "S2", Py.lit "X")],
            {| total_sessions := 2; attended := 2; justified := 0;
               attendance_rate := Float 100 |});
           (Py.lit "Luis",
            [(Py.lit "S2", Py.lit "J")],
            {| total_sessions := 2; attended := 0; justified := 1;
               attendance_rate := Float 0 |}) ].
Proof. vm_compute. reflexivity. Qed.

(** The example of the specification, on a table with one person. *)
Lemma parse_markdown_table_ten_sessions :
  option_map (map (fun '(name, r) => (name, attendance_stats r)))
             (parse_markdown_table (Py.lit "./sources/attendance/curso.md") ten_session_table)
  = Some [ (Py.lit "Ana",
            {| total_sessions := 10; attended := 8; justified := 0;
               attendance_rate := Float 80 |}) ].
Proof. vm_compute. reflexivity. Qed.

Lemma set_entries (V : Type) (P : Py.str -> V -> Prop) (d : Dict.dict Py.str V)
    (k : Py.str) (v : V) :
  (forall k' v', In (k', v') d -> P k' v') -> P k v ->
  forall k' v', In (k', v') (Dict.set Py.eqb d k v) -> P k' v'.
Proof.
  intros Hd Hv. induction d as [|[k0 v0] d IH]; simpl.
  - intros k' v' [H|[]]. injection H as <- <-. exact Hv.
  - destruct (Py.eqb k0 k) eqn:E.
    + apply eqb_eq in E. subst k0. intros k' v' [H|H].
      * injection H as <- <-. exact Hv.
      * apply Hd. right. exact H.
    + intros k' v' [H|H].
      * apply Hd. left. exact H.
      * apply IH; [|exact H]. intros k1 v1 H1. apply Hd. right. exact H1.
Qed.

Lemma set_length (V : Type) (d : Dict.dict Py.str V) (k : Py.str) (v : V) :
  length (Dict.set Py.eqb d k v) <= S (length d).
Proof.
  induction d as [|[k0 v0] d IH]; simpl; [lia|].
  destruct (Py.eqb k0 k); simpl; lia.
Qed.

Lemma sessions_of_length (sessions : Dict.dict Py.str (Dict.dict Py.str Py.str))
    (person_name : Py.str) :
  length (sessions_of sessions person_name) <= length sessions.
Proof.
  unfold sessions_of.
  assert (H : forall init,
             length (fold_left
                       (fun person_sessions '(session_name, session_data) =>
                          match Dict.get Py.eqb session_data person_name with
                          | Some status => Dict.set Py.eqb person_sessions session_name status
                          | None => person_sessions
                          end) sessions init)
             <= length init + length sessions).
  { induction sessions as [|[session_name session_data] sessions IH]; intros init; simpl;
      [lia|].
    eapply Nat.le_trans; [apply IH|].
    destruct (Dict.get Py.eqb session_data person_name) as [status|]; [|lia].
    pose proof (set_length _ init session_name status). lia. }
  apply (H []).
Qed.

Lemma restructure_entries (course_name : Py.str) (header : list Py.str)
    (all_sessions : Dict.dict Py.str (Dict.dict Py.str Py.str)) (name : Py.str)
    (record : attendance_record) :
  In (name, record) (restructure course_name header all_sessions) ->
  record = {| course := course_name;
              sessions := sessions_of all_sessions name;
              attendance_stats := compute_stats all_sessions (sessions_of all_sessions name) |}.
Proof.
  unfold restructure.
  assert (H : forall names init,
             (forall k v, In (k, v) init ->
                          v = {| course := course_name;
                                 sessions := sessions_of all_sessions k;
                                 attendance_stats :=
                                   compute_stats all_sessions (sessions_of all_sessions k) |}) ->
             forall k v,
               In (k, v)
                  (fold_left
                     (fun attendance_by_person person_name =>
                        let person_sessions := sessions_of all_sessions person_name in
                        Dict.set Py.eqb attendance_by_person person_name
                          {| course := course_name;
                             sessions := person_sessions;
                             attendance_stats := compute_stats all_sessions person_sessions |})
                     names init) ->
               v = {| course := course_name;
                      sessions := sessions_of all_sessions k;
                      attendance_stats := compute_stats all_sessions (sessions_of all_sessions k) |}).
  { induction names as [|person_name names IH]; intros init Hinit; [exact Hinit|].
    cbn [fold_left]. apply IH.
    apply (set_entries _ (fun k v => v = _)); [exact Hinit | reflexivity]. }
  apply (H (tl header) []). intros k v [].
Qed.

Lemma status_counts (recorded : list Py.str) :
  length (filter (fun status => Py.eqb status (Py.lit "A") || Py.eqb status (Py.lit "X"))
                 recorded)
  + length (filter (fun status => Py.eqb status (Py.lit "J")) recorded)
  <= length recorded.
Proof.
  induction recorded as [|status recorded IH]; simpl; [lia|].
  destruct (Py.eqb status (Py.lit "A")) eqn:EA.
  - apply eqb_eq in EA. subst status. simpl. lia.
  - destruct (Py.eqb status (Py.lit "X")) eqn:EX.
    + apply eqb_eq in EX. subst status. simpl. lia.
    + simpl. destruct (Py.eqb status (Py.lit "J")); simpl; lia.
Qed.

(** X4: The statistics of every person of a parsed table, in terms of the
    statuses that the table recorded for the person. *)
Theorem stats_of_recorded_sessions (file_path : Py.str) (lines : list Py.str)
    (parsed : Dict.dict Py.str attendance_record) (name : Py.str) (record : attendance_record) :
  parse_markdown_table file_path lines = Some parsed ->
  In (name, record) parsed ->
  let recorded := Dict.values (sessions record) in
  let s := attendance_stats record in
  attended s
  = length (filter (fun status => Py.eqb status (Py.lit "A") || Py.eqb status (Py.lit "X"))
                   recorded)
  /\ justified s = length (filter (fun status => Py.eqb status (Py.lit "J")) recorded)
  /\ attended s + justified s <= length recorded <= total_sessions s
  /\ attendance_rate s
     = match total_sessions s with
       | O => Int 0
       | _ => Float (round2 (PrimFloat.mul (truediv (attended s) (total_sessions s))
                                           (float_of_Z 100)))
       end.
Proof.
  unfold parse_markdown_table.
  destruct (skipn (table_start_from lines 0) lines) as [|first_line rest] eqn:E; [discriminate|].
  intros H Hin. injection H as <-.
  apply restructure_entries in Hin. subst record. cbv zeta. cbn [sessions attendance_stats].
  unfold compute_stats. cbn [attended justified total_sessions attendance_rate].
  split; [reflexivity|]. split; [reflexivity|]. split; [|reflexivity].
  split; [apply status_counts|].
  unfold Dict.values. rewrite length_map. apply sessions_of_length.
Qed.

Lemma stats_of_recorded_sessions_example :
  exists parsed record,
    parse_markdown_table (Py.lit "./sources/attendance/curso.md") ten_session_table
    = Some parsed
    /\ In (Py.lit "Ana", record) parsed
    /\ attended (attendance_stats record) = 8
    /\ total_sessions (attendance_stats record) = 10
    /\ attendance_rate (attendance_stats record) = Float 80.
Proof.
  assert (H : exists parsed record,
             parse_markdown_table (Py.lit "./sources/attendance/curso.md") ten_session_table
             = Some parsed
             /\ In (Py.lit "Ana", record) parsed).
  { eexists. eexists. split; [vm_compute; reflexivity | left; reflexivity]. }
  destruct H as [parsed [record [Hparsed Hin]]].
  exists parsed, record. split; [exact Hparsed|]. split; [exact Hin|].
  destruct (stats_of_recorded_sessions _ _ _ _ _ Hparsed Hin) as (Ha & _ & _ & Hr).
  rewrite Hr, Ha.
  injection Hparsed as <-. destruct Hin as [Hin|[]]. injection Hin as <-.
  repeat split; vm_compute; reflexivity.
Defined.

(** ** Matching names *)

Lemma Qmax_le (t a b : Q) : (t <= Qmax a b <-> t <= a \/ t <= b)%Q.
Proof.
  unfold Qmax. destruct (Qle_bool a b) eqn:E.
  - apply Qle_bool_iff in E. split; [tauto|]. intros [H|H]; [|exact H].
    apply Qle_trans with a; assumption.
  - assert (Hba : (b <= a)%Q).
    { destruct (Qlt_le_dec a b) as [H|H]; [|exact H].
      apply Qlt_le_weak, Qle_bool_iff in H. congruence. }
    split; [tauto|]. intros [H|H]; [exact H|].
    apply Qle_trans with b; assumption.
Qed.

Lemma Qmax_lt (t a b : Q) : (t < Qmax a b <-> t < a \/ t < b)%Q.
Proof.
  unfold Qmax. destruct (Qle_bool a b) eqn:E.
  - apply Qle_bool_iff in E. split; [tauto|]. intros [H|H]; [|exact H].
    apply Qlt_le_trans with a; assumption.
  - assert (Hba : (b <= a)%Q).
    { destruct (Qlt_le_dec a b) as [H|H]; [|exact H].
      apply Qlt_le_weak, Qle_bool_iff in H. congruence. }
    split; [tauto|]. intros [H|H]; [exact H|].
    apply Qlt_le_trans with b; assumption.
Qed.

Lemma Qle_bool_false (a b : Q) : Qle_bool a b = false <-> (b < a)%Q.
Proof.
  split.
  - intros E. destruct (Qlt_le_dec b a) as [H|H]; [exact H|].
    apply Qle_bool_iff in H. congruence.
  - intros H. destruct (Qle_bool a b) eqn:E; [|reflexivity].
    apply Qle_bool_iff in E. exfalso. apply (Qlt_not_le b a); assumption.
Qed.

Lemma jaccard_positive (a b : list Py.str) :
  0 < length (intersection a b) -> (0 < jaccard a b)%Q.
Proof.
  intros H. unfold jaccard, Qlt. simpl. lia.
Qed.

Lemma union_positive (a b : list Py.str) :
  0 < length (intersection a b) -> 0 < length (union a b).
Proof.
  unfold intersection, union, to_set. intros H.
  destruct (filter _ a) as [|w ws] eqn:E; [simpl in H; lia|].
  assert (Hw : In w (nodup Py.str_eq_dec (a ++ b))).
  { apply nodup_In, in_or_app. left.
    assert (Hin : In w (w :: ws)) by (left; reflexivity).
    rewrite <- E in Hin. apply filter_In in Hin. apply Hin. }
  destruct (nodup Py.str_eq_dec (a ++ b)); [contradiction | simpl; lia].
Qed.

(** The best score, as the specification computes it, against a threshold. *)
Lemma best_score_half (name : Py.str) (people_data : list merged) :
  (1 # 2 <= best_score name_words name people_data)%Q
  <-> half_overlap (name_words name) people_data.
Proof.
  unfold half_overlap. induction people_data as [|person people_data IH]; simpl.
  - split; [intros H; exfalso; revert H; apply Qlt_not_le; reflexivity|].
    intros [person [[] _]].
  - destruct (0 <? length (intersection (name_words name) (name_words (nombre person))))
      eqn:E.
    + apply Nat.ltb_lt in E. rewrite Qmax_le, IH. split.
      * intros [H|[p [Hp H]]]; [exists person; tauto | exists p; tauto].
      * intros [p [[<-|Hp] [Ho Hj]]]; [left; exact Hj | right; exists p; tauto].
    + apply Nat.ltb_ge in E. rewrite IH. split.
      * intros [p [Hp H]]. exists p. tauto.
      * intros [p [[<-|Hp] [Ho Hj]]]; [lia | exists p; tauto].
Qed.

Lemma best_score_positive (name : Py.str) (people_data : list merged) :
  (0 < best_score name_words name people_data)%Q
  <-> some_overlap (name_words name) people_data.
Proof.
  unfold some_overlap. induction people_data as [|person people_data IH]; simpl.
  - split; [intros H; exfalso; revert H; apply Qlt_irrefl|].
    intros [person [[] _]].
  - destruct (0 <? length (intersection (name_words name) (name_words (nombre person))))
      eqn:E.
    + apply Nat.ltb_lt in E. rewrite Qmax_lt, IH. split.
      * intros [H|[p [Hp H]]]; [exists person; tauto | exists p; tauto].
      * intros [p [[<-|Hp] Ho]]; [left; apply jaccard_positive, Ho | right; exists p; tauto].
    + apply Nat.ltb_ge in E. rewrite IH. split.
      * intros [p [Hp H]]. exists p. tauto.
      * intros [p [[<-|Hp] Ho]]; [lia | exists p; tauto].
Qed.

(** The loop of [match_person_name], from any state in which a best match is
    held exactly when the best score is positive. *)
Lemma match_from_spec (name : Py.str) (query_words : list Py.str) (people_data : list merged) :
  forall idx best_match best_match_score,
    (best_match <> None <-> (0 < best_match_score)%Q) ->
    match_from name query_words people_data idx best_match best_match_score <> None
    <-> (exists person, In person people_data /\ exact_match name (nombre person) = true)
        \/ ((1 # 2 <= best_match_score)%Q \/ half_overlap query_words people_data)
        \/ (((0 < best_match_score)%Q \/ some_overlap query_words people_data)
            /\ length query_words <= 2).
Proof.
  unfold half_overlap, some_overlap.
  induction people_data as [|person people_data IH]; intros idx best_match score Hinv.
  - cbn [match_from].
    destruct (Qle_bool (1 # 2) score) eqn:Ehalf.
    + apply Qle_bool_iff in Ehalf. cbn [orb]. rewrite Hinv. split; [tauto|]. intros _.
      apply Qlt_le_trans with (1 # 2)%Q; [reflexivity | exact Ehalf].
    + apply Qle_bool_false in Ehalf. cbn [orb].
      destruct (Qle_bool score 0) eqn:Ezero.
      * apply Qle_bool_iff in Ezero. cbn [negb andb]. split; [congruence|].
        intros [[p [[] _]]|[[H|[p [[] _]]]|[[H|[p [[] _]]] _]]].
        -- exfalso. apply (Qlt_not_le _ _ Ehalf H).
        -- exfalso. apply (Qlt_not_le _ _ H Ezero).
      * apply Qle_bool_false in Ezero. cbn [negb andb].
        destruct (length query_words <=? 2) eqn:Elen.
        -- apply Nat.leb_le in Elen. rewrite Hinv. tauto.
        -- apply Nat.leb_gt in Elen. split; [congruence|].
           intros [[p [[] _]]|[[H|[p [[] _]]]|[_ H]]].
           ++ exfalso. apply (Qlt_not_le _ _ Ehalf H).
           ++ lia.
  - cbn [match_from]. fold (name_words (nombre person)).
    destruct (exact_match name (nombre person)) eqn:Eexact.
    + split; [|discriminate]. intros _. left. exists person. split; [left; reflexivity | exact Eexact].
    + set (j := jaccard query_words (name_words (nombre person))).
      assert (Hexact : (exists p, In p (person :: people_data) /\ exact_match name (nombre p) = true)
                       <-> (exists p, In p people_data /\ exact_match name (nombre p) = true)).
      { split.
        - intros [p [[<-|Hp] H]]; [congruence | exists p; tauto].
        - intros [p [Hp H]]. exists p. split; [right; exact Hp | exact H]. }
      rewrite Hexact. clear Hexact.
      destruct (0 <? length (intersection query_words (name_words (nombre person)))) eqn:Eo.
      * apply Nat.ltb_lt in Eo.
        pose proof (union_positive _ _ Eo) as Hu. apply Nat.ltb_lt in Hu. rewrite Hu.
        cbn [andb].
        pose proof (jaccard_positive _ _ Eo) as Hj. fold j in Hj.
        destruct (Qle_bool j score) eqn:Ej; cbn [negb].
        -- apply Qle_bool_iff in Ej.
           rewrite (IH (S idx) best_match score Hinv). clear IH.
           split.
           ++ intros [H|[[H|[p [Hp H]]]|[[H|[p [Hp H]]] Hl]]]; try tauto.
              ** right. left. right. exists p. split; [right; exact Hp | exact H].
              ** right. right. split; [right; exists p; split; [right; exact Hp | exact H] | exact Hl].
           ++ intros [H|[[H|[p [[<-|Hp] [Ho H]]]]|[[H|[p [[<-|Hp] H]]] Hl]]]; try tauto.
              ** right. left. left. apply Qle_trans with j; assumption.
              ** right. left. right. exists p. tauto.
              ** right. right. split; [left; apply Qlt_le_trans with j; assumption | exact Hl].
              ** right. right. split; [right; exists p; tauto | exact Hl].
        -- apply Qle_bool_false in Ej.
           assert (Hinv' : Some idx <> None <-> (0 < j)%Q) by (split; [intros _; exact Hj | discriminate]).
           rewrite (IH (S idx) (Some idx) j Hinv'). clear IH.
           split.
           ++ intros [H|[[H|[p [Hp H]]]|[_ Hl]]]; try tauto.
              ** right. left. right. exists person. split; [left; reflexivity | tauto].
              ** right. left. right. exists p. split; [right; exact Hp | exact H].
              ** right. right. split; [right; exists person; split; [left; reflexivity | exact Eo] | exact Hl].
           ++ intros [H|[[H|[p [[<-|Hp] [Ho H]]]]|[_ Hl]]]; try tauto.
              ** right. left. left. apply Qle_trans with score; [exact H | apply Qlt_le_weak, Ej].
              ** right. left. right. exists p. tauto.
      * apply Nat.ltb_ge in Eo. rewrite andb_false_r. cbn [andb].
        rewrite (IH (S idx) best_match score Hinv). clear IH.
        split.
        -- intros [H|[[H|[p [Hp H]]]|[[H|[p [Hp H]]] Hl]]]; try tauto.
           ++ right. left. right. exists p. split; [right; exact Hp | exact H].
           ++ right. right. split; [right; exists p; split; [right; exact Hp | exact H] | exact Hl].
        -- intros [H|[[H|[p [[<-|Hp] [Ho H]]]]|[[H|[p [[<-|Hp] H]]] Hl]]]; try tauto; try lia.
           ++ right. left. right. exists p. tauto.
           ++ right. right. split; [right; exists p; tauto | exact Hl].
Qed.

(** C2: [match_person_name] returns a match exactly when some candidate
    equals the query after lower-casing or after normalisation, or the best
    Jaccard score over the candidates that share a word with the query is at
    least one half, or that score is positive and the query has at most two
    words; the word sets are those without the stop words, or the full word
    sets of the names that consist of stop words only. *)
Theorem match_person_name_accepts (name : Py.str) (people_data : list merged) :
  match_person_name name people_data <> None <-> accepts name_words name people_data = true.
Proof.
  unfold match_person_name. fold (name_words name).
  rewrite match_from_spec by (split; [congruence | intros H; exfalso; revert H; apply Qlt_irrefl]).
  unfold accepts. rewrite !orb_true_iff, andb_true_iff, negb_true_iff.
  rewrite Qle_bool_iff, Qle_bool_false, Nat.leb_le, existsb_exists.
  rewrite best_score_half, best_score_positive.
  split.
  - intros [H|[[H|H]|[[H|H] Hl]]]; try tauto.
    + exfalso. revert H. apply Qlt_not_le. reflexivity.
    + exfalso. revert H. apply Qlt_irrefl.
  - tauto.
Qed.

(** With the stop words dropped unconditionally the rule fails: the query "y"
    matches the entry "y e" (score one half on the unfiltered words), while
    both filtered word sets are empty. *)
Lemma match_person_name_stop_words_only :
  ~ (match_person_name (Py.lit "y") [registered (Py.lit "y e")] <> None
     <-> accepts stop_filtered_words (Py.lit "y") [registered (Py.lit "y e")] = true).
Proof.
  assert (Hm : match_person_name (Py.lit "y") [registered (Py.lit "y e")] = Some 0)
    by (vm_compute; reflexivity).
  assert (Ha : accepts stop_filtered_words (Py.lit "y") [registered (Py.lit "y e")] = false)
    by (vm_compute; reflexivity).
  rewrite Hm, Ha. intros [H _]. discriminate H. discriminate.
Qed.

Lemma match_from_exact (name : Py.str) (query_words : list Py.str) (people_data : list merged) :
  forall idx start best_match best_match_score person,
    nth_error people_data idx = Some person ->
    exact_match name (nombre person) = true ->
    (forall j other, j < idx -> nth_error people_data j = Some other ->
                     exact_match name (nombre other) = false) ->
    match_from name query_words people_data start best_match best_match_score
    = Some (start + idx).
Proof.
  induction people_data as [|first people_data IH];
    intros idx start best_match score person Hnth Hexact Hbefore.
  - destruct idx; discriminate.
  - destruct idx as [|idx].
    + injection Hnth as ->. cbn [match_from]. rewrite Hexact, Nat.add_0_r. reflexivity.
    + cbn [match_from].
      rewrite (Hbefore 0 first (Nat.lt_0_succ idx) eq_refl).
      assert (Hrest : forall bm bs,
                 match_from name query_words people_data (S start) bm bs
                 = Some (start + S idx)).
      { intros bm bs. rewrite (IH idx (S start) bm bs person Hnth Hexact).
        - f_equal. lia.
        - intros j other Hj Hother. apply (Hbefore (S j) other); [lia | exact Hother]. }
      destruct (_ && _); apply Hrest.
Qed.

(** X5: An exact match decides the outcome whatever the scores: the first entry
    whose name equals the query, after lower-casing or after normalisation,
    is returned. *)
Theorem exact_match_short_circuits (name : Py.str) (people_data : list merged) (idx : nat)
    (person : merged) :
  nth_error people_data idx = Some person ->
  exact_match name (nombre person) = true ->
  (forall j other, j < idx -> nth_error people_data j = Some other ->
                   exact_match name (nombre other) = false) ->
  match_person_name name people_data = Some idx.
Proof.
  intros Hnth Hexact Hbefore. unfold match_person_name.
  apply (match_from_exact name _ people_data idx 0 None 0%Q person Hnth Hexact Hbefore).
Qed.

Lemma exact_match_short_circuits_example :
  match_person_name (Py.lit "ana perez")
    [registered (Py.lit "Ana Soto Perez"); registered (Py.lit "Ana P" ++ [0xE9%N] ++ Py.lit "rez")]
  = Some 1.
Proof.
  apply (exact_match_short_circuits (Py.lit "ana perez") _ 1
           (registered (Py.lit "Ana P" ++ [0xE9%N] ++ Py.lit "rez"))).
  - reflexivity.
  - vm_compute. reflexivity.
  - intros j other Hj Hother. destruct j as [|j]; [|lia].
    injection Hother as <-. vm_compute. reflexivity.
Defined.

(** The threshold examples of the specification: a one-word query is rescued
    by its single shared word; a four-word query with one shared word and a
    score below one half is not matched. *)
Lemma threshold_rescue_examples :
  match_person_name (Py.lit "Ana")
    [registered (Py.lit "Ana Mar" ++ [0xED%N] ++ Py.lit "a P" ++ [0xE9%N] ++ Py.lit "rez")]
  = Some 0
  /\ match_person_name (Py.lit "Carlos Smith Jones Alvarez") [registered (Py.lit "Carlos Diaz")]
     = None.
Proof. split; vm_compute; reflexivity. Qed.

(** ** A missing attendance directory *)

(** C9: when the attendance directory does not exist,
    [process_attendance_files] returns the registry as it received it. *)
Theorem process_attendance_files_missing_directory
    (fs : attendance_fs) (people_data : list merged) (attendance_dir : Py.str) :
  path_exists fs attendance_dir = false ->
  process_attendance_files fs people_data attendance_dir = Some people_data.
Proof.
  intros H. unfold process_attendance_files. rewrite H. reflexivity.
Qed.

Lemma process_attendance_files_missing_directory_example :
  let fs := {| path_exists := fun _ => false;
               listdir := fun _ => None;
               readlines := fun _ => None |} in
  let ana := {| nombre := Py.lit "Ana"; nombre_normalized := Py.lit "ana";
                correo := Py.lit "ana@uc.cl"; telegram := []; carrera := [];
                generacion := []; postulaciones := []; sources := [Py.lit "2023-1.csv"];
                attendance := None |} in
  process_attendance_files fs [ana] (Py.lit "./sources/attendance") = Some [ana].
Proof.
  intros fs ana.
  apply (process_attendance_files_missing_directory fs [ana] (Py.lit "./sources/attendance")).
  reflexivity.
Defined.

(** ** The obfuscation utility *)

Lemma byte_of_to_N (b : byte) : Crypt.byte_of_N (Byte.to_N b) = b.
Proof. unfold Crypt.byte_of_N. rewrite Byte.of_to_N. reflexivity. Qed.

Lemma to_N_listed (b : byte) : In (Byte.to_N b) byte_values.
Proof.
  unfold byte_values. apply in_map_iff. exists (N.to_nat (Byte.to_N b)).
  split; [apply N2Nat.id|]. apply in_seq. pose proof (Byte.to_N_bounded b). lia.
Qed.

Lemma to_N_of_N (n : N) : (n < 256)%N -> Byte.to_N (Crypt.byte_of_N n) = n.
Proof.
  intros H.
  assert (Hall : forallb (fun m => (Byte.to_N (Crypt.byte_of_N m) =? m)%N) byte_values = true)
    by (vm_compute; reflexivity).
  rewrite forallb_forall in Hall. apply N.eqb_eq, Hall.
  unfold byte_values. apply in_map_iff. exists (N.to_nat n).
  split; [apply N2Nat.id|]. apply in_seq. lia.
Qed.

Lemma xor_involutive (p k : byte) : Crypt.xor (Crypt.xor p k) k = p.
Proof.
  assert (Hall : forallb (fun n => forallb (fun m =>
                   (Byte.to_N (Crypt.xor (Crypt.xor (Crypt.byte_of_N n) (Crypt.byte_of_N m))
                                         (Crypt.byte_of_N m)) =? n)%N) byte_values)
                   byte_values = true)
    by (vm_compute; reflexivity).
  rewrite forallb_forall in Hall. specialize (Hall _ (to_N_listed p)).
  rewrite forallb_forall in Hall. specialize (Hall _ (to_N_listed k)).
  rewrite !byte_of_to_N in Hall. apply N.eqb_eq in Hall.
  rewrite <- (byte_of_to_N (Crypt.xor (Crypt.xor p k) k)), Hall. apply byte_of_to_N.
Qed.

Lemma xor_bytes_length (data keystream : Crypt.bytes) :
  length keystream = length data -> length (Crypt.xor_bytes data keystream) = length data.
Proof.
  intros H. unfold Crypt.xor_bytes. rewrite length_map, length_combine. lia.
Qed.

Lemma xor_bytes_involutive (data keystream : Crypt.bytes) :
  length keystream = length data ->
  Crypt.xor_bytes (Crypt.xor_bytes data keystream) keystream = data.
Proof.
  revert keystream. induction data as [|p data IH]; intros [|k keystream] H;
    try reflexivity; try discriminate.
  unfold Crypt.xor_bytes in *. cbn [combine map].
  rewrite xor_involutive, IH by (simpl in H; lia). reflexivity.
Qed.

Lemma little_endian_length (length' : nat) (n : N) :
  length (Crypt.little_endian length' n) = length'.
Proof.
  revert n. induction length' as [|l IH]; intros n; simpl; [reflexivity|].
  rewrite IH. reflexivity.
Qed.

Lemma from_bytes_snoc (b : Crypt.bytes) (x : byte) :
  Crypt.from_bytes (b ++ [x]) = (Crypt.from_bytes b * 256 + Byte.to_N x)%N.
Proof. unfold Crypt.from_bytes. rewrite fold_left_app. reflexivity. Qed.

Lemma from_bytes_little_endian (length' : nat) (n : N) :
  Crypt.from_bytes (rev (Crypt.little_endian length' n)) = (n mod 256 ^ N.of_nat length')%N.
Proof.
  revert n. induction length' as [|l IH]; intros n.
  - simpl. rewrite N.mod_1_r. reflexivity.
  - cbn [Crypt.little_endian rev]. rewrite from_bytes_snoc, IH.
    rewrite to_N_of_N by (apply N.mod_lt; discriminate).
    rewrite Nat2N.inj_succ, N.pow_succ_r'.
    rewrite N.Div0.mod_mul_r, N.add_comm, (N.mul_comm 256). reflexivity.
Qed.

(** A length written with [to_bytes] is read back by [from_bytes]. *)
Lemma from_bytes_to_bytes (n : N) (length' : nat) (b : Crypt.bytes) :
  Crypt.to_bytes n length' = Some b -> Crypt.from_bytes b = n /\ length b = length'.
Proof.
  unfold Crypt.to_bytes. destruct (N.ltb_spec n (256 ^ N.of_nat length')); [|discriminate].
  intros H'. injection H' as <-. split.
  - rewrite from_bytes_little_endian. apply N.mod_small. assumption.
  - rewrite length_rev. apply little_endian_length.
Qed.

(** Reading back the three parts of an encrypted file. *)
Lemma read_back (filename_length filename_bytes encrypted : Crypt.bytes) :
  length filename_length = 16 ->
  firstn 16 (filename_length ++ filename_bytes ++ encrypted) = filename_length
  /\ firstn (length filename_bytes) (skipn 16 (filename_length ++ filename_bytes ++ encrypted))
     = filename_bytes
  /\ skipn (length filename_bytes) (skipn 16 (filename_length ++ filename_bytes ++ encrypted))
     = encrypted.
Proof.
  intros H.
  assert (Hskip : skipn 16 (filename_length ++ filename_bytes ++ encrypted)
                  = filename_bytes ++ encrypted).
  { rewrite <- H. rewrite skipn_app, skipn_all, Nat.sub_diag. reflexivity. }
  rewrite Hskip. repeat split.
  - rewrite <- H. rewrite firstn_app, firstn_all, Nat.sub_diag, firstn_O. apply app_nil_r.
  - rewrite firstn_app, firstn_all, Nat.sub_diag, firstn_O. apply app_nil_r.
  - rewrite skipn_app, skipn_all, Nat.sub_diag. reflexivity.
Qed.

Section KeystreamFacts.

Variable sha256 : Crypt.bytes -> Crypt.bytes.
Hypothesis digest_size : forall data, length (sha256 data) = 32.

(** The loop ends within one round per missing byte. *)
Lemma extend_keystream_ends (fuel : nat) (key : Crypt.bytes) (size : nat) :
  forall keystream temp,
    size <= length keystream + fuel ->
    exists result,
      Crypt.extend_keystream sha256 fuel key size keystream temp = Some result
      /\ size <= length result.
Proof.
  induction fuel as [|fuel IH]; intros keystream temp Hfuel.
  - cbn [Crypt.extend_keystream].
    destruct (Nat.ltb_spec (length keystream) size); [lia|].
    exists keystream. split; [reflexivity | assumption].
  - cbn [Crypt.extend_keystream].
    destruct (Nat.ltb_spec (length keystream) size).
    + apply IH. rewrite length_app, digest_size. lia.
    + exists keystream. split; [reflexivity | assumption].
Qed.

Lemma make_keystream_returns (key file_nonce : Crypt.bytes) (size : nat) :
  exists keystream,
    Crypt.make_keystream sha256 key file_nonce size = Some keystream
    /\ length keystream = size.
Proof.
  unfold Crypt.make_keystream.
  destruct (extend_keystream_ends size key size [] file_nonce) as [result [-> Hlen]];
    [simpl; lia|].
  eexists. split; [reflexivity|]. rewrite length_firstn. lia.
Qed.

End KeystreamFacts.

(** C10: decrypting what [encrypt_file] wrote, with the same passphrase,
    gives back the content of the original file.  The digest is 32 bytes
    long, decoding undoes encoding, and the passphrase, the salt and the file
    name can be encoded (otherwise [encrypt_file] raises). *)
Theorem encrypt_decrypt_round_trip
    (sha256 : Crypt.bytes -> Crypt.bytes)
    (pbkdf2_hmac_sha256 : Crypt.bytes -> Crypt.bytes -> N -> Crypt.bytes)
    (encode : Py.str -> option Crypt.bytes) (decode : Crypt.bytes -> option Py.str)
    (fs : Crypt.filesystem) (input_file encrypted_file output_file passphrase : Py.str)
    (plaintext filename_bytes : Crypt.bytes) :
  (forall data, length (sha256 data) = 32) ->
  (forall s b, encode s = Some b -> decode b = Some s) ->
  fs input_file = Some plaintext ->
  encode passphrase <> None ->
  encode (Py.lit "crmsaltissaltyyes") <> None ->
  encode (basename input_file ++ Py.lit "nonce") <> None ->
  encode (basename input_file) = Some filename_bytes ->
  (N.of_nat (length filename_bytes) < 2 ^ 128)%N ->
  exists fs1 fs2,
    Crypt.encrypt_file sha256 pbkdf2_hmac_sha256 encode fs input_file encrypted_file passphrase
    = Some fs1
    /\ Crypt.decrypt_file sha256 pbkdf2_hmac_sha256 encode decode fs1 encrypted_file
                          output_file passphrase
       = Some fs2
    /\ fs2 output_file = Some plaintext.
Proof.
  intros Hdigest Hcodec Hfile Hpass Hsalt Hnonce Hname Hlen.
  unfold Crypt.encrypt_file, Crypt.decrypt_file, Crypt.derive_key_from_passphrase,
    Crypt.file_nonce_of.
  rewrite Hfile.
  destruct (encode (Py.lit "crmsaltissaltyyes")) as [salt|] eqn:Esalt; [|congruence].
  destruct (encode passphrase) as [password|] eqn:Epass; [|congruence].
  destruct (encode (basename input_file ++ Py.lit "nonce")) as [nonce_name|] eqn:Enonce;
    [|congruence].
  destruct (make_keystream_returns sha256 Hdigest (pbkdf2_hmac_sha256 password salt 100000%N)
              (firstn 16 (sha256 nonce_name)) (length plaintext))
    as [keystream [Hks Hkslen]].
  rewrite Hks, Hname.
  destruct (Crypt.to_bytes (N.of_nat (length filename_bytes)) 16) as [filename_length|] eqn:Eto.
  2:{ unfold Crypt.to_bytes in Eto.
      destruct (N.ltb_spec (N.of_nat (length filename_bytes)) (256 ^ N.of_nat 16));
        [discriminate|].
      change (256 ^ N.of_nat 16)%N with (2 ^ 128)%N in *. lia. }
  destruct (from_bytes_to_bytes _ _ _ Eto) as [Hfrom Hlen16].
  eexists. eexists. split; [reflexivity|].
  unfold Crypt.write at 1. rewrite eqb_refl.
  destruct (read_back filename_length filename_bytes
              (Crypt.xor_bytes plaintext keystream) Hlen16) as (Hread1 & Hread2 & Hread3).
  rewrite Hread1, Hfrom, Nat2N.id, Hread2, Hread3.
  rewrite (Hcodec _ _ Hname), Enonce.
  rewrite xor_bytes_length by exact Hkslen.
  rewrite Hks.
  split; [reflexivity|].
  unfold Crypt.write. rewrite eqb_refl.
  rewrite xor_bytes_involutive by exact Hkslen. reflexivity.
Qed.

Lemma ascii_codec (s : Py.str) (b : Crypt.bytes) :
  ascii_encode s = Some b -> ascii_decode b = Some s.
Proof.
  unfold ascii_encode, ascii_decode.
  destruct (forallb (fun c => (c <? 128)%N) s) eqn:E; [|discriminate].
  intros H. injection H as <-. f_equal.
  induction s as [|c s IH]; [reflexivity|].
  simpl in E. apply andb_true_iff in E as [Hc Hs]. apply N.ltb_lt in Hc.
  simpl. rewrite to_N_of_N by lia. rewrite IH by exact Hs. reflexivity.
Qed.

Lemma encrypt_decrypt_round_trip_example :
  exists fs1 fs2,
    Crypt.encrypt_file constant_digest constant_key ascii_encode notes_disk
      (Py.lit "data/notes.txt") (Py.lit "out/notes.txt.enc") (Py.lit "secret")
    = Some fs1
    /\ Crypt.decrypt_file constant_digest constant_key ascii_encode ascii_decode fs1
         (Py.lit "out/notes.txt.enc") (Py.lit "back/notes.txt") (Py.lit "secret")
       = Some fs2
    /\ fs2 (Py.lit "back/notes.txt") = Some [x68; x6f; x6c; x61; x0a].
Proof.
  apply (encrypt_decrypt_round_trip constant_digest constant_key ascii_encode ascii_decode
           notes_disk (Py.lit "data/notes.txt") (Py.lit "out/notes.txt.enc")
           (Py.lit "back/notes.txt") (Py.lit "secret") [x68; x6f; x6c; x61; x0a]
           (map Crypt.byte_of_N (Py.lit "notes.txt"))).
  - intros data. reflexivity.
  - exact ascii_codec.
  - reflexivity.
  - discriminate.
  - discriminate.
  - discriminate.
  - reflexivity.
  - vm_compute. reflexivity.
Defined.

(** ** The candidate that the matcher returns *)

Lemma match_from_bound (name : Py.str) (query_words : list Py.str) (people_data : list merged) :
  forall start best_match best_match_score idx,
    (forall i, best_match = Some i -> i < start) ->
    match_from name query_words people_data start best_match best_match_score = Some idx ->
    idx < start + length people_data.
Proof.
  induction people_data as [|person people_data IH]; intros start bm bs idx Hbm H.
  - cbn [match_from] in H. destruct (_ || _); [|discriminate].
    simpl. rewrite Nat.add_0_r. apply Hbm, H.
  - cbn [match_from] in H.
    destruct (exact_match name (nombre person)).
    + injection H as <-. simpl. lia.
    + destruct (_ && _).
      * apply IH in H; [simpl; lia|]. intros i Hi. injection Hi as <-. lia.
      * apply IH in H; [simpl; lia|]. intros i Hi. specialize (Hbm i Hi). lia.
Qed.

Lemma match_person_name_in_bounds_aux (name : Py.str) (people_data : list merged) (idx : nat) :
  match_person_name name people_data = Some idx -> idx < length people_data.
Proof.
  unfold match_person_name. intros H.
  apply match_from_bound in H; [exact H|]. intros i Hi. discriminate.
Qed.

(** X6: The index that [match_person_name] returns is an index of the registry;
    in particular nothing matches in an empty registry. *)
Theorem match_person_name_in_bounds (name : Py.str) (people_data : list merged) (idx : nat) :
  match_person_name name people_data = Some idx -> idx < length people_data.
Proof. apply match_person_name_in_bounds_aux. Qed.

Lemma match_person_name_in_bounds_example :
  match_person_name (Py.lit "Ana") [registered (Py.lit "Luis Soto"); registered (Py.lit "Ana Soto")]
  = Some 1
  /\ 1 < 2.
Proof.
  assert (H : match_person_name (Py.lit "Ana")
                [registered (Py.lit "Luis Soto"); registered (Py.lit "Ana Soto")] = Some 1)
    by (vm_compute; reflexivity).
  split; [exact H|].
  apply (match_person_name_in_bounds _ _ _ H).
Defined.

Lemma nth_error_snoc (A : Type) (l : list A) (x : A) (j : nat) (y : A) :
  nth_error (l ++ [x]) j = Some y ->
  (j < length l /\ nth_error l j = Some y) \/ (j = length l /\ y = x).
Proof.
  intros H. destruct (Nat.lt_ge_cases j (length l)) as [Hj|Hj].
  - left. split; [exact Hj|]. rewrite nth_error_app1 in H by exact Hj. exact H.
  - right. rewrite nth_error_app2 in H by exact Hj.
    destruct (j - length l) as [|k] eqn:E.
    + simpl in H. injection H as <-. split; [lia | reflexivity].
    + simpl in H. destruct k; discriminate.
Qed.

Lemma loop_state_step (query_words : list Py.str) (seen : list merged) (person : merged)
    (best_match : option nat) (best_match_score : Q) :
  loop_state query_words seen best_match best_match_score ->
  loop_state query_words (seen ++ [person])
    (if (0 <? length (union query_words (name_words (nombre person))))
        && (0 <? overlap query_words person)
        && negb (Qle_bool (score query_words person) best_match_score)
     then Some (length seen) else best_match)
    (if (0 <? length (union query_words (name_words (nombre person))))
        && (0 <? overlap query_words person)
        && negb (Qle_bool (score query_words person) best_match_score)
     then score query_words person else best_match_score).
Proof.
  intros Hstate.
  destruct (0 <? overlap query_words person) eqn:Eo.
  - apply Nat.ltb_lt in Eo.
    pose proof (union_positive _ _ Eo) as Hu. apply Nat.ltb_lt in Hu. rewrite Hu. cbn [andb].
    destruct (Qle_bool (score query_words person) best_match_score) eqn:Ej; cbn [negb].
    + apply Qle_bool_iff in Ej.
      destruct best_match as [idx|].
      * destruct Hstate as [(best & Hnth & Hov & Hall & Hbefore) (p & Hp & Hscore)].
        assert (best = p) by congruence. subst p.
        split.
        -- exists best. split; [rewrite nth_error_app1; [exact Hnth|];
                                 apply nth_error_Some; congruence|].
           split; [exact Hov|]. split.
           ++ intros j other Hj Ho. apply nth_error_snoc in Hj as [[_ Hj]|[_ ->]].
              ** apply (Hall j other Hj Ho).
              ** rewrite <- Hscore. exact Ej.
           ++ intros j other Hlt Hj Ho. apply nth_error_snoc in Hj as [[_ Hj]|[Hj' _]].
              ** apply (Hbefore j other Hlt Hj Ho).
              ** assert (idx < length seen) by (apply nth_error_Some; congruence). lia.
        -- exists best. split; [|exact Hscore].
           rewrite nth_error_app1; [exact Hnth|]. apply nth_error_Some. congruence.
      * destruct Hstate as [-> _]. exfalso.
        apply (Qlt_not_le _ _ (jaccard_positive _ _ Eo) Ej).
    + apply Qle_bool_false in Ej.
      assert (Hhere : nth_error (seen ++ [person]) (length seen) = Some person).
      { rewrite nth_error_app2 by lia. rewrite Nat.sub_diag. reflexivity. }
      split; [|exists person; split; [exact Hhere | reflexivity]].
      exists person. split; [exact Hhere|]. split; [exact Eo|].
      assert (Hearlier : forall j other,
                 nth_error seen j = Some other -> 0 < overlap query_words other ->
                 (score query_words other < score query_words person)%Q).
      { intros j other Hj Ho. destruct best_match as [idx|].
        - destruct Hstate as [(best & Hnth & Hov & Hall & Hbefore) (p & Hp & Hscore)].
          assert (best = p) by congruence. subst p.
          apply Qle_lt_trans with (score query_words best); [apply (Hall j other Hj Ho)|].
          rewrite <- Hscore. exact Ej.
        - destruct Hstate as [_ Hnone].
          assert (Hin : In other seen) by (apply nth_error_In with j; exact Hj).
          specialize (Hnone other Hin). lia. }
      split.
      * intros j other Hj Ho. apply nth_error_snoc in Hj as [[_ Hj]|[_ ->]].
        -- apply Qlt_le_weak, (Hearlier j other Hj Ho).
        -- apply Qle_refl.
      * intros j other Hlt Hj Ho. apply nth_error_snoc in Hj as [[_ Hj]|[Hj' _]].
        -- apply (Hearlier j other Hj Ho).
        -- lia.
  - apply Nat.ltb_ge in Eo. rewrite andb_false_r. cbn [andb].
    destruct best_match as [idx|].
    + destruct Hstate as [(best & Hnth & Hov & Hall & Hbefore) (p & Hp & Hscore)].
      assert (best = p) by congruence. subst p.
      assert (Hidx : idx < length seen) by (apply nth_error_Some; congruence).
      split.
      * exists best. split; [rewrite nth_error_app1 by exact Hidx; exact Hnth|].
        split; [exact Hov|]. split.
        -- intros j other Hj Ho. apply nth_error_snoc in Hj as [[_ Hj]|[_ ->]].
           ++ apply (Hall j other Hj Ho).
           ++ lia.
        -- intros j other Hlt Hj Ho. apply nth_error_snoc in Hj as [[_ Hj]|[Hj' _]].
           ++ apply (Hbefore j other Hlt Hj Ho).
           ++ lia.
      * exists best. split; [|exact Hscore]. rewrite nth_error_app1 by exact Hidx. exact Hnth.
    + destruct Hstate as [Hzero Hnone]. split; [exact Hzero|].
      intros p Hp. apply in_app_or in Hp as [Hp|[<-|[]]]; [apply Hnone, Hp | lia].
Qed.

Lemma match_from_best (name : Py.str) (query_words : list Py.str) (rest : list merged) :
  forall seen best_match best_match_score idx,
    loop_state query_words seen best_match best_match_score ->
    (forall person, In person rest -> exact_match name (nombre person) = false) ->
    match_from name query_words rest (length seen) best_match best_match_score = Some idx ->
    best_candidate query_words (seen ++ rest) idx.
Proof.
  induction rest as [|person rest IH]; intros seen bm bs idx Hstate Hexact H.
  - cbn [match_from] in H. rewrite app_nil_r.
    destruct (_ || _); [|discriminate]. subst bm. apply Hstate.
  - cbn [match_from] in H. rewrite (Hexact person (or_introl eq_refl)) in H.
    fold (name_words (nombre person)) in H.
    fold (overlap query_words person) in H. fold (score query_words person) in H.
    pose proof (loop_state_step query_words seen person bm bs Hstate) as Hstep.
    replace (seen ++ person :: rest) with ((seen ++ [person]) ++ rest)
      by (rewrite <- app_assoc; reflexivity).
    replace (S (length seen)) with (length (seen ++ [person])) in H
      by (rewrite length_app; simpl; lia).
    destruct ((0 <? length (union query_words (name_words (nombre person))))
              && (0 <? overlap query_words person)
              && negb (Qle_bool (score query_words person) bs)).
    + apply (IH _ _ _ _ Hstep); [|exact H].
      intros p Hp. apply Hexact. right. exact Hp.
    + apply (IH _ _ _ _ Hstep); [|exact H].
      intros p Hp. apply Hexact. right. exact Hp.
Qed.

(** X7: When no entry equals the query, the entry that [match_person_name]
    returns shares a word with the query and has the highest Jaccard score
    among the entries that do, and it is the first entry with that score. *)
Theorem match_person_name_returns_best (name : Py.str) (people_data : list merged) (idx : nat) :
  (forall person, In person people_data -> exact_match name (nombre person) = false) ->
  match_person_name name people_data = Some idx ->
  best_candidate (name_words name) people_data idx.
Proof.
  intros Hexact H. unfold match_person_name in H. fold (name_words name) in H.
  apply (match_from_best name (name_words name) people_data [] None 0%Q idx); try assumption.
  split; [reflexivity | intros person []].
Qed.

Lemma match_person_name_returns_best_example :
  best_candidate (name_words (Py.lit "Ana Soto Diaz"))
    [registered (Py.lit "Ana Rojas"); registered (Py.lit "Ana Soto"); registered (Py.lit "Soto Ana")]
    1.
Proof.
  apply (match_person_name_returns_best (Py.lit "Ana Soto Diaz")).
  - intros person [<-|[<-|[<-|[]]]]; vm_compute; reflexivity.
  - vm_compute. reflexivity.
Defined.

(** ** What attaching attendance changes *)

Lemma extends_refl (a : merged) : extends a a.
Proof.
  unfold extends. repeat split; try reflexivity; exists []; symmetry; apply app_nil_r.
Qed.

Lemma extends_trans (a b c : merged) : extends a b -> extends b c -> extends a c.
Proof.
  unfold extends.
  intros (H1 & H2 & H3 & H4 & H5 & H6 & H7 & [s1 Hs1] & [a1 Ha1])
         (G1 & G2 & G3 & G4 & G5 & G6 & G7 & [s2 Hs2] & [a2 Ha2]).
  repeat split; try congruence.
  - exists (s1 ++ s2). rewrite Hs2, Hs1, app_assoc. reflexivity.
  - exists (a1 ++ a2). rewrite Ha2, Ha1, app_assoc. reflexivity.
Qed.

Lemma Forall2_extends_refl (people_data : list merged) : Forall2 extends people_data people_data.
Proof. induction people_data; constructor; [apply extends_refl | assumption]. Qed.

Lemma Forall2_extends_trans (a b c : list merged) :
  Forall2 extends a b -> Forall2 extends b c -> Forall2 extends a c.
Proof.
  intros Hab. revert c. induction Hab as [|x y a b Hxy Hab IH]; intros c Hbc.
  - inversion Hbc. constructor.
  - inversion Hbc as [|? z ? c' Hyz Hbc']; subst. constructor.
    + apply extends_trans with y; assumption.
    + apply IH, Hbc'.
Qed.

Lemma update_at_extends (people_data : list merged) (idx : nat) (f : merged -> merged) :
  (forall m, extends m (f m)) -> Forall2 extends people_data (update_at people_data idx f).
Proof.
  intros Hf. revert idx. induction people_data as [|person people_data IH]; intros idx.
  - destruct idx; constructor.
  - destruct idx as [|idx]; cbn [update_at]; constructor.
    + apply Hf.
    + apply Forall2_extends_refl.
    + apply extends_refl.
    + apply IH.
Qed.

Lemma append_attendance_extends (a : attendance_record) (m : merged) :
  extends m (append_attendance a m).
Proof.
  unfold extends, append_attendance, attendance_list. cbn.
  repeat split; try reflexivity.
  - exists []. symmetry. apply app_nil_r.
  - exists [a]. reflexivity.
Qed.

Lemma add_source_extends (file_path : Py.str) (m : merged) : extends m (add_source file_path m).
Proof.
  unfold extends, add_source, attendance_list. cbn.
  repeat split; try reflexivity.
  - destruct (existsb _ _); [exists []; symmetry; apply app_nil_r | exists [file_path]; reflexivity].
  - exists []. symmetry. apply app_nil_r.
Qed.

Lemma update_json_with_attendance_extends (attendance_data : Dict.dict Py.str attendance_record) :
  forall people_data,
    Forall2 extends people_data (update_json_with_attendance people_data attendance_data).
Proof.
  unfold update_json_with_attendance.
  induction attendance_data as [|[name a] attendance_data IH]; intros people_data.
  - apply Forall2_extends_refl.
  - cbn [fold_left].
    eapply Forall2_extends_trans; [|apply IH].
    destruct (match_person_name name people_data);
      [apply update_at_extends, append_attendance_extends | apply Forall2_extends_refl].
Qed.

Lemma add_file_sources_extends (file_path : Py.str)
    (attendance_data : Dict.dict Py.str attendance_record) :
  forall people_data,
    Forall2 extends people_data (add_file_sources file_path people_data attendance_data).
Proof.
  unfold add_file_sources.
  induction attendance_data as [|[name a] attendance_data IH]; intros people_data.
  - apply Forall2_extends_refl.
  - cbn [fold_left].
    eapply Forall2_extends_trans; [|apply IH].
    destruct (match_person_name name people_data);
      [apply update_at_extends, add_source_extends | apply Forall2_extends_refl].
Qed.

Lemma process_files_extends (fs : attendance_fs) (attendance_dir : Py.str)
    (filenames : list Py.str) :
  forall people_data result,
    process_files fs attendance_dir filenames people_data = Some result ->
    Forall2 extends people_data result.
Proof.
  induction filenames as [|filename filenames IH]; intros people_data result H.
  - injection H as <-. apply Forall2_extends_refl.
  - cbn [process_files] in H.
    destruct (Py.endswith filename (Py.lit ".md")); [|apply IH, H].
    destruct (readlines fs (path_join attendance_dir filename)) as [lines|]; [|discriminate].
    destruct (parse_markdown_table (path_join attendance_dir filename) lines)
      as [attendance_data|]; [|discriminate].
    apply IH in H.
    eapply Forall2_extends_trans; [|exact H].
    eapply Forall2_extends_trans;
      [apply update_json_with_attendance_extends | apply add_file_sources_extends].
Qed.

(** X8: Attaching attendance never adds, removes or reorders persons and never
    touches their contact fields or submissions: each person only gets
    sources and attendance records appended. *)
Theorem process_attendance_files_only_appends (fs : attendance_fs) (people_data : list merged)
    (attendance_dir : Py.str) (result : list merged) :
  process_attendance_files fs people_data attendance_dir = Some result ->
  Forall2 extends people_data result.
Proof.
  unfold process_attendance_files.
  destruct (negb (path_exists fs attendance_dir)).
  - intros H. injection H as <-. apply Forall2_extends_refl.
  - destruct (listdir fs attendance_dir) as [filenames|]; [|discriminate].
    apply process_files_extends.
Qed.

Lemma process_attendance_files_only_appends_example :
  exists result,
    process_attendance_files
      (attendance_disk [(Py.lit "curso.md", ten_session_table)])
      [registered (Py.lit "Luis Soto"); registered (Py.lit "Ana Soto")]
      (Py.lit "./sources/attendance")
    = Some result
    /\ Forall2 extends [registered (Py.lit "Luis Soto"); registered (Py.lit "Ana Soto")] result
    /\ map (fun m => length (attendance_list m)) result = [0; 1]
    /\ map sources result = [[]; [Py.lit "./sources/attendance/curso.md"]].
Proof.
  assert (H : exists result,
             process_attendance_files
               (attendance_disk [(Py.lit "curso.md", ten_session_table)])
               [registered (Py.lit "Luis Soto"); registered (Py.lit "Ana Soto")]
               (Py.lit "./sources/attendance")
             = Some result
             /\ map (fun m => length (attendance_list m)) result = [0; 1]
             /\ map sources result = [[]; [Py.lit "./sources/attendance/curso.md"]]).
  { eexists. split; [vm_compute; reflexivity|]. split; reflexivity. }
  destruct H as [result (H & Hn & Hs)].
  exists result. split; [exact H|]. split; [|split; assumption].
  apply (process_attendance_files_only_appends _ _ _ _ H).
Defined.

(** X9: Files whose name does not end in ".md" are never read: the outcome is
    that of the ".md" files alone. *)
Theorem process_files_reads_md_only (fs : attendance_fs) (attendance_dir : Py.str)
    (filenames : list Py.str) (people_data : list merged) :
  process_files fs attendance_dir filenames people_data
  = process_files fs attendance_dir
      (filter (fun filename => Py.endswith filename (Py.lit ".md")) filenames) people_data.
Proof.
  revert people_data. induction filenames as [|filename filenames IH]; intros people_data;
    [reflexivity|].
  cbn [filter]. destruct (Py.endswith filename (Py.lit ".md")) eqn:E.
  - cbn [process_files]. rewrite E.
    destruct (readlines fs (path_join attendance_dir filename)) as [lines|]; [|reflexivity].
    destruct (parse_markdown_table (path_join attendance_dir filename) lines); [|reflexivity].
    apply IH.
  - cbn [process_files]. rewrite E. apply IH.
Qed.

Lemma parse_markdown_table_empty (file_path : Py.str) : parse_markdown_table file_path [] = None.
Proof. reflexivity. Qed.

Lemma process_files_fails (fs : attendance_fs) (attendance_dir : Py.str)
    (filenames : list Py.str) (filename : Py.str) :
  In filename filenames ->
  Py.endswith filename (Py.lit ".md") = true ->
  readlines fs (path_join attendance_dir filename) = Some [] ->
  forall people_data, process_files fs attendance_dir filenames people_data = None.
Proof.
  intros Hin Hmd Hempty.
  induction filenames as [|first filenames IH]; [contradiction|].
  intros people_data. cbn [process_files]. destruct Hin as [->|Hin].
  - rewrite Hmd, Hempty. reflexivity.
  - destruct (Py.endswith first (Py.lit ".md")); [|apply IH, Hin].
    destruct (readlines fs (path_join attendance_dir first)) as [lines|]; [|reflexivity].
    destruct (parse_markdown_table (path_join attendance_dir first) lines); [|reflexivity].
    apply IH, Hin.
Qed.

(** X10: One empty ".md" file in the attendance directory makes the whole step
    raise: nothing catches the [IndexError] of [lines[0]]. *)
Theorem process_attendance_files_empty_file (fs : attendance_fs) (people_data : list merged)
    (attendance_dir : Py.str) (filenames : list Py.str) (filename : Py.str) :
  path_exists fs attendance_dir = true ->
  listdir fs attendance_dir = Some filenames ->
  In filename filenames ->
  Py.endswith filename (Py.lit ".md") = true ->
  readlines fs (path_join attendance_dir filename) = Some [] ->
  process_attendance_files fs people_data attendance_dir = None.
Proof.
  intros Hexists Hlist Hin Hmd Hempty. unfold process_attendance_files.
  rewrite Hexists, Hlist. cbn [negb].
  apply (process_files_fails fs attendance_dir filenames filename Hin Hmd Hempty).
Qed.

Lemma process_attendance_files_empty_file_example :
  process_attendance_files
    (attendance_disk [(Py.lit "curso.md", ten_session_table); (Py.lit "vacio.md", [])])
    [registered (Py.lit "Ana Soto")] (Py.lit "./sources/attendance")
  = None.
Proof.
  apply (process_attendance_files_empty_file _ _ _
           [Py.lit "curso.md"; Py.lit "vacio.md"] (Py.lit "vacio.md")).
  - reflexivity.
  - reflexivity.
  - right. left. reflexivity.
  - vm_compute. reflexivity.
  - vm_compute. reflexivity.
Defined.

Lemma existsb_eqb_In (x : Py.str) (l : list Py.str) :
  existsb (Py.eqb x) l = true <-> In x l.
Proof.
  rewrite existsb_exists. split.
  - intros [y [Hy E]]. apply eqb_eq in E. subst. exact Hy.
  - intros H. exists x. split; [exact H | apply eqb_refl].
Qed.

Lemma add_source_NoDup (file_path : Py.str) (m : merged) :
  NoDup (sources m) -> NoDup (sources (add_source file_path m)).
Proof.
  intros H. unfold add_source. cbn [sources].
  destruct (existsb (Py.eqb file_path) (sources m)) eqn:E; [exact H|].
  apply NoDup_app_remove_l with (l := []). simpl.
  apply Permutation_NoDup with (l := file_path :: sources m).
  - apply Permutation_cons_append.
  - constructor; [|exact H]. intros Hin. apply existsb_eqb_In in Hin. congruence.
Qed.

Lemma update_at_Forall (P : merged -> Prop) (people_data : list merged) (idx : nat)
    (f : merged -> merged) :
  (forall m, P m -> P (f m)) -> Forall P people_data -> Forall P (update_at people_data idx f).
Proof.
  intros Hf H. revert idx. induction H as [|person people_data Hp Hrest IH]; intros idx.
  - destruct idx; constructor.
  - destruct idx as [|idx]; cbn [update_at]; constructor; auto.
Qed.

Lemma update_json_with_attendance_sources
    (attendance_data : Dict.dict Py.str attendance_record) :
  forall people_data,
    Forall (fun m => NoDup (sources m)) people_data ->
    Forall (fun m => NoDup (sources m)) (update_json_with_attendance people_data attendance_data).
Proof.
  unfold update_json_with_attendance.
  induction attendance_data as [|[name a] attendance_data IH]; intros people_data H;
    [exact H|].
  cbn [fold_left]. apply IH.
  destruct (match_person_name name people_data); [|exact H].
  apply update_at_Forall; [|exact H]. intros m Hm. exact Hm.
Qed.

Lemma add_file_sources_sources (file_path : Py.str)
    (attendance_data : Dict.dict Py.str attendance_record) :
  forall people_data,
    Forall (fun m => NoDup (sources m)) people_data ->
    Forall (fun m => NoDup (sources m)) (add_file_sources file_path people_data attendance_data).
Proof.
  unfold add_file_sources.
  induction attendance_data as [|[name a] attendance_data IH]; intros people_data H;
    [exact H|].
  cbn [fold_left]. apply IH.
  destruct (match_person_name name people_data); [|exact H].
  apply update_at_Forall; [|exact H]. intros m Hm. apply add_source_NoDup, Hm.
Qed.

Lemma process_files_sources (fs : attendance_fs) (attendance_dir : Py.str)
    (filenames : list Py.str) :
  forall people_data result,
    Forall (fun m => NoDup (sources m)) people_data ->
    process_files fs attendance_dir filenames people_data = Some result ->
    Forall (fun m => NoDup (sources m)) result.
Proof.
  induction filenames as [|filename filenames IH]; intros people_data result Hnd H.
  - injection H as <-. exact Hnd.
  - cbn [process_files] in H.
    destruct (Py.endswith filename (Py.lit ".md")); [|apply (IH _ _ Hnd H)].
    destruct (readlines fs (path_join attendance_dir filename)) as [lines|]; [|discriminate].
    destruct (parse_markdown_table (path_join attendance_dir filename) lines)
      as [attendance_data|]; [|discriminate].
    apply (IH _ _ (add_file_sources_sources _ _ _
                     (update_json_with_attendance_sources _ _ Hnd)) H).
Qed.

Lemma distinct_NoDup (l : list Py.str) : NoDup (distinct l).
Proof. unfold distinct. apply NoDup_rev, NoDup_nodup. Qed.

Lemma merge_groups_sources (groups : list (list raw_record)) (result : list merged) :
  merge_groups groups = Some result -> Forall (fun m => NoDup (sources m)) result.
Proof.
  revert result. induction groups as [|group groups IH]; intros result H.
  - injection H as <-. constructor.
  - cbn [merge_groups] in H.
    destruct (merge_group group) as [m|] eqn:Em; [|discriminate].
    destruct (merge_groups groups) as [rest|]; [|discriminate].
    injection H as <-. constructor; [|apply IH; reflexivity].
    destruct (merge_group_lists group m Em) as [_ ->]. apply distinct_NoDup.
Qed.

(** X11: In the registry that the two steps of [main] build, no person lists a
    source twice: merging removes duplicates, and attaching attendance adds
    a file only when it is not listed yet. *)
Theorem registry_sources_are_distinct (csv : csv_files) (filenames : list Py.str)
    (fs : attendance_fs) (attendance_dir : Py.str) (people_data result : list merged) :
  process_csv_files csv filenames = Some people_data ->
  process_attendance_files fs people_data attendance_dir = Some result ->
  Forall (fun m => NoDup (sources m)) result.
Proof.
  intros Hcsv H. apply merge_groups_sources in Hcsv.
  unfold process_attendance_files in H.
  destruct (negb (path_exists fs attendance_dir)).
  - injection H as <-. exact Hcsv.
  - destruct (listdir fs attendance_dir) as [names|]; [|discriminate].
    apply (process_files_sources _ _ _ _ _ Hcsv H).
Qed.

(** ** How many records are attached *)

Lemma match_from_names (name : Py.str) (query_words : list Py.str) (a : list merged) :
  forall b start best_match best_match_score,
    map nombre a = map nombre b ->
    match_from name query_words a start best_match best_match_score
    = match_from name query_words b start best_match best_match_score.
Proof.
  induction a as [|x a IH]; intros [|y b] start bm bs H; try discriminate; [reflexivity|].
  injection H as Hxy Hab. cbn [match_from]. rewrite Hxy.
  destruct (exact_match name (nombre y)); [reflexivity|].
  destruct (_ && _); apply IH, Hab.
Qed.

Lemma match_person_name_names (name : Py.str) (a b : list merged) :
  map nombre a = map nombre b -> match_person_name name a = match_person_name name b.
Proof. intros H. unfold match_person_name. apply match_from_names, H. Qed.

Lemma update_at_names (people_data : list merged) (idx : nat) (f : merged -> merged) :
  (forall m, nombre (f m) = nombre m) ->
  map nombre (update_at people_data idx f) = map nombre people_data.
Proof.
  intros Hf. revert idx. induction people_data as [|person people_data IH]; intros idx.
  - destruct idx; reflexivity.
  - destruct idx as [|idx]; cbn [update_at map]; [rewrite Hf | rewrite IH]; reflexivity.
Qed.

Lemma attendance_total_cons (person : merged) (people_data : list merged) :
  attendance_total (person :: people_data)
  = length (attendance_list person) + attendance_total people_data.
Proof. reflexivity. Qed.

Lemma update_at_total (people_data : list merged) (idx : nat) (a : attendance_record) :
  idx < length people_data ->
  attendance_total (update_at people_data idx (append_attendance a))
  = S (attendance_total people_data).
Proof.
  revert idx. induction people_data as [|person people_data IH]; intros idx Hidx;
    [simpl in Hidx; lia|].
  destruct idx as [|idx]; cbn [update_at]; rewrite !attendance_total_cons.
  - unfold append_attendance, attendance_list at 1. cbn [attendance].
    fold (attendance_list person). rewrite length_app. simpl. lia.
  - rewrite IH by (simpl in Hidx; lia). lia.
Qed.

Lemma update_json_with_attendance_total (registry : list merged)
    (attendance_data : Dict.dict Py.str attendance_record) :
  forall people_data,
    map nombre people_data = map nombre registry ->
    attendance_total (update_json_with_attendance people_data attendance_data)
    = attendance_total people_data + length (matched_names registry attendance_data).
Proof.
  unfold update_json_with_attendance, matched_names.
  induction attendance_data as [|[name a] attendance_data IH]; intros people_data Hnames.
  - simpl. lia.
  - cbn [fold_left Dict.keys map filter fst].
    rewrite <- (match_person_name_names name people_data registry Hnames).
    destruct (match_person_name name people_data) as [idx|] eqn:Em.
    + unfold Dict.keys in IH. rewrite IH.
      * rewrite update_at_total by (apply (match_person_name_in_bounds_aux _ _ _ Em)).
        simpl. lia.
      * rewrite update_at_names by reflexivity. exact Hnames.
    + unfold Dict.keys in IH. rewrite IH by exact Hnames. reflexivity.
Qed.

(** X12: [update_json_with_attendance] attaches exactly one record for every name
    of the table that matches an entry of the registry, and none for the
    others. *)
Theorem update_json_with_attendance_count (people_data : list merged)
    (attendance_data : Dict.dict Py.str attendance_record) :
  attendance_total (update_json_with_attendance people_data attendance_data)
  = attendance_total people_data + length (matched_names people_data attendance_data).
Proof. apply update_json_with_attendance_total. reflexivity. Qed.

(** ** Shape of a parsed attendance table *)

Lemma table_start_from_bound (lines : list Py.str) :
  forall i, table_start_from lines i = 0
            \/ (i <= table_start_from lines i < i + length lines).
Proof.
  induction lines as [|line lines IH]; intros i; [left; reflexivity|].
  cbn [table_start_from]. destruct (Py.contains line (Py.lit "|")).
  - right. simpl. lia.
  - destruct (IH (S i)) as [H|H]; [left; exact H | right; simpl; lia].
Qed.

Lemma skipn_table_start (lines : list Py.str) :
  lines <> [] -> skipn (table_start_from lines 0) lines <> [].
Proof.
  intros Hne H.
  assert (Hlen : length (skipn (table_start_from lines 0) lines) = 0) by (rewrite H; reflexivity).
  rewrite length_skipn in Hlen.
  destruct (table_start_from_bound lines 0) as [E|E].
  - rewrite E in Hlen. destruct lines; [contradiction | simpl in Hlen; lia].
  - lia.
Qed.

(** X13: [parse_markdown_table] raises on an empty file and on nothing else. *)
Theorem parse_markdown_table_fails_on_empty_only (file_path : Py.str) (lines : list Py.str) :
  parse_markdown_table file_path lines = None <-> lines = [].
Proof.
  split.
  - unfold parse_markdown_table. intros H.
    destruct lines as [|line lines]; [reflexivity|].
    pose proof (skipn_table_start (line :: lines) ltac:(discriminate)) as Hne.
    destruct (skipn (table_start_from (line :: lines) 0) (line :: lines));
      [contradiction | discriminate].
  - intros ->. reflexivity.
Qed.

Lemma fold_set_keys (V : Type) (g : Py.str -> V) (names : list Py.str) :
  forall init : Dict.dict Py.str V,
    NoDup (Dict.keys init) ->
    NoDup (Dict.keys (fold_left (fun d k => Dict.set Py.eqb d k (g k)) names init))
    /\ forall k, In k (Dict.keys (fold_left (fun d k => Dict.set Py.eqb d k (g k)) names init))
                 <-> In k (Dict.keys init) \/ In k names.
Proof.
  induction names as [|name names IH]; intros init Hnd.
  - split; [exact Hnd | intros k; simpl; tauto].
  - cbn [fold_left].
    assert (Hstep : NoDup (Dict.keys (Dict.set Py.eqb init name (g name)))
                    /\ forall k, In k (Dict.keys (Dict.set Py.eqb init name (g name)))
                                 <-> In k (Dict.keys init) \/ k = name).
    { destruct (Dict.get Py.eqb init name) as [v|] eqn:E.
      - rewrite (set_present _ _ _ init name (g name) v E). split; [exact Hnd|].
        intros k. split; [tauto|]. intros [H|Hk]; [exact H|]. subst k.
        destruct (in_dec Py.str_eq_dec name (Dict.keys init)) as [Hin|Hout]; [exact Hin|].
        apply (get_None_keys _ _ _ eqb_eq) in Hout. congruence.
      - rewrite (set_absent _ _ _ init name (g name) E).
        unfold Dict.keys. rewrite map_app. simpl. split.
        + apply NoDup_app_remove_l with (l := []). simpl.
          apply Permutation_NoDup with (l := name :: map fst init);
            [apply Permutation_cons_append|].
          constructor; [|exact Hnd]. apply (get_None_keys _ _ _ eqb_eq). exact E.
        + intros k. rewrite in_app_iff. simpl. intuition congruence. }
    destruct Hstep as [Hnd' Hkeys].
    destruct (IH _ Hnd') as [Hnd'' Hall]. split; [exact Hnd''|].
    intros k. rewrite Hall, Hkeys. simpl. intuition congruence.
Qed.

Lemma table_cells_nonempty (line cell : Py.str) : In cell (table_cells line) -> cell <> [].
Proof.
  unfold table_cells. intros H. apply filter_In in H as [_ H]. destruct cell; [discriminate|].
  discriminate.
Qed.

Lemma record_cells_nonempty (header cells : list Py.str) :
  forall j session,
    (forall k v, In (k, v) session -> v <> []) ->
    forall k v, In (k, v) (record_cells header cells j session) -> v <> [].
Proof.
  induction cells as [|attendance cells IH]; intros j session Hs; [exact Hs|].
  cbn [record_cells]. apply IH.
  destruct (nth_error header j) as [person_name|]; [|exact Hs].
  destruct (nonempty attendance) eqn:E; [|exact Hs].
  apply (set_entries _ (fun _ v => v <> [])); [exact Hs|].
  destruct attendance; discriminate.
Qed.

Lemma parse_sessions_nonempty (header session_lines : list Py.str) :
  forall session_name session_data person status,
    In (session_name, session_data) (parse_sessions header session_lines) ->
    In (person, status) session_data -> status <> [].
Proof.
  unfold parse_sessions.
  assert (H : forall init : Dict.dict Py.str (Dict.dict Py.str Py.str),
             (forall s d, In (s, d) init -> forall p v, In (p, v) d -> v <> []) ->
             forall s d,
               In (s, d)
                  (fold_left
                     (fun sessions raw_line =>
                        let line := Py.strip raw_line in
                        if negb (nonempty line) || negb (Py.contains line (Py.lit "|"))
                        then sessions
                        else match table_cells line with
                             | [] => sessions
                             | session_name :: cells' =>
                                 Dict.set Py.eqb sessions session_name
                                          (record_cells header cells' 1 [])
                             end)
                     session_lines init) ->
               forall p v, In (p, v) d -> v <> []).
  { induction session_lines as [|raw_line session_lines IH]; intros init Hinit; [exact Hinit|].
    cbn [fold_left]. apply IH. cbv zeta.
    destruct (negb (nonempty (Py.strip raw_line))
              || negb (Py.contains (Py.strip raw_line) (Py.lit "|"))); [exact Hinit|].
    destruct (table_cells (Py.strip raw_line)) as [|session_name cells]; [exact Hinit|].
    apply (set_entries _ (fun _ d => forall p v, In (p, v) d -> v <> [])); [exact Hinit|].
    apply record_cells_nonempty. intros k v []. }
  intros s d p v Hin. apply (H [] ltac:(intros ? ? []) s d Hin).
Qed.

Lemma get_In (V : Type) (d : Dict.dict Py.str V) (k : Py.str) (v : V) :
  Dict.get Py.eqb d k = Some v -> In (k, v) d.
Proof.
  induction d as [|[k0 v0] d IH]; simpl; [discriminate|].
  destruct (Py.eqb k0 k) eqn:E.
  - apply eqb_eq in E. subst. intros H. injection H as ->. left. reflexivity.
  - intros H. right. apply IH, H.
Qed.

Lemma sessions_of_entries (all_sessions : Dict.dict Py.str (Dict.dict Py.str Py.str))
    (person_name session_name status : Py.str) :
  In (session_name, status) (sessions_of all_sessions person_name) ->
  exists session_data,
    In (session_name, session_data) all_sessions /\ In (person_name, status) session_data.
Proof.
  unfold sessions_of.
  assert (H : forall rest init,
             (forall s v, In (s, v) init ->
                          exists d, In (s, d) all_sessions /\ In (person_name, v) d) ->
             (forall s d, In (s, d) rest -> In (s, d) all_sessions) ->
             forall s v,
               In (s, v)
                  (fold_left
                     (fun person_sessions '(session_name, session_data) =>
                        match Dict.get Py.eqb session_data person_name with
                        | Some status => Dict.set Py.eqb person_sessions session_name status
                        | None => person_sessions
                        end) rest init) ->
               exists d, In (s, d) all_sessions /\ In (person_name, v) d).
  { induction rest as [|[s0 d0] rest IH]; intros init Hinit Hrest; [exact Hinit|].
    cbn [fold_left]. apply IH; [|intros s d Hin; apply Hrest; right; exact Hin].
    destruct (Dict.get Py.eqb d0 person_name) as [v0|] eqn:E; [|exact Hinit].
    apply (set_entries _ (fun s v => exists d, In (s, d) all_sessions /\ In (person_name, v) d));
      [exact Hinit|].
    exists d0. split; [apply Hrest; left; reflexivity | apply get_In, E]. }
  apply (H all_sessions []); [intros s v [] | intros s d Hin; exact Hin].
Qed.

(** X14: A parsed table has one record for every distinct name of the header
    after its first cell, and for nothing else; the names are not empty,
    every record carries the file name without ".md" as its course, and no
    recorded status is blank. *)
Theorem parse_markdown_table_persons (file_path : Py.str) (lines : list Py.str)
    (parsed : Dict.dict Py.str attendance_record) :
  parse_markdown_table file_path lines = Some parsed ->
  NoDup (Dict.keys parsed)
  /\ (forall name, In name (Dict.keys parsed) <-> In name (tl (header_of lines)))
  /\ forall name record,
       In (name, record) parsed ->
       name <> []
       /\ course record = Py.replace (basename file_path) (Py.lit ".md") []
       /\ forall session status, In (session, status) (sessions record) -> status <> [].
Proof.
  unfold parse_markdown_table, header_of.
  destruct (skipn (table_start_from lines 0) lines) as [|first_line rest] eqn:E; [discriminate|].
  intros H. injection H as <-.
  set (header := table_cells first_line).
  set (all_sessions := parse_sessions header (skipn 2 (first_line :: rest))).
  set (course_name := Py.replace (basename file_path) (Py.lit ".md") []).
  assert (Hshape : NoDup (Dict.keys (restructure course_name header all_sessions))
                   /\ forall name,
                        In name (Dict.keys (restructure course_name header all_sessions))
                        <-> In name (tl header)).
  { destruct (fold_set_keys _
                (fun person_name =>
                   {| course := course_name;
                      sessions := sessions_of all_sessions person_name;
                      attendance_stats :=
                        compute_stats all_sessions (sessions_of all_sessions person_name) |})
                (tl header) [] (NoDup_nil _)) as [Hnd Hkeys].
    split; [exact Hnd|]. intros name. destruct (Hkeys name) as [H1 H2]. split.
    - intros H. destruct (H1 H) as [[]|H']. exact H'.
    - intros H. apply H2. right. exact H. }
  destruct Hshape as [Hnd Hkeys].
  split; [exact Hnd|]. split; [exact Hkeys|].
  intros name record Hin.
  assert (Hname : In name (tl header)).
  { apply Hkeys. unfold Dict.keys. apply in_map_iff. exists (name, record).
    split; [reflexivity | exact Hin]. }
  apply restructure_entries in Hin. subst record. cbn [course sessions].
  split; [|split; [reflexivity|]].
  - apply (table_cells_nonempty first_line). unfold header in Hname.
    destruct (table_cells first_line); [contradiction | right; exact Hname].
  - intros session status Hs.
    apply sessions_of_entries in Hs as [session_data [Hd Hp]].
    apply (parse_sessions_nonempty _ _ _ _ _ _ Hd Hp).
Qed.

Lemma parse_markdown_table_persons_example :
  exists parsed,
    parse_markdown_table (Py.lit "./sources/attendance/curso.md") blank_cell_table = Some parsed
    /\ Dict.keys parsed = [Py.lit "Ana"; Py.lit "Luis"]
    /\ NoDup (Dict.keys parsed)
    /\ forall name record, In (name, record) parsed -> course record = Py.lit "curso".
Proof.
  assert (H : exists parsed,
             parse_markdown_table (Py.lit "./sources/attendance/curso.md") blank_cell_table
             = Some parsed
             /\ Dict.keys parsed = [Py.lit "Ana"; Py.lit "Luis"]).
  { eexists. split; [vm_compute; reflexivity | reflexivity]. }
  destruct H as [parsed [H Hk]]. exists parsed. split; [exact H|]. split; [exact Hk|].
  destruct (parse_markdown_table_persons _ _ _ H) as (Hnd & _ & Hrec).
  split; [exact Hnd|]. intros name record Hin.
  destruct (Hrec name record Hin) as (_ & Hc & _). rewrite Hc. vm_compute. reflexivity.
Defined.

(** ** Extracted contact values *)

Lemma rstrip_end (s : Py.str) :
  Py.rstrip s = [] \/ exists l c, Py.rstrip s = l ++ [c] /\ Py.isspace c = false.
Proof.
  induction s as [|a s IH]; [left; reflexivity|].
  cbn [Py.rstrip]. destruct (Py.rstrip s) as [|r rs] eqn:E.
  - destruct (Py.isspace a) eqn:Ea; [left; reflexivity|].
    right. exists [], a. split; [reflexivity | exact Ea].
  - right. destruct IH as [H|[l [c [H Hc]]]]; [discriminate|].
    exists (a :: l), c. rewrite H. split; [reflexivity | exact Hc].
Qed.

Lemma rstrip_snoc (l : Py.str) (c : Py.char) :
  Py.isspace c = false -> Py.rstrip (l ++ [c]) = l ++ [c].
Proof.
  intros Hc. induction l as [|a l IH].
  - simpl. rewrite Hc. reflexivity.
  - cbn [app Py.rstrip]. rewrite IH. destruct (l ++ [c]) eqn:E; [|reflexivity].
    destruct l; discriminate.
Qed.

(** A string is trimmed when it starts and ends with no white space. *)
Lemma strip_fixed (l : Py.str) (c : Py.char) :
  left_trimmed (l ++ [c]) -> Py.isspace c = false -> Py.strip (l ++ [c]) = l ++ [c].
Proof.
  intros Hl Hc. unfold Py.strip. rewrite lstrip_fixed by exact Hl. apply rstrip_snoc, Hc.
Qed.

Lemma strip_shape (s : Py.str) :
  Py.strip s = []
  \/ exists l c, Py.strip s = l ++ [c] /\ Py.isspace c = false /\ left_trimmed (l ++ [c]).
Proof.
  unfold Py.strip.
  pose proof (rstrip_left_trimmed (Py.lstrip s) (lstrip_left_trimmed s)) as Hleft.
  destruct (rstrip_end (Py.lstrip s)) as [H|[l [c [H Hc]]]]; [left; exact H|].
  right. exists l, c. rewrite H in *. repeat split; assumption.
Qed.

Lemma not_space_kept (c : Py.char) : Py.isspace c = false -> negb (c =? 0x20)%N = true.
Proof.
  intros H. destruct (N.eqb_spec c 0x20) as [->|]; [|reflexivity].
  vm_compute in H. discriminate.
Qed.

Lemma contact_value_trimmed (f : field) (row : Dict.dict Py.str (option Py.str))
    (col : Py.str) :
  Py.strip (contact_value f row col) = contact_value f row col.
Proof.
  unfold contact_value.
  destruct (Dict.get Py.eqb row col) as [cell|]; [|reflexivity].
  set (value := match cell with
                | Some s => if nonempty s then Py.strip s else []
                | None => []
                end).
  assert (Hvalue : value = []
                   \/ exists l c, value = l ++ [c] /\ Py.isspace c = false
                                  /\ left_trimmed (l ++ [c])).
  { unfold value. destruct cell as [s|]; [|left; reflexivity].
    destruct (nonempty s); [apply strip_shape | left; reflexivity]. }
  clearbody value.
  destruct Hvalue as [->|[l [c [-> [Hc Hleft]]]]].
  - rewrite andb_false_r. reflexivity.
  - destruct (field_eqb f Telegram && nonempty (l ++ [c])); [|apply strip_fixed; assumption].
    destruct (existsb _ _); [reflexivity|].
    rewrite startswith_at, replace_space.
    rewrite filter_app. cbn [filter]. rewrite (not_space_kept c Hc).
    match goal with |- context [@filter ?A ?p l] => set (kept := @filter A p l) end.
    assert (Hkept : left_trimmed (kept ++ [c])).
    { unfold kept. destruct l as [|a l]; [exact Hleft|].
      simpl in Hleft. cbn [filter]. rewrite (not_space_kept a Hleft). exact Hleft. }
    clearbody kept.
    destruct (starts_with_at (kept ++ [c])); [apply strip_fixed; assumption|].
    change (Py.lit "@" ++ kept ++ [c]) with ((0x40%N :: kept) ++ [c]).
    apply strip_fixed; [reflexivity | exact Hc].
Qed.

Lemma extracted_trimmed (fs : csv_files) (filename : Py.str) (person : raw_record) (f : field) :
  In person (read_csv_file fs filename) ->
  Py.strip (get_contact person f) = get_contact person f.
Proof.
  unfold read_csv_file. destruct (fs filename) as [table|]; [|contradiction].
  unfold extract_rows. intros H. apply in_map_iff in H as [row [<- _]].
  unfold get_contact. cbn [contact]. rewrite get_mapped.
  destruct (Dict.get field_eqb (contact_mapping (fieldnames table)) f) as [col|];
    [apply contact_value_trimmed | reflexivity].
Qed.

(** X15: Every contact value that [read_csv_file] stores is trimmed, so the filter
    of [process_csv_files] drops an extracted record exactly when its name,
    e-mail and Telegram handle are all empty. *)
Theorem extracted_record_survives (fs : csv_files) (filename : Py.str) (person : raw_record) :
  In person (read_csv_file fs filename) ->
  (forall f, Py.strip (get_contact person f) = get_contact person f)
  /\ (filter_people [person] = []
      <-> get_contact person Nombre = [] /\ get_contact person Correo = []
          /\ get_contact person Telegram = []).
Proof.
  intros Hin.
  assert (Htrim : forall f, Py.strip (get_contact person f) = get_contact person f)
    by (intros f; apply (extracted_trimmed fs filename person f Hin)).
  split; [exact Htrim|].
  rewrite filter_people_spec. cbn [filter]. unfold linkable.
  rewrite !Htrim.
  destruct (get_contact person Correo), (get_contact person Nombre),
    (get_contact person Telegram); cbn; split; try discriminate; try tauto;
    intros (H1 & H2 & H3); discriminate.
Qed.

Lemma extracted_record_survives_example :
  exists person,
    In person (read_csv_file
                 (survey_disk [survey_row [] (Py.lit "  ") (Py.lit "No contact given")] [])
                 (Py.lit "./sources/2023-1.csv"))
    /\ filter_people [person] = [].
Proof.
  assert (H : exists person,
             In person (read_csv_file
                          (survey_disk [survey_row [] (Py.lit "  ")
                                          (Py.lit "No contact given")] [])
                          (Py.lit "./sources/2023-1.csv"))
             /\ get_contact person Nombre = [] /\ get_contact person Correo = []
             /\ get_contact person Telegram = []).
  { eexists. split; [vm_compute; left; reflexivity|]. repeat split. }
  destruct H as [person [Hin Hempty]]. exists person. split; [exact Hin|].
  apply (extracted_record_survives _ _ _ Hin). exact Hempty.
Defined.

Lemma registry_sources_are_distinct_example :
  exists people_data result,
    process_csv_files two_file_disk [Py.lit "./sources/2023-1.csv"; Py.lit "./sources/2023-2.csv"]
    = Some people_data
    /\ process_attendance_files
         (attendance_disk [(Py.lit "curso.md", ten_session_table)])
         people_data (Py.lit "./sources/attendance")
       = Some result
    /\ map (fun m => length (sources m)) result = [3]
    /\ Forall (fun m => NoDup (sources m)) result.
Proof.
  assert (H : exists people_data result,
             process_csv_files two_file_disk
               [Py.lit "./sources/2023-1.csv"; Py.lit "./sources/2023-2.csv"]
             = Some people_data
             /\ process_attendance_files
                  (attendance_disk [(Py.lit "curso.md", ten_session_table)])
                  people_data (Py.lit "./sources/attendance")
                = Some result
             /\ map (fun m => length (sources m)) result = [3]).
  { eexists. eexists. split; [vm_compute; reflexivity|].
    split; [vm_compute; reflexivity | reflexivity]. }
  destruct H as [people_data [result (Hcsv & H & Hn)]].
  exists people_data, result. repeat split; try assumption.
  apply (registry_sources_are_distinct _ _ _ _ _ _ Hcsv H).
Defined.

(** ** The groups of the pipeline *)

(** A record of a pipeline group is an extracted record as it leaves the
    filter. *)
Lemma identity_group_origin (fs : csv_files) (filenames : list Py.str) (key : Py.str)
    (group : list raw_record) (person : raw_record) :
  In (key, group) (identity_groups fs filenames) -> In person group ->
  exists raw filename,
    In filename filenames /\ In raw (read_csv_file fs filename)
    /\ person = with_normalized_name raw.
Proof.
  unfold identity_groups. intros Hg Hp.
  apply in_groups in Hg as [_ ->]. apply filter_In in Hp as [Hp _].
  rewrite filter_people_spec in Hp. apply in_map_iff in Hp as [raw [<- Hraw]].
  apply filter_In in Hraw as [Hraw _].
  apply in_flat_map in Hraw as [filename [Hf Hraw]].
  exists raw, filename. repeat split; assumption.
Qed.

Lemma pipeline_group_fields (fs : csv_files) (filenames : list Py.str) (key : Py.str)
    (group : list raw_record) :
  In (key, group) (identity_groups fs filenames) ->
  exists m,
    merge_group group = Some m
    /\ forall f, get_field m f = resolve (map (fun person => get_contact person f) group).
Proof.
  intros Hin.
  pose proof (identity_group_members fs filenames key group) as Hshape.
  specialize (fun person => Hshape person Hin).
  unfold identity_groups in Hin. apply in_groups in Hin as [Hne _].
  destruct group as [|first rest]; [contradiction|].
  destruct (merge_group_fields first rest) as [m [Hm Hf]].
  exists m. split; [exact Hm|]. intros f.
  rewrite Hf, (offered_values (first :: rest) f Hshape).
  unfold resolve. cbn [map fold_left].
  rewrite resolve_step_same, resolve_step_seed. reflexivity.
Qed.

(** ** Which value a merged field holds *)

Lemma resolve_step_length (current value : Py.str) :
  resolve_step current value = if length current <? length value then value else current.
Proof.
  destruct value as [|c value], current as [|d current]; try reflexivity.
Qed.

Lemma resolve_from (values : list Py.str) :
  forall current,
    let r := fold_left resolve_step values current in
    length current <= length r
    /\ (forall v, In v values -> length v <= length r)
    /\ (r = current
        \/ exists before after,
             values = before ++ r :: after
             /\ length current < length r
             /\ forall v, In v before -> length v < length r).
Proof.
  induction values as [|value values IH]; intros current; cbn [fold_left].
  - repeat split; [lia | intros v [] | left; reflexivity].
  - rewrite resolve_step_length.
    destruct (Nat.ltb_spec (length current) (length value)) as [Hlt|Hle].
    + destruct (IH value) as (Hlen & Hall & Hpos). cbv zeta in *.
      repeat split; [lia | |].
      * intros v [<-|Hv]; [exact Hlen | apply Hall, Hv].
      * right. destruct Hpos as [Hr|(before & after & Hv & Hl & Hb)].
        -- exists [], values. rewrite Hr. repeat split; [exact Hlt | intros v []].
        -- exists (value :: before), after. rewrite Hv at 1.
           repeat split; [lia|]. intros v [<-|Hin]; [exact Hl | apply Hb, Hin].
    + destruct (IH current) as (Hlen & Hall & Hpos). cbv zeta in *.
      repeat split; [exact Hlen | |].
      * intros v [<-|Hv]; [lia | apply Hall, Hv].
      * destruct Hpos as [Hr|(before & after & Hv & Hl & Hb)]; [left; exact Hr|].
        right. exists (value :: before), after. rewrite Hv at 1.
        repeat split; [exact Hl|]. intros v [<-|Hin]; [lia | apply Hb, Hin].
Qed.

(** X16: In the merged record of a pipeline group, a contact field holds a value
    at least as long as the value of every record of the group, and it is
    the first one of that length: either every record has the field empty
    and so has the merged record, or the merged value is the value of a
    record before which every record has a strictly shorter one. *)
Theorem merged_field_is_first_longest (fs : csv_files) (filenames : list Py.str)
    (key : Py.str) (group : list raw_record) :
  In (key, group) (identity_groups fs filenames) ->
  exists m,
    merge_group group = Some m
    /\ forall f,
         (forall person, In person group ->
                         length (get_contact person f) <= length (get_field m f))
         /\ ((get_field m f = [] /\ forall person, In person group -> get_contact person f = [])
             \/ exists before person after,
                  group = before ++ person :: after
                  /\ get_contact person f = get_field m f
                  /\ get_field m f <> []
                  /\ forall earlier, In earlier before ->
                                     length (get_contact earlier f) < length (get_field m f)).
Proof.
  intros Hin. destruct (pipeline_group_fields fs filenames key group Hin) as [m [Hm Hf]].
  exists m. split; [exact Hm|]. intros f. rewrite Hf. unfold resolve.
  destruct (resolve_from (map (fun person => get_contact person f) group) [])
    as (_ & Hall & Hpos).
  cbv zeta in *.
  set (r := fold_left resolve_step (map (fun person => get_contact person f) group) []) in *.
  assert (Hlen : forall person, In person group -> length (get_contact person f) <= length r).
  { intros person Hp. apply Hall, in_map_iff. exists person. split; [reflexivity | exact Hp]. }
  split; [exact Hlen|].
  destruct Hpos as [Hr|(before & after & Hv & Hl & Hb)].
  - left. split; [exact Hr|]. intros person Hp. specialize (Hlen person Hp).
    rewrite Hr in Hlen. destruct (get_contact person f); [reflexivity | simpl in Hlen; lia].
  - right. clearbody r.
    apply map_eq_app in Hv as (group1 & group2 & -> & <- & H2).
    destruct group2 as [|person group2]; [discriminate|].
    injection H2 as <- _. exists group1, person, group2.
    repeat split.
    + intros E. rewrite E in Hl. simpl in Hl. lia.
    + intros earlier He. apply Hb, in_map_iff. exists earlier. split; [reflexivity | exact He].
Qed.

Lemma merged_field_is_first_longest_example :
  exists group m,
    In (Py.lit "ana@uc.cl", group) (identity_groups ana_files [Py.lit "./sources/2023-1.csv"])
    /\ merge_group group = Some m
    /\ length group = 3
    /\ forall person, In person group -> length (get_contact person Nombre) <= length (nombre m).
Proof.
  assert (H : exists group,
             In (Py.lit "ana@uc.cl", group)
                (identity_groups ana_files [Py.lit "./sources/2023-1.csv"])
             /\ length group = 3).
  { eexists. split; [vm_compute; left; reflexivity | reflexivity]. }
  destruct H as [group [Hin Hn]].
  destruct (merged_field_is_first_longest _ _ _ _ Hin) as [m [Hm Hf]].
  exists group, m. repeat split; try assumption.
  apply (proj1 (Hf Nombre)).
Defined.

(** ** The normalised name of a merged record *)

Lemma merge_field_normalized (person : raw_record) (m : merged) (f : field) :
  nombre_normalized (merge_field person m f) = nombre_normalized m.
Proof.
  unfold merge_field. destruct (_ && _); [reflexivity|]. destruct (_ && _); reflexivity.
Qed.

Lemma merge_contact_normalized (group : list raw_record) :
  forall m, nombre_normalized (fold_left merge_contact group m) = nombre_normalized m.
Proof.
  induction group as [|person group IH]; intros m; [reflexivity|].
  cbn [fold_left]. rewrite IH. unfold merge_contact. cbn [fold_left].
  rewrite !merge_field_normalized. reflexivity.
Qed.

Lemma add_postulacion_normalized (group : list raw_record) :
  forall m, nombre_normalized (fold_left add_postulacion group m) = nombre_normalized m.
Proof.
  induction group as [|person group IH]; intros m; [reflexivity|].
  cbn [fold_left]. rewrite IH. reflexivity.
Qed.

Lemma merge_group_normalized (first : raw_record) (rest : list raw_record) (m : merged) :
  merge_group (first :: rest) = Some m ->
  nombre_normalized m
  = match person_nombre_normalized first with
    | Some n => n
    | None => normalize_spanish_name (get_contact first Nombre)
    end.
Proof.
  unfold merge_group. intros H. injection H as <-. cbn [nombre_normalized].
  match goal with
  | |- context [fold_left add_postulacion rest (add_postulacion ?a first)] =>
      change (fold_left add_postulacion rest (add_postulacion a first))
        with (fold_left add_postulacion (first :: rest) a);
      rewrite (add_postulacion_normalized (first :: rest) a)
  end.
  match goal with
  | |- context [fold_left merge_contact rest (merge_contact ?a first)] =>
      change (fold_left merge_contact rest (merge_contact a first))
        with (fold_left merge_contact (first :: rest) a);
      rewrite (merge_contact_normalized (first :: rest) a)
  end.
  reflexivity.
Qed.

(** X17: The "nombre_normalized" of a merged record is the normalised name of the
    first record of its group, whichever name the merge keeps as "nombre". *)
Theorem merged_normalized_name_of_first (fs : csv_files) (filenames : list Py.str)
    (key : Py.str) (first : raw_record) (rest : list raw_record) :
  In (key, first :: rest) (identity_groups fs filenames) ->
  exists m,
    merge_group (first :: rest) = Some m
    /\ nombre_normalized m = normalize_spanish_name (get_contact first Nombre).
Proof.
  intros Hin. destruct (merge_group_some (first :: rest)) as [m Hm]; [discriminate|].
  exists m. split; [exact Hm|]. rewrite (merge_group_normalized _ _ _ Hm).
  destruct (identity_group_origin fs filenames key _ first Hin (or_introl eq_refl))
    as (raw & filename & _ & Hraw & ->).
  rewrite with_normalized_name_contact.
  pose proof (extracted_trimmed fs filename raw Nombre Hraw) as Htrim.
  assert (Hnone : person_nombre_normalized raw = None).
  { unfold read_csv_file in Hraw. destruct (fs filename) as [table|]; [|contradiction].
    unfold extract_rows in Hraw. apply in_map_iff in Hraw as [row [<- _]]. reflexivity. }
  unfold with_normalized_name. rewrite Htrim.
  destruct (nonempty (get_contact raw Nombre)); [reflexivity|].
  rewrite Hnone. reflexivity.
Qed.

Lemma merged_normalized_name_of_first_example :
  exists first rest m,
    In (Py.lit "ana@uc.cl", first :: rest)
       (identity_groups ana_files [Py.lit "./sources/2023-1.csv"])
    /\ merge_group (first :: rest) = Some m
    /\ nombre m = Py.lit "Ana Mar" ++ [0xED%N] ++ Py.lit "a"
    /\ nombre_normalized m = Py.lit "ana".
Proof.
  assert (H : exists first rest,
             In (Py.lit "ana@uc.cl", first :: rest)
                (identity_groups ana_files [Py.lit "./sources/2023-1.csv"])
             /\ option_map nombre (merge_group (first :: rest))
                = Some (Py.lit "Ana Mar" ++ [0xED%N] ++ Py.lit "a")
             /\ normalize_spanish_name (get_contact first Nombre) = Py.lit "ana").
  { eexists. eexists. split; [vm_compute; left; reflexivity|].
    split; vm_compute; reflexivity. }
  destruct H as [first [rest (Hin & Hnombre & Hnorm)]].
  destruct (merged_normalized_name_of_first _ _ _ _ _ Hin) as [m [Hm Hn]].
  exists first, rest, m. rewrite Hm in Hnombre. injection Hnombre as Hnombre.
  repeat split; try assumption. rewrite Hn. exact Hnorm.
Defined.

(** ** The submissions of a merged record *)

Lemma set_head (K V : Type) (key_eqb : K -> K -> bool) (d : Dict.dict K V) (k0 k : K) (v0 v : V) :
  exists v0' d', Dict.set key_eqb ((k0, v0) :: d) k v = (k0, v0') :: d'.
Proof.
  cbn [Dict.set]. destruct (key_eqb k0 k); eexists; eexists; reflexivity.
Qed.

Lemma postulacion_of_head (person : raw_record) :
  exists value rest, postulacion_of person = (Py.lit "form", value) :: rest.
Proof.
  unfold postulacion_of.
  generalize (basename (source person)). generalize (@nil (Py.str * Py.str)).
  induction (essay_responses person) as [|[question answer] responses IH];
    intros d value; cbn [fold_left].
  - exists value, d. reflexivity.
  - destruct (set_head _ _ Py.eqb d (Py.lit "form") question value answer) as (v' & d' & ->).
    apply IH.
Qed.

Lemma set_keys_NoDup (d : Dict.dict Py.str Py.str) (k v : Py.str) :
  NoDup (Dict.keys d) -> NoDup (Dict.keys (Dict.set Py.eqb d k v)).
Proof.
  intros H. destruct (Dict.get Py.eqb d k) as [v'|] eqn:E.
  - rewrite (set_present _ _ _ d k v v' E). exact H.
  - rewrite (set_absent _ _ _ d k v E). unfold Dict.keys. rewrite map_app. simpl.
    apply NoDup_app_remove_l with (l := []). simpl.
    apply Permutation_NoDup with (l := k :: map fst d); [apply Permutation_cons_append|].
    constructor; [|exact H]. apply (get_None_keys _ _ _ eqb_eq). exact E.
Qed.

Lemma postulacion_of_NoDup (person : raw_record) : NoDup (Dict.keys (postulacion_of person)).
Proof.
  unfold postulacion_of.
  assert (H : NoDup (Dict.keys [(Py.lit "form", basename (source person))]))
    by (constructor; [intros [] | constructor]).
  revert H. generalize [(Py.lit "form", basename (source person))].
  induction (essay_responses person) as [|[question answer] responses IH];
    intros d H; cbn [fold_left]; [exact H|].
  apply IH, set_keys_NoDup, H.
Qed.

(** X18: Every submission kept in a merged record starts with its "form" entry,
    holds at least one more entry and has no key twice; a group gives at
    most one submission per record. *)
Theorem merged_postulaciones_shape (group : list raw_record) (m : merged) :
  merge_group group = Some m ->
  length (postulaciones m) <= length group
  /\ forall postulacion,
       In postulacion (postulaciones m) ->
       1 < length postulacion
       /\ NoDup (Dict.keys postulacion)
       /\ exists value rest, postulacion = (Py.lit "form", value) :: rest.
Proof.
  intros Hm. destruct (merge_group_lists group m Hm) as [-> _]. split.
  - clear Hm. induction group as [|person group IH]; [apply Nat.le_refl|].
    cbn [flat_map]. rewrite length_app. unfold submission at 1.
    destruct (1 <? _); simpl; lia.
  - intros postulacion Hin. apply in_flat_map in Hin as [person [_ Hin]].
    unfold submission in Hin.
    destruct (Nat.ltb_spec 1 (length (postulacion_of person))) as [Hlt|]; [|contradiction].
    destruct Hin as [<-|[]].
    split; [exact Hlt|]. split; [apply postulacion_of_NoDup | apply postulacion_of_head].
Qed.

Lemma merged_postulaciones_shape_example :
  let group :=
      [ {| contact := [(Nombre, Py.lit "Ana"); (Correo, Py.lit "ana@uc.cl")];
           person_nombre_normalized := Some (Py.lit "ana");
           form := Py.lit "2023-1.csv";
           essay_responses := [(Py.lit "motivacion", Py.lit "To teach")];
           source := Py.lit "./sources/2023-1.csv" |};
        {| contact := [(Nombre, Py.lit "Ana"); (Correo, Py.lit "ana@uc.cl")];
           person_nombre_normalized := Some (Py.lit "ana");
           form := Py.lit "2023-2.csv";
           essay_responses := [];
           source := Py.lit "./sources/2023-2.csv" |} ] in
  exists m,
    merge_group group = Some m
    /\ postulaciones m
       = [[(Py.lit "form", Py.lit "2023-1.csv"); (Py.lit "motivacion", Py.lit "To teach")]]
    /\ length (postulaciones m) <= length group.
Proof.
  intros group.
  assert (H : exists m,
             merge_group group = Some m
             /\ postulaciones m
                = [[(Py.lit "form", Py.lit "2023-1.csv");
                    (Py.lit "motivacion", Py.lit "To teach")]]).
  { eexists. split; [vm_compute; reflexivity | reflexivity]. }
  destruct H as [m [H Hp]]. exists m. split; [exact H|]. split; [exact Hp|].
  apply (merged_postulaciones_shape group m H).
Defined.

(** ** What [encrypt_file] writes *)

Lemma xor_to_N (p k : byte) : Byte.to_N (Crypt.xor p k) = N.lxor (Byte.to_N p) (Byte.to_N k).
Proof.
  assert (Hall : forallb (fun n => forallb (fun m => (N.lxor n m <? 256)%N) byte_values)
                         byte_values = true)
    by (vm_compute; reflexivity).
  rewrite forallb_forall in Hall. specialize (Hall _ (to_N_listed p)).
  rewrite forallb_forall in Hall. specialize (Hall _ (to_N_listed k)).
  apply N.ltb_lt in Hall. unfold Crypt.xor. apply to_N_of_N, Hall.
Qed.

(** The key cancels in the XOR of two encrypted bytes. *)
Lemma xor_cancels_key (p q k : byte) : Crypt.xor (Crypt.xor p k) (Crypt.xor q k) = Crypt.xor p q.
Proof.
  unfold Crypt.xor at 1. rewrite !xor_to_N. unfold Crypt.xor. f_equal.
  rewrite N.lxor_assoc, (N.lxor_comm (Byte.to_N q)), <- (N.lxor_assoc (Byte.to_N k)).
  rewrite N.lxor_nilpotent, N.lxor_0_l. reflexivity.
Qed.

Lemma xor_bytes_cancels_key (p1 : Crypt.bytes) :
  forall p2 keystream,
    length p1 <= length p2 -> length keystream = length p2 ->
    Crypt.xor_bytes (Crypt.xor_bytes p1 (firstn (length p1) keystream))
                    (Crypt.xor_bytes p2 keystream)
    = Crypt.xor_bytes p1 p2.
Proof.
  unfold Crypt.xor_bytes.
  induction p1 as [|a p1 IH]; intros [|b p2] [|k keystream] H1 H2;
    try reflexivity; try (simpl in *; lia).
  cbn [length firstn combine map]. rewrite xor_cancels_key. f_equal.
  apply IH; simpl in *; lia.
Qed.

Section KeystreamShape.

Variable sha256 : Crypt.bytes -> Crypt.bytes.

(** The loop only appends to the keystream, and it returns no keystream
    shorter than asked for. *)
Lemma extend_keystream_extends (fuel : nat) (key : Crypt.bytes) (size : nat) :
  forall keystream temp result,
    Crypt.extend_keystream sha256 fuel key size keystream temp = Some result ->
    size <= length result /\ exists tail, result = keystream ++ tail.
Proof.
  induction fuel as [|fuel IH]; intros keystream temp result; cbn [Crypt.extend_keystream];
    destruct (Nat.ltb_spec (length keystream) size) as [Hlt|Hge]; try discriminate.
  - intros H. injection H as <-. split; [exact Hge|]. exists []. symmetry. apply app_nil_r.
  - intros H. apply IH in H as [Hlen [tail ->]]. split; [exact Hlen|].
    eexists. rewrite <- app_assoc. reflexivity.
  - intros H. injection H as <-. split; [exact Hge|]. exists []. symmetry. apply app_nil_r.
Qed.

(** Asking for more bytes continues the same stream. *)
Lemma extend_keystream_prefix (fuel : nat) (key : Crypt.bytes) (size size' : nat) :
  forall fuel' keystream temp result result',
    size <= size' ->
    Crypt.extend_keystream sha256 fuel key size keystream temp = Some result ->
    Crypt.extend_keystream sha256 fuel' key size' keystream temp = Some result' ->
    exists tail, result' = result ++ tail.
Proof.
  induction fuel as [|fuel IH]; intros fuel' keystream temp result result' Hsize;
    cbn [Crypt.extend_keystream];
    destruct (Nat.ltb_spec (length keystream) size) as [Hlt|Hge]; try discriminate.
  - intros H H'. injection H as <-.
    apply (extend_keystream_extends fuel' key size' keystream temp result' H').
  - intros H H'. destruct fuel' as [|fuel']; cbn [Crypt.extend_keystream] in H';
      destruct (Nat.ltb_spec (length keystream) size'); try discriminate; try lia.
    apply (IH fuel' _ _ result result' Hsize H H').
  - intros H H'. injection H as <-.
    apply (extend_keystream_extends fuel' key size' keystream temp result' H').
Qed.

Lemma make_keystream_length (key file_nonce : Crypt.bytes) (size : nat)
    (keystream : Crypt.bytes) :
  Crypt.make_keystream sha256 key file_nonce size = Some keystream ->
  length keystream = size.
Proof.
  unfold Crypt.make_keystream.
  destruct (Crypt.extend_keystream sha256 size key size [] file_nonce) as [result|] eqn:E;
    [|discriminate].
  intros H. injection H as <-.
  apply extend_keystream_extends in E as [Hlen _]. rewrite length_firstn. lia.
Qed.

Lemma make_keystream_prefix (key file_nonce : Crypt.bytes) (size size' : nat)
    (keystream keystream' : Crypt.bytes) :
  size <= size' ->
  Crypt.make_keystream sha256 key file_nonce size = Some keystream ->
  Crypt.make_keystream sha256 key file_nonce size' = Some keystream' ->
  keystream = firstn size keystream'.
Proof.
  unfold Crypt.make_keystream. intros Hsize.
  destruct (Crypt.extend_keystream sha256 size key size [] file_nonce) as [result|] eqn:E;
    [|discriminate].
  destruct (Crypt.extend_keystream sha256 size' key size' [] file_nonce) as [result'|] eqn:E';
    [|discriminate].
  intros H H'. injection H as <-. injection H' as <-.
  destruct (extend_keystream_prefix _ _ _ _ _ _ _ _ _ Hsize E E') as [tail ->].
  apply extend_keystream_extends in E as [Hlen _].
  rewrite firstn_firstn, Nat.min_l by exact Hsize.
  rewrite firstn_app. replace (size - length result) with 0 by lia.
  rewrite firstn_O, app_nil_r. reflexivity.
Qed.

End KeystreamShape.

(** X19: The file that [encrypt_file] writes is the 16-byte big-endian length of
    the encoded base name of the input, that name, and one byte per byte of
    the input; no other file changes. *)
Theorem encrypt_file_layout
    (sha256 : Crypt.bytes -> Crypt.bytes)
    (pbkdf2_hmac_sha256 : Crypt.bytes -> Crypt.bytes -> N -> Crypt.bytes)
    (encode : Py.str -> option Crypt.bytes)
    (fs fs1 : Crypt.filesystem) (input_file output_file passphrase : Py.str)
    (plaintext : Crypt.bytes) :
  fs input_file = Some plaintext ->
  Crypt.encrypt_file sha256 pbkdf2_hmac_sha256 encode fs input_file output_file passphrase
  = Some fs1 ->
  (exists filename_length filename_bytes encrypted,
      fs1 output_file = Some (filename_length ++ filename_bytes ++ encrypted)
      /\ encode (basename input_file) = Some filename_bytes
      /\ length filename_length = 16
      /\ Crypt.from_bytes filename_length = N.of_nat (length filename_bytes)
      /\ length encrypted = length plaintext)
  /\ forall path, path <> output_file -> fs1 path = fs path.
Proof.
  intros Hfile. unfold Crypt.encrypt_file. rewrite Hfile.
  destruct (Crypt.derive_key_from_passphrase pbkdf2_hmac_sha256 encode passphrase) as [key|];
    [|discriminate].
  destruct (Crypt.file_nonce_of sha256 encode (basename input_file)) as [file_nonce|];
    [|discriminate].
  destruct (Crypt.make_keystream sha256 key file_nonce (length plaintext)) as [keystream|] eqn:Ek;
    [|discriminate].
  destruct (encode (basename input_file)) as [filename_bytes|]; [|discriminate].
  destruct (Crypt.to_bytes (N.of_nat (length filename_bytes)) 16) as [filename_length|] eqn:Eto;
    [|discriminate].
  intros H. injection H as <-.
  destruct (from_bytes_to_bytes _ _ _ Eto) as [Hfrom Hlen16].
  split.
  - exists filename_length, filename_bytes, (Crypt.xor_bytes plaintext keystream).
    unfold Crypt.write. rewrite eqb_refl. repeat split; try assumption.
    apply xor_bytes_length, (make_keystream_length sha256 _ _ _ _ Ek).
  - intros path Hpath. unfold Crypt.write.
    destruct (Py.eqb path output_file) eqn:E; [|reflexivity].
    apply eqb_eq in E. contradiction.
Qed.

Lemma encrypt_file_layout_example :
  exists fs1 encrypted,
    Crypt.encrypt_file constant_digest constant_key ascii_encode notes_disk
      (Py.lit "data/notes.txt") (Py.lit "out/notes.txt.enc") (Py.lit "secret")
    = Some fs1
    /\ fs1 (Py.lit "out/notes.txt.enc")
       = Some ([x00; x00; x00; x00; x00; x00; x00; x00; x00; x00; x00; x00; x00; x00; x00; x09]
               ++ [x6e; x6f; x74; x65; x73; x2e; x74; x78; x74] ++ encrypted)
    /\ length encrypted = 5
    /\ fs1 (Py.lit "data/notes.txt") = Some [x68; x6f; x6c; x61; x0a].
Proof.
  assert (H : exists fs1 encrypted,
             Crypt.encrypt_file constant_digest constant_key ascii_encode notes_disk
               (Py.lit "data/notes.txt") (Py.lit "out/notes.txt.enc") (Py.lit "secret")
             = Some fs1
             /\ fs1 (Py.lit "out/notes.txt.enc")
                = Some ([x00; x00; x00; x00; x00; x00; x00; x00;
                         x00; x00; x00; x00; x00; x00; x00; x09]
                        ++ [x6e; x6f; x74; x65; x73; x2e; x74; x78; x74] ++ encrypted)
             /\ length encrypted = 5).
  { eexists. eexists. split; [vm_compute; reflexivity|].
    split; [vm_compute; reflexivity | reflexivity]. }
  destruct H as [fs1 [encrypted (H & Hout & Hlen)]].
  exists fs1, encrypted. repeat split; try assumption.
  destruct (encrypt_file_layout constant_digest constant_key ascii_encode notes_disk fs1
              (Py.lit "data/notes.txt") (Py.lit "out/notes.txt.enc") (Py.lit "secret")
              [x68; x6f; x6c; x61; x0a] eq_refl H) as [_ Hframe].
  rewrite Hframe; [reflexivity | discriminate].
Defined.

(** X20: The keystream depends on the passphrase and on the base name of the
    input only: when two files of the same base name are encrypted with the
    same passphrase, the two outputs carry the same header, and the XOR of
    the encrypted parts is the XOR of the two contents (up to the length of
    the shorter one). *)
Theorem encrypt_file_reuses_keystream
    (sha256 : Crypt.bytes -> Crypt.bytes)
    (pbkdf2_hmac_sha256 : Crypt.bytes -> Crypt.bytes -> N -> Crypt.bytes)
    (encode : Py.str -> option Crypt.bytes)
    (fs fs' fs1 fs2 : Crypt.filesystem)
    (input_file input_file' output_file output_file' passphrase : Py.str)
    (plaintext plaintext' : Crypt.bytes) :
  fs input_file = Some plaintext ->
  fs' input_file' = Some plaintext' ->
  basename input_file = basename input_file' ->
  length plaintext <= length plaintext' ->
  Crypt.encrypt_file sha256 pbkdf2_hmac_sha256 encode fs input_file output_file passphrase
  = Some fs1 ->
  Crypt.encrypt_file sha256 pbkdf2_hmac_sha256 encode fs' input_file' output_file' passphrase
  = Some fs2 ->
  exists header encrypted encrypted',
    fs1 output_file = Some (header ++ encrypted)
    /\ fs2 output_file' = Some (header ++ encrypted')
    /\ length encrypted = length plaintext
    /\ length encrypted' = length plaintext'
    /\ Crypt.xor_bytes encrypted encrypted' = Crypt.xor_bytes plaintext plaintext'.
Proof.
  intros Hfile Hfile' Hname Hlen. unfold Crypt.encrypt_file.
  rewrite Hfile, Hfile', <- Hname.
  destruct (Crypt.derive_key_from_passphrase pbkdf2_hmac_sha256 encode passphrase) as [key|];
    [|discriminate].
  destruct (Crypt.file_nonce_of sha256 encode (basename input_file)) as [file_nonce|];
    [|discriminate].
  destruct (Crypt.make_keystream sha256 key file_nonce (length plaintext))
    as [keystream|] eqn:Ek; [|discriminate].
  destruct (Crypt.make_keystream sha256 key file_nonce (length plaintext'))
    as [keystream'|] eqn:Ek'; [|discriminate].
  destruct (encode (basename input_file)) as [filename_bytes|]; [|discriminate].
  destruct (Crypt.to_bytes (N.of_nat (length filename_bytes)) 16) as [filename_length|];
    [|discriminate].
  intros H H'. injection H as <-. injection H' as <-.
  pose proof (make_keystream_length sha256 _ _ _ _ Ek) as Hk.
  pose proof (make_keystream_length sha256 _ _ _ _ Ek') as Hk'.
  exists (filename_length ++ filename_bytes),
    (Crypt.xor_bytes plaintext keystream), (Crypt.xor_bytes plaintext' keystream').
  unfold Crypt.write. rewrite !eqb_refl, <- !app_assoc.
  repeat split; try (apply xor_bytes_length; assumption).
  rewrite (make_keystream_prefix sha256 _ _ _ _ _ _ Hlen Ek Ek').
  apply xor_bytes_cancels_key; assumption.
Qed.

Lemma encrypt_file_reuses_keystream_example :
  let disk : Crypt.filesystem :=
    fun path => if Py.eqb path (Py.lit "a/notes.txt") then Some [x68; x6f; x6c; x61]
                else if Py.eqb path (Py.lit "b/notes.txt") then Some [x61; x64; x69; x6f; x73]
                else None in
  exists fs1 fs2 header encrypted encrypted',
    Crypt.encrypt_file constant_digest constant_key ascii_encode disk
      (Py.lit "a/notes.txt") (Py.lit "a.enc") (Py.lit "secret") = Some fs1
    /\ Crypt.encrypt_file constant_digest constant_key ascii_encode disk
         (Py.lit "b/notes.txt") (Py.lit "b.enc") (Py.lit "secret") = Some fs2
    /\ fs1 (Py.lit "a.enc") = Some (header ++ encrypted)
    /\ fs2 (Py.lit "b.enc") = Some (header ++ encrypted')
    /\ Crypt.xor_bytes encrypted encrypted' = [x09; x0b; x05; x0e].
Proof.
  intros disk.
  assert (H : exists fs1 fs2,
             Crypt.encrypt_file constant_digest constant_key ascii_encode disk
               (Py.lit "a/notes.txt") (Py.lit "a.enc") (Py.lit "secret") = Some fs1
             /\ Crypt.encrypt_file constant_digest constant_key ascii_encode disk
                  (Py.lit "b/notes.txt") (Py.lit "b.enc") (Py.lit "secret") = Some fs2).
  { eexists. eexists. split; vm_compute; reflexivity. }
  destruct H as [fs1 [fs2 [H1 H2]]].
  destruct (encrypt_file_reuses_keystream constant_digest constant_key ascii_encode
              disk disk fs1 fs2 (Py.lit "a/notes.txt") (Py.lit "b/notes.txt")
              (Py.lit "a.enc") (Py.lit "b.enc") (Py.lit "secret")
              [x68; x6f; x6c; x61] [x61; x64; x69; x6f; x73]
              eq_refl eq_refl eq_refl (le_S _ _ (le_n _)) H1 H2)
    as (header & encrypted & encrypted' & Ho1 & Ho2 & _ & _ & Hxor).
  exists fs1, fs2, header, encrypted, encrypted'. repeat split; assumption.
Defined.

(** X21: [decrypt_file] checks nothing: on a file that [encrypt_file] wrote it
    succeeds with any passphrase that can be encoded, and writes as many
    bytes as the original file had. *)
Theorem decrypt_file_accepts_any_passphrase
    (sha256 : Crypt.bytes -> Crypt.bytes)
    (pbkdf2_hmac_sha256 : Crypt.bytes -> Crypt.bytes -> N -> Crypt.bytes)
    (encode : Py.str -> option Crypt.bytes) (decode : Crypt.bytes -> option Py.str)
    (fs fs1 : Crypt.filesystem)
    (input_file encrypted_file output_file passphrase other_passphrase : Py.str)
    (plaintext : Crypt.bytes) :
  (forall data, length (sha256 data) = 32) ->
  (forall s b, encode s = Some b -> decode b = Some s) ->
  fs input_file = Some plaintext ->
  Crypt.encrypt_file sha256 pbkdf2_hmac_sha256 encode fs input_file encrypted_file passphrase
  = Some fs1 ->
  encode other_passphrase <> None ->
  exists fs2 decrypted,
    Crypt.decrypt_file sha256 pbkdf2_hmac_sha256 encode decode fs1 encrypted_file
                       output_file other_passphrase
    = Some fs2
    /\ fs2 output_file = Some decrypted
    /\ length decrypted = length plaintext.
Proof.
  intros Hdigest Hcodec Hfile Hencrypt Hother.
  unfold Crypt.encrypt_file in Hencrypt. rewrite Hfile in Hencrypt.
  unfold Crypt.derive_key_from_passphrase in *.
  destruct (encode (Py.lit "crmsaltissaltyyes")) as [salt|] eqn:Esalt; [|discriminate].
  destruct (encode passphrase) as [password|]; [|discriminate].
  destruct (Crypt.file_nonce_of sha256 encode (basename input_file)) as [file_nonce|] eqn:En;
    [|discriminate].
  destruct (Crypt.make_keystream sha256 (pbkdf2_hmac_sha256 password salt 100000%N) file_nonce
              (length plaintext)) as [keystream|] eqn:Ek; [|discriminate].
  destruct (encode (basename input_file)) as [filename_bytes|] eqn:Ename; [|discriminate].
  destruct (Crypt.to_bytes (N.of_nat (length filename_bytes)) 16) as [filename_length|] eqn:Eto;
    [|discriminate].
  injection Hencrypt as <-.
  destruct (from_bytes_to_bytes _ _ _ Eto) as [Hfrom Hlen16].
  pose proof (make_keystream_length sha256 _ _ _ _ Ek) as Hk.
  unfold Crypt.decrypt_file, Crypt.derive_key_from_passphrase.
  unfold Crypt.write at 1. rewrite eqb_refl.
  destruct (read_back filename_length filename_bytes
              (Crypt.xor_bytes plaintext keystream) Hlen16) as (Hread1 & Hread2 & Hread3).
  rewrite Hread1, Hfrom, Nat2N.id, Hread2, Hread3.
  rewrite (Hcodec _ _ Ename), Esalt, En.
  destruct (encode other_passphrase) as [other_password|]; [|congruence].
  rewrite xor_bytes_length by exact Hk.
  destruct (make_keystream_returns sha256 Hdigest
              (pbkdf2_hmac_sha256 other_password salt 100000%N) file_nonce (length plaintext))
    as [other_keystream [-> Hlen]].
  eexists. eexists. split; [reflexivity|].
  unfold Crypt.write. rewrite eqb_refl. split; [reflexivity|].
  rewrite xor_bytes_length; rewrite (xor_bytes_length plaintext keystream Hk);
    [reflexivity | exact Hlen].
Qed.

Lemma decrypt_file_accepts_any_passphrase_example :
  exists fs1 fs2 decrypted,
    Crypt.encrypt_file constant_digest constant_key ascii_encode notes_disk
      (Py.lit "data/notes.txt") (Py.lit "out/notes.txt.enc") (Py.lit "secret")
    = Some fs1
    /\ Crypt.decrypt_file constant_digest constant_key ascii_encode ascii_decode fs1
         (Py.lit "out/notes.txt.enc") (Py.lit "back/notes.txt") (Py.lit "guess")
       = Some fs2
    /\ fs2 (Py.lit "back/notes.txt") = Some decrypted
    /\ length decrypted = 5.
Proof.
  assert (H : exists fs1,
             Crypt.encrypt_file constant_digest constant_key ascii_encode notes_disk
               (Py.lit "data/notes.txt") (Py.lit "out/notes.txt.enc") (Py.lit "secret")
             = Some fs1).
  { eexists. vm_compute. reflexivity. }
  destruct H as [fs1 H].
  destruct (decrypt_file_accepts_any_passphrase constant_digest constant_key
              ascii_encode ascii_decode notes_disk fs1
              (Py.lit "data/notes.txt") (Py.lit "out/notes.txt.enc") (Py.lit "back/notes.txt")
              (Py.lit "secret") (Py.lit "guess") [x68; x6f; x6c; x61; x0a]
              (fun _ => eq_refl) ascii_codec eq_refl H ltac:(discriminate))
    as (fs2 & decrypted & H2 & Hout & Hlen).
  exists fs1, fs2, decrypted. repeat split; assumption.
Defined.

(** ** The shape of a normalised name and of a slug *)

Lemma stable_lower (s : Py.str) : Forall (fun c => stable c = true) s -> Py.lower s = s.
Proof.
  induction 1 as [|c s Hc Hs IH]; [reflexivity|].
  unfold stable in Hc. apply andb_true_iff in Hc as [_ Hl]. apply eqb_eq in Hl.
  unfold Py.lower in *. cbn [flat_map]. rewrite Hl, IH. reflexivity.
Qed.

Lemma stable_starters (s : Py.str) :
  Forall (fun c => stable c = true) s -> Forall (fun c => Py.combining c = 0%N) s.
Proof.
  apply Forall_impl. intros c Hc. unfold stable in Hc.
  apply andb_true_iff in Hc as [Hc _]. apply andb_true_iff in Hc as [Hc _].
  apply N.eqb_eq, Hc.
Qed.

Lemma stable_decomposed (s : Py.str) :
  Forall (fun c => stable c = true) s -> flat_map Py.decomposition s = s.
Proof.
  induction 1 as [|c s Hc Hs IH]; [reflexivity|].
  unfold stable in Hc. apply andb_true_iff in Hc as [Hc _].
  apply andb_true_iff in Hc as [_ Hd]. apply eqb_eq in Hd.
  cbn [flat_map]. rewrite Hd, IH. reflexivity.
Qed.

Lemma canonical_order_of_starters (s : Py.str) :
  Forall (fun c => Py.combining c = 0%N) s -> Py.canonical_order s = s.
Proof.
  induction 1 as [|c s Hc Hs IH]; [reflexivity|].
  unfold Py.canonical_order in *. cbn [fold_right]. rewrite IH.
  destruct s as [|d s]; [reflexivity|]. cbn [Py.insert_mark].
  rewrite Hc. destruct (Py.combining d); rewrite ?andb_false_r; reflexivity.
Qed.

(** X22: A normalised name is trimmed and in lower case, it holds no combining
    mark, and it is in decomposed form already. *)
Theorem normalize_spanish_name_output (name : Py.str) :
  Py.strip (normalize_spanish_name name) = normalize_spanish_name name
  /\ Py.lower (normalize_spanish_name name) = normalize_spanish_name name
  /\ Forall (fun c => Py.combining c = 0%N) (normalize_spanish_name name)
  /\ Py.normalize_NFD (normalize_spanish_name name) = normalize_spanish_name name.
Proof.
  assert (H : Forall (fun c => stable c = true) (normalize_spanish_name name))
    by (rewrite normalize_spanish_name_unfold; apply strip_Forall, settled_stable).
  split; [rewrite normalize_spanish_name_unfold; apply strip_idempotent|].
  split; [apply stable_lower, H|].
  split; [apply stable_starters, H|].
  unfold Py.normalize_NFD. rewrite (stable_decomposed _ H).
  apply canonical_order_of_starters, stable_starters, H.
Qed.

Lemma lowers_to_slug_all (c : Py.char) : lowers_to_slug c = true.
Proof.
  destruct (N.ltb_spec c repertoire_bound) as [Hc|Hc].
  - assert (H : forallb lowers_to_slug (map N.of_nat (seq 0 (N.to_nat repertoire_bound))) = true)
      by (vm_compute; reflexivity).
    rewrite forallb_forall in H. apply H, below_bound_listed, Hc.
  - unfold lowers_to_slug, Py.isword.
    rewrite (in_range_beyond Py.word_table repertoire_bound c) by (reflexivity || exact Hc).
    reflexivity.
Qed.

Lemma lower_of_words (s : Py.str) :
  Forall (fun c => Py.isword c = true) s ->
  Forall (fun d => Py.isspace d = false /\ Py.lower_char d = [d]) (Py.lower s).
Proof.
  induction 1 as [|c s Hc Hs IH]; [constructor|].
  unfold Py.lower in *. cbn [flat_map]. apply Forall_app. split; [|exact IH].
  pose proof (lowers_to_slug_all c) as H. unfold lowers_to_slug in H.
  rewrite Hc in H. cbn [negb orb] in H. rewrite forallb_forall in H.
  apply Forall_forall. intros d Hd. specialize (H d Hd).
  apply andb_true_iff in H as [Hspace Hlower].
  apply negb_true_iff in Hspace. apply eqb_eq in Hlower. split; assumption.
Qed.

(** X23: A slug holds no white space and is in lower case. *)
Theorem simplify_question_slug (question : Py.str) :
  Forall (fun c => Py.isspace c = false) (simplify_question question)
  /\ Py.lower (simplify_question question) = simplify_question question.
Proof.
  assert (H : Forall (fun d => Py.isspace d = false /\ Py.lower_char d = [d])
                     (simplify_question question)).
  { unfold simplify_question. apply lower_of_words, underscore_spaces_words.
    unfold remove_special. apply Forall_forall. intros c Hc.
    apply filter_In in Hc. apply Hc. }
  split.
  - revert H. apply Forall_impl. intros c Hc. apply Hc.
  - induction H as [|c s [_ Hc] Hs IH]; [reflexivity|].
    unfold Py.lower in *. cbn [flat_map]. rewrite Hc, IH. reflexivity.
Qed.

(** X24: When the first word of a question of more than 30 characters has more
    than 25, the truncation keeps no word and the slug is empty. *)
Theorem simplify_question_long_first_word (question word : Py.str) (words : list Py.str) :
  30 < length (Py.strip (without_emojis question)) ->
  Py.split (Py.strip (without_emojis question)) = word :: words ->
  25 < length word ->
  simplify_question question = [].
Proof.
  intros Hlong Hsplit Hword. unfold simplify_question. fold (without_emojis question).
  apply Nat.ltb_lt in Hlong. rewrite Hlong, Hsplit. cbn [shorten Nat.add].
  destruct (Nat.leb_spec (length word) 25) as [H|_]; [lia|].
  reflexivity.
Qed.

Lemma simplify_question_long_first_word_example :
  simplify_question (Py.lit "https://example.org/a-long-link and more") = [].
Proof.
  apply (simplify_question_long_first_word _ (Py.lit "https://example.org/a-long-link")
           [Py.lit "and"; Py.lit "more"]).
  - vm_compute. lia.
  - vm_compute. reflexivity.
  - vm_compute. lia.
Defined.

(** ** Essay responses *)

(** The step of the loop of [read_csv_file] over the columns of one row. *)
Lemma essay_responses_of_app (before after contact_columns admin : list Py.str)
    (row : Dict.dict Py.str (option Py.str)) :
  essay_responses_of (before ++ after) contact_columns admin row
  = fold_left
      (fun essay_responses col =>
         if existsb (Py.eqb col) contact_columns || existsb (Py.eqb col) admin
         then essay_responses
         else
           let short_question := simplify_question col in
           match Dict.get Py.eqb row col with
           | Some (Some cell) =>
               if nonempty cell
               then Dict.set Py.eqb essay_responses short_question (Py.strip cell)
               else essay_responses
           | _ => essay_responses
           end)
      after (essay_responses_of before contact_columns admin row).
Proof. unfold essay_responses_of. apply fold_left_app. Qed.

Lemma essay_responses_other_columns (after contact_columns admin : list Py.str)
    (row : Dict.dict Py.str (option Py.str)) (key : Py.str) :
  (forall col, In col after -> simplify_question col <> key) ->
  forall essay_responses,
    Dict.get Py.eqb
      (fold_left
         (fun essay_responses col =>
            if existsb (Py.eqb col) contact_columns || existsb (Py.eqb col) admin
            then essay_responses
            else
              let short_question := simplify_question col in
              match Dict.get Py.eqb row col with
              | Some (Some cell) =>
                  if nonempty cell
                  then Dict.set Py.eqb essay_responses short_question (Py.strip cell)
                  else essay_responses
              | _ => essay_responses
              end)
         after essay_responses)
      key
    = Dict.get Py.eqb essay_responses key.
Proof.
  induction after as [|col after IH]; intros Hother essay_responses; [reflexivity|].
  cbn [fold_left]. rewrite IH by (intros c Hc; apply Hother; right; exact Hc).
  destruct (existsb (Py.eqb col) contact_columns || existsb (Py.eqb col) admin);
    [reflexivity|].
  cbv zeta. destruct (Dict.get Py.eqb row col) as [[cell|]|]; try reflexivity.
  destruct (nonempty cell); [|reflexivity].
  apply (get_set_other _ _ _ eqb_eq). apply Hother. left. reflexivity.
Qed.

(** X25: the answers of one row are stored under the slugs of their columns,
    and a later column overwrites an earlier one of the same slug: the answer
    found under the slug of an answered question column is its own (trimmed)
    when no later column has that slug, whatever the earlier columns are. *)
Theorem essay_responses_last_column_wins (before after contact_columns admin : list Py.str)
    (col cell : Py.str) (row : Dict.dict Py.str (option Py.str)) :
  existsb (Py.eqb col) contact_columns = false ->
  existsb (Py.eqb col) admin = false ->
  Dict.get Py.eqb row col = Some (Some cell) ->
  cell <> [] ->
  (forall later, In later after -> simplify_question later <> simplify_question col) ->
  Dict.get Py.eqb (essay_responses_of (before ++ col :: after) contact_columns admin row)
           (simplify_question col)
  = Some (Py.strip cell).
Proof.
  intros Hcontact Hadmin Hcell Hne Hafter.
  replace (before ++ col :: after) with ((before ++ [col]) ++ after)
    by (rewrite <- app_assoc; reflexivity).
  rewrite essay_responses_of_app, essay_responses_other_columns by exact Hafter.
  rewrite essay_responses_of_app. cbn [fold_left].
  rewrite Hcontact, Hadmin, Hcell. cbn [orb].
  destruct cell as [|c cell]; [contradiction|]. cbn [nonempty].
  apply (get_set_same _ _ _ eqb_eq).
Qed.

Lemma essay_responses_last_column_wins_example :
  essay_responses_of
    [Py.lit "Nombre"; Py.lit "Why do you want to join?"; Py.lit "Why do you want to join!"]
    [Py.lit "Nombre"] []
    [ (Py.lit "Nombre", Some (Py.lit "Ana"));
      (Py.lit "Why do you want to join?", Some (Py.lit "To learn"));
      (Py.lit "Why do you want to join!", Some (Py.lit " For fun ")) ]
  = [(Py.lit "why_do_you_want_to_join", Py.lit "For fun")]
  /\ Dict.get Py.eqb
       (essay_responses_of
          ([Py.lit "Nombre"; Py.lit "Why do you want to join?"]
           ++ Py.lit "Why do you want to join!" :: [])
          [Py.lit "Nombre"] []
          [ (Py.lit "Nombre", Some (Py.lit "Ana"));
            (Py.lit "Why do you want to join?", Some (Py.lit "To learn"));
            (Py.lit "Why do you want to join!", Some (Py.lit " For fun ")) ])
       (simplify_question (Py.lit "Why do you want to join!"))
     = Some (Py.strip (Py.lit " For fun ")).
Proof.
  split; [vm_compute; reflexivity|].
  apply (essay_responses_last_column_wins
           [Py.lit "Nombre"; Py.lit "Why do you want to join?"] []
           [Py.lit "Nombre"] [] (Py.lit "Why do you want to join!") (Py.lit " For fun ")).
  - reflexivity.
  - reflexivity.
  - vm_compute. reflexivity.
  - discriminate.
  - intros later [].
Defined.
